(** * Meter-reading extraction and photo verification

  A shallow embedding of the OCR reading pipeline
  ([dist/utils/ocr-processor.js], [dist/config/ocr-config.js]) and of the
  per-user verification workflow ([dist/services/photo-verification.js]),
  followed by the properties stated about them.

  Conventions of the embedding.
  - A JavaScript number that holds a reading, a consumption, a duration or
    a charger power is a binary64 [float] (Rocq's primitive floats), so
    [end - start], [Math.round(cons * 100) / 100] and every comparison are
    the IEEE operations the program executes.
  - Counters and heuristic scores are integer-valued numbers and are kept
    in [Z]; an OCR confidence is an average of such scores that is only
    ever compared with integer thresholds, and is kept as an exact
    rational [Q].
  - Text is a [string] of 8-bit characters; the character classes and case
    mapping below are the ASCII part of the JavaScript ones.
  - Logging, wall-clock measurements ([processingTime]) and the wording of
    chat messages are left out; a message is recorded by its kind and the
    values it interpolates. *)

From Stdlib Require Import ZArith QArith Qround Floats String Ascii List Lia Lqa
DecimalString Sorted Permutation Bool.
From stdpp Require Import gmap strings.
Set Warnings "-inexact-float".
Import ListNotations.
Local Open Scope Z_scope.

(* ================================================================== *)
(** * JavaScript numbers *)
(* ================================================================== *)

Module JsNumber.

Definition Z2SF (z : Z) : spec_float :=
  match z with
  | Z0 => S754_zero false
  | Zpos p => S754_finite false p 0
  | Zneg p => S754_finite true p 0
  end.

(** The binary64 value nearest to a rational (ties to even): the rounding
    every decimal literal and every [parseFloat] goes through. *)
Definition Q2float (q : Q) : float :=
  SF2Prim (SFdiv prec emax (Z2SF (Qnum q)) (Z2SF (Zpos (Qden q)))).

Definition Z2float (z : Z) : float := Q2float (inject_Z z).

(** The exact value of a finite float. *)
Definition float2Q (x : float) : Q :=
  match Prim2SF x with
  | S754_finite s m e =>
      let v := (inject_Z (Zpos m) * Qpower 2 e)%Q in
      if s then Qopp v else v
  | _ => 0%Q
  end.

(** [isNaN], [isFinite] and the truthiness of a number. *)
Definition isNaN (x : float) : bool := PrimFloat.is_nan x.
Definition isFinite (x : float) : bool := PrimFloat.is_finite x.
Definition truthy (x : float) : bool :=
  negb (PrimFloat.is_nan x || PrimFloat.is_zero x).

(** [Math.round]: nearest integer, halves towards +infinity. *)
Definition Math_round (x : float) : float :=
  match Prim2SF x with
  | S754_finite s _ _ =>
      let n := Qfloor (float2Q x + (1 # 2))%Q in
      if (n =? 0)%Z then (if s then PrimFloat.neg_zero else PrimFloat.zero)
      else Z2float n
  | _ => x
  end.

(** [Math.floor]. *)
Definition Math_floor (x : float) : float :=
  match Prim2SF x with
  | S754_finite _ _ _ =>
      let n := Qfloor (float2Q x) in
      if (n =? 0)%Z then PrimFloat.zero else Z2float n
  | _ => x
  end.

(** ** Number to string *)

Definition pow10 (p : Z) : Q := Qpower 10 p.

Definition Qltb (a b : Q) : bool := negb (Qle_bool b a).

(** The [n] with [10^(n-1) <= q < 10^n], for [q > 0], found from a binary
    estimate that is off by at most a few units. *)
Fixpoint adjustExp (fuel : nat) (q : Q) (n : Z) : Z :=
  match fuel with
  | O => n
  | S f =>
      if Qltb q (pow10 (n - 1)) then adjustExp f q (n - 1)
      else if Qle_bool (pow10 n) q then adjustExp f q (n + 1)
      else n
  end.

Definition decimalExponent (q : Q) : Z :=
  let b := Z.log2 (Qnum q) - Z.log2 (Zpos (Qden q)) in
  adjustExp 8 q (b * 30103 / 100000 + 1).

(** The candidates with [k] digits: the two multiples of [10^(n-k)] around
    [q], kept when they read back as [x]; the nearer one is preferred. *)
Definition digitCandidates (x : float) (q : Q) (nx : Z) (k : Z)
  : option (Z * Z) :=
  let p := nx - k in
  let s0 := Qfloor (q / pow10 p)%Q in
  let lo := (s0, nx) in
  let hi := if s0 + 1 <? 10 ^ k then (s0 + 1, nx) else (10 ^ (k - 1), nx + 1) in
  let val (c : Z * Z) : Q := (inject_Z (fst c) * pow10 (snd c - k))%Q in
  let ok (c : Z * Z) : bool := PrimFloat.eqb (Q2float (val c)) x in
  match ok lo, ok hi with
  | true, true =>
      let dlo := (q - val lo)%Q in
      let dhi := (val hi - q)%Q in
      if Qltb dhi dlo then Some hi
      else if Qltb dlo dhi then Some lo
      else if Z.even (fst lo) then Some lo else Some hi
  | true, false => Some lo
  | false, true => Some hi
  | false, false => None
  end.

(** [(s, k, n)] of Number::toString: [k] as small as possible with
    [s * 10^(n-k)] reading back as [x]. *)
Fixpoint shortestDigits (fuel : nat) (x : float) (q : Q) (nx : Z) (k : Z)
  : Z * Z * Z :=
  match fuel with
  | O => (Qfloor (q / pow10 (nx - k))%Q, k, nx)
  | S f =>
      match digitCandidates x q nx k with
      | Some (s, n) => (s, k, n)
      | None => shortestDigits f x q nx (k + 1)
      end
  end.

Definition digitsOf (z : Z) : string :=
  NilZero.string_of_uint (N.to_uint (Z.to_N z)).

Definition zeros (n : Z) : string :=
  string_of_list_ascii (repeat "0"%char (Z.to_nat n)).

Definition strTake (n : Z) (s : string) : string :=
  String.substring 0 (Z.to_nat n) s.
Definition strDrop (n : Z) (s : string) : string :=
  String.substring (Z.to_nat n) (String.length s - Z.to_nat n) s.

Definition formatDigits (d : string) (k n : Z) : string :=
  if (k <=? n) && (n <=? 21) then d +:+ zeros (n - k)
  else if (0 <? n) && (n <=? 21) then strTake n d +:+ "." +:+ strDrop n d
  else if (-6 <? n) && (n <=? 0) then "0." +:+ zeros (- n) +:+ d
  else
    let e := n - 1 in
    let sign := if e <? 0 then "-" else "+" in
    let es := digitsOf (Z.abs e) in
    if k =? 1 then d +:+ "e" +:+ sign +:+ es
    else strTake 1 d +:+ "." +:+ strDrop 1 d +:+ "e" +:+ sign +:+ es.

(** [Number.prototype.toString()] in radix 10. *)
Definition Number_toString (x : float) : string :=
  match Prim2SF x with
  | S754_nan => "NaN"
  | S754_zero _ => "0"
  | S754_infinity s => if s then "-Infinity" else "Infinity"
  | S754_finite s _ _ =>
      let q := float2Q (PrimFloat.abs x) in
      let '(sd, k, n) :=
        shortestDigits 17 (PrimFloat.abs x) q (decimalExponent q) 1 in
      let body := formatDigits (digitsOf sd) k n in
      if s then "-" +:+ body else body
  end.

(** [Number.prototype.toFixed(f)]. *)
Definition Number_toFixed (x : float) (f : nat) : string :=
  match Prim2SF x with
  | S754_nan | S754_infinity _ => Number_toString x
  | S754_zero _ | S754_finite _ _ _ =>
      let neg := PrimFloat.ltb x PrimFloat.zero in
      let q := float2Q (PrimFloat.abs x) in
      if Qle_bool (pow10 21) q then Number_toString x
      else
        let n := Qfloor (q * pow10 (Z.of_nat f) + (1 # 2))%Q in
        let m := digitsOf n in
        let m :=
          if (f =? 0)%nat then m
          else
            let k := Z.of_nat (String.length m) in
            let m := if k <=? Z.of_nat f then zeros (Z.of_nat f + 1 - k) +:+ m else m in
            let k := Z.of_nat (String.length m) in
            strTake (k - Z.of_nat f) m +:+ "." +:+ strDrop (k - Z.of_nat f) m in
        if neg then "-" +:+ m else m
  end.

End JsNumber.

(* ================================================================== *)
(** * JavaScript strings and regular expressions *)
(* ================================================================== *)

Module JsString.

Definition code (c : ascii) : nat := nat_of_ascii c.

Definition isDigit (c : ascii) : bool :=
  (48 <=? code c)%nat && (code c <=? 57)%nat.

(** The ASCII members of [\s]: tab, line feed, vertical tab, form feed,
    carriage return, space. *)
Definition isSpace (c : ascii) : bool :=
  ((9 <=? code c)%nat && (code c <=? 13)%nat) || (code c =? 32)%nat.

(** [toUpperCase] on one character: the letters [a] to [z]. The
    characters of a text are bytes, and none beyond ASCII is taken as a
    letter (or, above, as white space). *)
Definition upper (c : ascii) : ascii :=
  if (97 <=? code c)%nat && (code c <=? 122)%nat
  then ascii_of_nat (code c - 32) else c.

Definition chars (s : string) : list ascii := list_ascii_of_string s.
Definition str (l : list ascii) : string := string_of_list_ascii l.

Definition toUpperCase (s : string) : string := str (map upper (chars s)).

Fixpoint dropSpaces (l : list ascii) : list ascii :=
  match l with
  | c :: r => if isSpace c then dropSpaces r else l
  | [] => []
  end.

Definition trim (s : string) : string :=
  str (rev (dropSpaces (rev (dropSpaces (chars s))))).

(** [s.includes(t)]. *)
Fixpoint startsWith (t l : list ascii) : bool :=
  match t, l with
  | [], _ => true
  | a :: t', b :: l' => Ascii.eqb a b && startsWith t' l'
  | _ :: _, [] => false
  end.

Fixpoint includesFrom (t l : list ascii) : bool :=
  startsWith t l ||
  match l with
  | [] => false
  | _ :: r => includesFrom t r
  end.

Definition includes (s t : string) : bool := includesFrom (chars t) (chars s).

(** [s.split(c)] for a one-character separator. *)
Fixpoint splitOn (sep : ascii) (cur : list ascii) (l : list ascii) : list string :=
  match l with
  | [] => [str (rev cur)]
  | c :: r =>
      if Ascii.eqb c sep then str (rev cur) :: splitOn sep [] r
      else splitOn sep (c :: cur) r
  end.

Definition split (s : string) (sep : ascii) : list string :=
  splitOn sep [] (chars s).

(** [s.substring(a, b)] for [0 <= a <= b]. *)
Definition substring (s : string) (a b : nat) : string :=
  str (firstn (b - a) (skipn a (chars s))).

(** ** parseFloat *)

Fixpoint spanDigits (l : list ascii) : list ascii * list ascii :=
  match l with
  | c :: r =>
      if isDigit c then let '(d, rest) := spanDigits r in (c :: d, rest)
      else ([], l)
  | [] => ([], [])
  end.

Definition digitsValue (d : list ascii) : Z :=
  fold_left (fun acc c => 10 * acc + Z.of_nat (code c - 48)) d 0.

(** The exponent part [e[+-]digits], when it is well formed. *)
Definition exponentPart (l : list ascii) : Z :=
  match l with
  | c :: r =>
      if Ascii.eqb (upper c) "E"%char then
        let '(neg, r') :=
          match r with
          | "-"%char :: r' => (true, r')
          | "+"%char :: r' => (false, r')
          | _ => (false, r)
          end in
        match fst (spanDigits r') with
        | [] => 0
        | d => if neg then - digitsValue d else digitsValue d
        end
      else 0
  | [] => 0
  end.

(** The digits of a numeral after its leading zeros. *)
Fixpoint dropZeros (l : list ascii) : list ascii :=
  match l with
  | c :: r => if Ascii.eqb c "0"%char then dropZeros r else l
  | [] => []
  end.

(** [parseFloat]: the longest prefix of the trimmed input that is a
    decimal literal, rounded to the nearest binary64; [NaN] without one.
    A numeral of [d] significant digits times [10^e] lies between
    [10^(d+e-1)] and [10^(d+e)], so beyond 400 it is infinite and below
    -400 it is zero, as its rounding would be. *)
Definition parseFloat (input : string) : float :=
  let s := dropSpaces (chars input) in
  let '(neg, s1) :=
    match s with
    | "-"%char :: r => (true, r)
    | "+"%char :: r => (false, r)
    | _ => (false, s)
    end in
  let signed (x : float) := if neg then PrimFloat.opp x else x in
  if startsWith (chars "Infinity") s1 then signed PrimFloat.infinity
  else
    let '(ip, r1) := spanDigits s1 in
    let '(fp, r2) :=
      match r1 with
      | "."%char :: r => spanDigits r
      | _ => ([], r1)
      end in
    match ip ++ fp with
    | [] => PrimFloat.nan
    | ds =>
        let m := digitsValue ds in
        let e := exponentPart r2 - Z.of_nat (length fp) in
        let magnitude := Z.of_nat (length (dropZeros ds)) + e in
        if m =? 0 then signed PrimFloat.zero
        else if 400 <? magnitude then signed PrimFloat.infinity
        else if magnitude <? -400 then signed PrimFloat.zero
        else signed (JsNumber.Q2float (inject_Z m * JsNumber.pow10 e)%Q)
    end.

End JsString.

Module Regex.
Import JsString.

(** The fragment of JavaScript regular expressions the program uses:
    literals, character classes, sequence, alternation, greedy bounded
    and unbounded repetition, and one capturing group. *)
Inductive regex : Type :=
| Eps
| Lit (c : ascii)
| Class (p : ascii -> bool)
| Cat (r1 r2 : regex)
| Or (r1 r2 : regex)
| Quant (min : nat) (max : option nat) (r : regex)
| Capture (r : regex).

Definition Opt (r : regex) : regex := Quant 0 (Some 1%nat) r.
Definition Star (r : regex) : regex := Quant 0 None r.
Definition Plus (r : regex) : regex := Quant 1 None r.

Fixpoint Word (l : list ascii) : regex :=
  match l with
  | [] => Eps
  | [c] => Lit c
  | c :: r => Cat (Lit c) (Word r)
  end.

Fixpoint Seq (l : list regex) : regex :=
  match l with
  | [] => Eps
  | [r] => r
  | r :: l' => Cat r (Seq l')
  end.

Section Matcher.
(** The [i] flag. *)
Variable ignoreCase : bool.
Context {R : Type}.

Definition sameChar (a b : ascii) : bool :=
  if ignoreCase then Ascii.eqb (upper a) (upper b) else Ascii.eqb a b.

(** The continuation receives the rest of the input and group 1. *)
Definition cont : Type := list ascii -> option (list ascii) -> option R.
Definition matcher : Type := list ascii -> option (list ascii) -> cont -> option R.

(** RepeatMatcher: greedy; an iteration beyond the minimum that consumes
    nothing is rejected. *)
Fixpoint repeatMatcher (m : matcher) (fuel : nat) (min : nat) (max : option nat)
  (s : list ascii) (cap : option (list ascii)) (k : cont) : option R :=
  let stop := if (min =? 0)%nat then k s cap else None in
  match fuel with
  | O => stop
  | S fuel' =>
      match max with
      | Some O => k s cap
      | _ =>
          let again :=
            m s cap (fun s' cap' =>
              if (min =? 0)%nat && (length s' =? length s)%nat then None
              else repeatMatcher m fuel' (Nat.pred min) (option_map Nat.pred max) s' cap' k) in
          match again with
          | Some r => Some r
          | None => stop
          end
      end
  end.

Fixpoint run (r : regex) : matcher :=
  fun s cap k =>
  match r with
  | Eps => k s cap
  | Lit c =>
      match s with
      | x :: s' => if sameChar c x then k s' cap else None
      | [] => None
      end
  | Class p =>
      match s with
      | x :: s' => if p x then k s' cap else None
      | [] => None
      end
  | Cat r1 r2 => run r1 s cap (fun s' cap' => run r2 s' cap' k)
  | Or r1 r2 =>
      match run r1 s cap k with
      | Some x => Some x
      | None => run r2 s cap k
      end
  | Quant min max r' =>
      repeatMatcher (run r') (min + length s + 1) min max s cap k
  | Capture r' =>
      run r' s cap (fun s' _ => k s' (Some (firstn (length s - length s') s)))
  end.
End Matcher.

(** A match: [index], [match[0]] and [match[1]]. *)
Record MatchResult : Type := {
  index : nat;
  whole : string;
  group1 : option string
}.

Definition matchAt (ic : bool) (r : regex) (i : nat) (s : list ascii)
  : option MatchResult :=
  run ic r s None (fun s' cap =>
    Some {| index := i;
            whole := str (firstn (length s - length s') s);
            group1 := option_map str cap |}).

(** The leftmost match at or after position [i] of the input whose
    remaining part is [s]. *)
Fixpoint search (ic : bool) (r : regex) (i : nat) (s : list ascii)
  : option MatchResult :=
  match matchAt ic r i s with
  | Some m => Some m
  | None =>
      match s with
      | [] => None
      | _ :: s' => search ic r (S i) s'
      end
  end.

(** [re.exec(text)] / [text.match(re)] without the [g] flag. *)
Definition exec (ic : bool) (r : regex) (text : string) : option MatchResult :=
  search ic r 0 (chars text).

(** [re.test(text)]. *)
Definition test (ic : bool) (r : regex) (text : string) : bool :=
  match exec ic r text with Some _ => true | None => false end.

(** The successive results of [re.exec(text)] with the [g] flag, until it
    returns [null]: each search resumes at [lastIndex], the end of the
    previous match. *)
Fixpoint execAllFrom (fuel : nat) (ic : bool) (r : regex) (i : nat) (s : list ascii)
  : list MatchResult :=
  match fuel with
  | O => []
  | S fuel' =>
      match search ic r i s with
      | None => []
      | Some m =>
          let next := (index m + String.length (whole m))%nat in
          let next := if (next =? i)%nat then S i else next in
          m :: execAllFrom fuel' ic r next (skipn (next - i) s)
      end
  end.

Definition execAll (ic : bool) (r : regex) (text : string) : list MatchResult :=
  execAllFrom (S (String.length text)) ic r 0 (chars text).

(** [text.replace(re, by)] with the [g] flag, for a pattern that never
    matches the empty string. *)
Fixpoint replaceFrom (fuel : nat) (r : regex) (by_ : list ascii) (s : list ascii)
  : list ascii :=
  match fuel with
  | O => s
  | S fuel' =>
      match s with
      | [] => []
      | c :: s' =>
          match matchAt false r 0 s with
          | Some m =>
              match String.length (whole m) with
              | O => c :: replaceFrom fuel' r by_ s'
              | S n => by_ ++ replaceFrom fuel' r by_ (skipn n s')
              end
          | None => c :: replaceFrom fuel' r by_ s'
          end
      end
  end.

Definition replaceAll (r : regex) (by_ : string) (text : string) : string :=
  str (replaceFrom (String.length text) r (chars by_) (chars text)).

End Regex.

(* ================================================================== *)
(** * Configuration ([dist/config/ocr-config.js]) *)
(* ================================================================== *)

Module OCR_CONFIG.
Module VALID_RANGE.
Definition min : float := 10%float.
Definition max : float := 999999%float.
End VALID_RANGE.
Definition MAX_DECIMAL_PLACES : nat := 3.
Module CONSUMPTION_RANGE.
Definition min : float := 0.1%float.
Definition max : float := 200%float.
End CONSUMPTION_RANGE.
Definition MIN_OCR_CONFIDENCE : Q := 60%Q.
(** [GOOGLE_VISION.retry.maxAttempts] *)
Definition maxAttempts : Z := 3.
(** [MESSAGES.LOW_CONFIDENCE_THRESHOLD] *)
Definition LOW_CONFIDENCE_THRESHOLD : Q := 50%Q.
(** The keys of [MESSAGES.RETRY_TIPS]. *)
Inductive RetryTip : Set :=
  lighting | focus | steady | visible | numbers | angle | background.
(** A suggestion handed back with a failed extraction: one of the tips,
    or the fixed advice given for a reading that fails validation. *)
Inductive Suggestion : Set :=
| Tip (t : RetryTip)
| VerifyDisplayVisible.
End OCR_CONFIG.

(* ================================================================== *)
(** * The OCR processor ([dist/utils/ocr-processor.js]) *)
(* ================================================================== *)

(** The result objects of the program, one record per shape; a field the
  program leaves out is [None]. *)

(** What [validateReading], [calculateConsumption] and
  [validateConsumptionWithContext] return. *)
Module Outcome.
Record t : Type := {
  valid : bool;
  error : option string;
  consumption : option float;
  warnings : option (list string)
}.
Definition pass : t :=
  {| valid := true; error := None; consumption := None; warnings := None |}.
Definition fail (e : string) : t :=
  {| valid := false; error := Some e; consumption := None; warnings := None |}.
End Outcome.

(** A candidate of the fallback scanner. *)
Module Candidate.
Record t : Type := {
  value : float;
  confidence : Z;
  position : nat;
  context : string
}.
End Candidate.

(** What [performOCR] returns. *)
Module OcrAttempt.
Record t : Type := {
  success : bool;
  text : option string;
  confidence : option Q;
  error : option string
}.
End OcrAttempt.

(** [OCRResult], what [extractKwhReading] returns. *)
Module OCRResult.
Record t : Type := {
  success : bool;
  reading : option float;
  confidence : option Q;
  rawText : option string;
  error : option string;
  suggestions : option (list OCR_CONFIG.Suggestion)
}.
End OCRResult.

Module OcrProcessor.
Import JsNumber JsString Regex.
Local Open Scope float_scope.

Definition isValidReading (num : float) : bool :=
  negb (isNaN num) && isFinite num
  && (OCR_CONFIG.VALID_RANGE.min <=? num)
  && (num <=? OCR_CONFIG.VALID_RANGE.max).

(** [(reading.toString().split('.')[1] || '').length] *)
Definition decimalPlaces (reading : float) : nat :=
  String.length (nth 1 (split (Number_toString reading) ".") ""%string).

Definition validateReading (reading : float) : Outcome.t :=
  if isNaN reading || negb (isFinite reading) then
    Outcome.fail "Invalid number format"
  else if reading <=? 0 then
    Outcome.fail "Reading must be positive"
  else if reading <? OCR_CONFIG.VALID_RANGE.min then
    Outcome.fail ("Reading too small (minimum: "
                  +:+ Number_toString OCR_CONFIG.VALID_RANGE.min +:+ " kWh)")
  else if OCR_CONFIG.VALID_RANGE.max <? reading then
    Outcome.fail ("Reading too large (maximum: "
                  +:+ Number_toString OCR_CONFIG.VALID_RANGE.max +:+ " kWh)")
  else if (OCR_CONFIG.MAX_DECIMAL_PLACES <? decimalPlaces reading)%nat then
    Outcome.fail "Too many decimal places"
  else Outcome.pass.

Definition errorText (o : Outcome.t) : string :=
  match Outcome.error o with Some e => e | None => "undefined" end.

(** [Math.round(cons * 100) / 100] *)
Definition roundTo2 (cons : float) : float := Math_round (cons * 100) / 100.

Definition calculateConsumption (start end_ : float) : Outcome.t :=
  let v1 := validateReading start in
  let v2 := validateReading end_ in
  if negb (Outcome.valid v1) then
    Outcome.fail ("Start reading: " +:+ errorText v1)
  else if negb (Outcome.valid v2) then
    Outcome.fail ("End reading: " +:+ errorText v2)
  else if end_ <=? start then
    Outcome.fail "End reading must be greater than start reading"
  else
    let cons := end_ - start in
    if cons <? OCR_CONFIG.CONSUMPTION_RANGE.min then
      Outcome.fail ("Consumption too low (< "
                    +:+ Number_toString OCR_CONFIG.CONSUMPTION_RANGE.min +:+ " kWh)")
    else if OCR_CONFIG.CONSUMPTION_RANGE.max <? cons then
      Outcome.fail ("Consumption too high (> "
                    +:+ Number_toString OCR_CONFIG.CONSUMPTION_RANGE.max +:+ " kWh)")
    else
      {| Outcome.valid := true; Outcome.error := None;
         Outcome.consumption := Some (roundTo2 cons);
         Outcome.warnings := None |}.

(** [l.length ? l : undefined] *)
Definition someUnlessEmpty {A} (l : list A) : option (list A) :=
  match l with
  | [] => None
  | _ => Some l
  end.

(** The two warnings of [validateConsumptionWithContext]. *)
Definition nearLimitWarning : string :=
  "Average power very close to charger limit – verify readings".
Definition lowEfficiencyWarning (efficiency : float) : string :=
  "Low efficiency (" +:+ Number_toFixed efficiency 0
  +:+ "%) – may indicate partial charge".

(** [batteryCapacityKwh] is an optional argument: [None] when the caller
    leaves it out. *)
Definition validateConsumptionWithContext
  (consumption durationMinutes chargerPowerKw : float)
  (batteryCapacityKwh : option float) : Outcome.t :=
  let durationHours := durationMinutes / 60 in
  let theoreticalMax := durationHours * chargerPowerKw * 0.95 in
  if theoreticalMax * 1.15 <? consumption then
    Outcome.fail ("Consumption (" +:+ Number_toString consumption
                  +:+ " kWh) exceeds theoretical maximum ("
                  +:+ Number_toFixed theoreticalMax 1 +:+ " kWh)")
  else
    let overCapacity :=
      match batteryCapacityKwh with
      | Some capacity =>
          if truthy capacity && (capacity * 1.05 <? consumption) then
            Some (Outcome.fail ("Consumption exceeds battery capacity ("
                                +:+ Number_toString capacity +:+ " kWh)"))
          else None
      | None => None
      end in
    match overCapacity with
    | Some failed => failed
    | None =>
        let avgPower := consumption / durationHours in
        let w1 := if chargerPowerKw * 0.98 <? avgPower
                  then [nearLimitWarning] else [] in
        let efficiency := (consumption / (durationHours * chargerPowerKw)) * 100 in
        let w2 := if efficiency <? 60
                  then [lowEfficiencyWarning efficiency] else [] in
        let warnings := (w1 ++ w2)%list in
        {| Outcome.valid := true; Outcome.error := None;
           Outcome.consumption := None;
           Outcome.warnings := someUnlessEmpty warnings |}
    end.

(** ** Reading extraction from OCR text *)

Definition digit : regex := Class isDigit.
Definition space : regex := Class isSpace.
Definition oneOf (cs : string) : regex :=
  Class (fun c => existsb (Ascii.eqb c) (chars cs)).

(** "(\d{2,6}(?:\.\d{1,3})?)" *)
Definition numberGroup : regex :=
  Capture (Cat (Quant 2 (Some 6%nat) digit)
               (Opt (Cat (Lit ".") (Quant 1 (Some 3%nat) digit)))).

(** The same pattern with the [g] flag. *)
Definition numberPattern : regex := numberGroup.

(** "K?W?H?" *)
Definition optKWH : regex := Seq [Opt (Lit "K"); Opt (Lit "W"); Opt (Lit "H")].

(** "[:\s]+" *)
Definition colonOrSpaces : regex :=
  Plus (Class (fun c => Ascii.eqb c ":" || isSpace c)).

(** The five patterns of [kwhPatterns], each with the [i] flag. In the
    first, a non-capturing prefix of an optional K, an optional W, an
    optional H, optional spaces, an optional one of [: - =] and optional
    spaces precedes the number group; in the second the number group is
    followed by optional spaces and the same optional K, W, H; the last
    three are "ENERGY[:\s]+", "METER[:\s]+" and "READING[:\s]+" followed
    by the number group. *)
Definition kwhPatterns : list regex :=
  [ Cat (Seq [optKWH; Star space; Opt (oneOf ":-="); Star space]) numberGroup;
    Seq [numberGroup; Star space; optKWH];
    Seq [Word (chars "ENERGY"); colonOrSpaces; numberGroup];
    Seq [Word (chars "METER"); colonOrSpaces; numberGroup];
    Seq [Word (chars "READING"); colonOrSpaces; numberGroup] ].

(** "K?W?H|ENERGY|METER|READING|CONSUMPTION" with the [i] flag. *)
Definition keywordPattern : regex :=
  Or (Seq [Opt (Lit "K"); Opt (Lit "W"); Lit "H"])
    (Or (Word (chars "ENERGY"))
      (Or (Word (chars "METER"))
        (Or (Word (chars "READING")) (Word (chars "CONSUMPTION"))))).

(** The normalisation at the head of [extractReadingFromText]. *)
Definition cleanText (text : string) : string :=
  let t := replaceAll (oneOf (str [ascii_of_nat 10; ascii_of_nat 13; ascii_of_nat 9])) " " text in
  let t := replaceAll (Plus space) " " t in
  let t := trim t in
  let t := toUpperCase t in
  let t := replaceAll (Lit "O") "0" t in
  let t := replaceAll (oneOf "IL") "1" t in
  let t := replaceAll (Lit "S") "5" t in
  let t := replaceAll (Lit "Z") "2" t in
  replaceAll (Lit "B") "8" t.

(** The loop over [kwhPatterns]: the first pattern whose leftmost match
    has an in-range group 1 decides. *)
Fixpoint matchKwhPatterns (patterns : list regex) (clean : string) : option float :=
  match patterns with
  | [] => None
  | pattern :: rest =>
      match exec true pattern clean with
      | Some m =>
          match group1 m with
          | Some g =>
              if negb (String.eqb g "") && isValidReading (parseFloat g)
              then Some (parseFloat g)
              else matchKwhPatterns rest clean
          | None => matchKwhPatterns rest clean
          end
      | None => matchKwhPatterns rest clean
      end
  end.

Definition candidateOf (text : string) (m : MatchResult) : option Candidate.t :=
  let g := match group1 m with Some g => g | None => ""%string end in
  let value := parseFloat g in
  if isValidReading value then
    let start := Nat.max 0 (index m - 20) in
    let end_ := Nat.min (String.length text)
                        (index m + String.length (whole m) + 20) in
    let context := substring text start end_ in
    let confidence := 50%Z in
    let confidence :=
      if test true keywordPattern context then (confidence + 30)%Z else confidence in
    let confidence :=
      if includes g "." then (confidence + 10)%Z else confidence in
    let confidence :=
      if (100 <=? value) && (value <=? 10000) then (confidence + 10)%Z else confidence in
    Some {| Candidate.value := value; Candidate.confidence := confidence;
            Candidate.position := index m; Candidate.context := context |}
  else None.

Definition extractNumberCandidates (text : string) : list Candidate.t :=
  omap (candidateOf text) (execAll false numberPattern text).

(** The comparison function handed to [sort]. *)
Definition compareCandidates (a b : Candidate.t) : float :=
  if negb (Candidate.confidence b =? Candidate.confidence a)%Z then
    Z2float (Candidate.confidence b - Candidate.confidence a)
  else Candidate.value b - Candidate.value a.

(** [Array.prototype.sort(compareFn)]: a stable sort; [x] goes behind [y]
    exactly when [compareFn(x, y) > 0]. *)
Section ArraySort.
Context {A : Type}.
Variable compareFn : A -> A -> float.

Fixpoint insertSorted (x : A) (l : list A) : list A :=
  match l with
  | [] => [x]
  | y :: l' =>
      if 0 <? compareFn x y then y :: insertSorted x l' else x :: l
  end.

Definition Array_sort (l : list A) : list A :=
  fold_right insertSorted [] l.
End ArraySort.

Definition rankCandidates (candidates : list Candidate.t) : list Candidate.t :=
  Array_sort compareCandidates candidates.

Definition extractReadingFromText (text : string) : option float :=
  let clean := cleanText text in
  match matchKwhPatterns kwhPatterns clean with
  | Some num => Some num
  | None =>
      let candidates := extractNumberCandidates clean in
      match candidates with
      | [] => None
      | [c] => Some (Candidate.value c)
      | _ =>
          match rankCandidates candidates with
          | c :: _ => Some (Candidate.value c)
          | [] => None
          end
      end
  end.

(** ** The OCR call and its confidence *)

(** One entry of [textAnnotations]: its [description], and the number of
    [boundingPoly.vertices] when the polygon and its vertices are there. *)
Record Detection : Type := {
  description : option string;
  vertices : option nat
}.

(** What [visionClient.textDetection] does: it rejects (with the message
    of the error when it is an [Error]), or resolves to a result with or
    without [textAnnotations]. *)
Inductive VisionResponse : Type :=
| VisionRejects (message : option string)
| VisionResolves (textAnnotations : option (list Detection)).

Definition orEmpty (s : option string) : string :=
  match s with Some t => t | None => ""%string end.

(** The body of the loop over [detections[1..]]. *)
Definition wordConfidence (detection : Detection) : Z :=
  let text := orEmpty (description detection) in
  let c := 70%Z in
  let c := if test false digit text then (c + 15)%Z else c in
  let c := if test true (Or (Word (chars "kwh"))
                           (Or (Word (chars "energy")) (Word (chars "meter")))) text
           then (c + 10)%Z else c in
  let c := match vertices detection with
           | Some 4%nat => (c + 5)%Z
           | _ => c
           end in
  c.

Definition totalConfidence (words : list Detection) : Z :=
  fold_left (fun total d => (total + wordConfidence d)%Z) words 0%Z.

Definition avgConfidence (words : list Detection) : Q :=
  match words with
  | [] => 70%Q
  | _ => (inject_Z (totalConfidence words) / inject_Z (Z.of_nat (length words)))%Q
  end.

Definition performOCR (response : VisionResponse) : OcrAttempt.t :=
  match response with
  | VisionResolves (None | Some []) =>
      {| OcrAttempt.success := false; OcrAttempt.text := None;
         OcrAttempt.confidence := Some 0%Q;
         OcrAttempt.error := Some "No text detected in image"%string |}
  | VisionResolves (Some (full :: words)) =>
      let fullText := orEmpty (description full) in
      let avg := avgConfidence words in
      if Qltb avg (OCR_CONFIG.MIN_OCR_CONFIDENCE * (1 # 2))%Q then
        {| OcrAttempt.success := false; OcrAttempt.text := Some (trim fullText);
           OcrAttempt.confidence := Some avg;
           OcrAttempt.error := Some "Very low confidence OCR result"%string |}
      else
        {| OcrAttempt.success := true; OcrAttempt.text := Some (trim fullText);
           OcrAttempt.confidence := Some avg;
           OcrAttempt.error := None |}
  | VisionRejects message =>
      let failed (e : string) :=
        {| OcrAttempt.success := false; OcrAttempt.text := None;
           OcrAttempt.confidence := None; OcrAttempt.error := Some e |} in
      match message with
      | Some m =>
          if includes m "PERMISSION_DENIED" then
            failed "Vision API authentication failed. Check credentials."%string
          else if includes m "QUOTA_EXCEEDED" then
            failed "Vision API quota exceeded. Try again later."%string
          else failed ("Vision API error: " +:+ m)
      | None => failed "Vision API error: Unknown"%string
      end
  end.

Definition getRetrySuggestions (confidence : option Q) (rawText : option string)
  : list OCR_CONFIG.Suggestion :=
  let s1 :=
    match confidence with
    | Some c =>
        if Qltb c OCR_CONFIG.LOW_CONFIDENCE_THRESHOLD
        then [OCR_CONFIG.lighting; OCR_CONFIG.focus; OCR_CONFIG.steady] else []
    | None => [OCR_CONFIG.lighting; OCR_CONFIG.focus; OCR_CONFIG.steady]
    end in
  let fewDigits (t : string) :=
    (length (List.filter isDigit (chars t)) <? 3)%nat in
  let s2 :=
    match rawText with
    | Some t =>
        if String.eqb t "" || fewDigits t
        then [OCR_CONFIG.visible; OCR_CONFIG.numbers] else []
    | None => [OCR_CONFIG.visible; OCR_CONFIG.numbers]
    end in
  map OCR_CONFIG.Tip (s1 ++ s2)%list.

(** ** The escalation ladder *)

Inductive Strategy : Set := Standard | Aggressive | AdaptiveThreshold.

(** One rung: the preprocessing of the strategy throws (with the message
    the [catch] of [extractKwhReading] will see), or it succeeds and
    [performOCR] answers on the processed image. *)
Inductive Rung : Type :=
| Throws (message : string)
| Answers (attempt : OcrAttempt.t).

(** Computations of the ladder: the OCR calls issued, in order, and
    either the message of a thrown error or a value. *)
Definition Ladder (A : Type) : Type := list Strategy * (string + A).

Definition ret {A} (a : A) : Ladder A := ([], inr a).

Definition bind {A B} (m : Ladder A) (f : A -> Ladder B) : Ladder B :=
  match m with
  | (calls, inl e) => (calls, inl e)
  | (calls, inr a) => let '(calls', r) := f a in ((calls ++ calls')%list, r)
  end.

Local Notation "'let*' x ':=' m 'in' k" := (bind m (fun x => k))
  (at level 10, x name, m at level 100, k at level 200).

(** [preprocess...(imageBuffer)] followed by [performOCR(processedImage)]. *)
Definition runOCR (rungs : Strategy -> Rung) (s : Strategy) : Ladder OcrAttempt.t :=
  match rungs s with
  | Throws e => ([], inl e)
  | Answers r => ([s], inr r)
  end.

(** [ocrResult.confidence && ocrResult.confidence < MIN_OCR_CONFIDENCE] *)
Definition lowConfidence (ocrResult : OcrAttempt.t) : bool :=
  match OcrAttempt.confidence ocrResult with
  | Some c => negb (Qeq_bool c 0) && Qltb c OCR_CONFIG.MIN_OCR_CONFIDENCE
  | None => false
  end.

(** What [extractKwhReading] does with the attempt it ends up with. *)
Definition evaluate (ocrResult : OcrAttempt.t) : OCRResult.t :=
  let conf := OcrAttempt.confidence ocrResult in
  let text := OcrAttempt.text ocrResult in
  if negb (OcrAttempt.success ocrResult) then
    {| OCRResult.success := false; OCRResult.reading := None;
       OCRResult.confidence := None; OCRResult.rawText := None;
       OCRResult.error :=
         Some (match OcrAttempt.error ocrResult with
               | Some e => if String.eqb e "" then "OCR failed"%string else e
               | None => "OCR failed"%string
               end);
       OCRResult.suggestions := Some (getRetrySuggestions conf text) |}
  else
    match extractReadingFromText (orEmpty text) with
    | None =>
        {| OCRResult.success := false; OCRResult.reading := None;
           OCRResult.confidence := conf; OCRResult.rawText := text;
           OCRResult.error := Some "No valid kWh reading found in image"%string;
           OCRResult.suggestions := Some (getRetrySuggestions conf text) |}
    | Some reading =>
        let validation := validateReading reading in
        if negb (Outcome.valid validation) then
          {| OCRResult.success := false; OCRResult.reading := Some reading;
             OCRResult.confidence := conf; OCRResult.rawText := None;
             OCRResult.error := Outcome.error validation;
             OCRResult.suggestions := Some [OCR_CONFIG.VerifyDisplayVisible] |}
        else
          {| OCRResult.success := true; OCRResult.reading := Some reading;
             OCRResult.confidence := conf; OCRResult.rawText := text;
             OCRResult.error := None; OCRResult.suggestions := None |}
    end.

(** [extractKwhReading], over what each rung does for the submitted
    image; it returns the OCR calls it issued along with its result. *)
Definition extractKwhReading (rungs : Strategy -> Rung)
  : list Strategy * OCRResult.t :=
  let body : Ladder OCRResult.t :=
    let* first := runOCR rungs Standard in
    let* second := (if lowConfidence first
                    then runOCR rungs Aggressive else ret first) in
    let* third := (if lowConfidence second
                   then runOCR rungs AdaptiveThreshold else ret second) in
    ret (evaluate third) in
  match body with
  | (calls, inr result) => (calls, result)
  | (calls, inl message) =>
      (calls,
       {| OCRResult.success := false; OCRResult.reading := None;
          OCRResult.confidence := None; OCRResult.rawText := None;
          OCRResult.error := Some message;
          OCRResult.suggestions := Some (getRetrySuggestions None None) |})
  end.

(** A submitted image, as the external collaborators see it: for each
    strategy, whether its preprocessing throws, and otherwise what the
    text-detection service answers on the processed image. *)
Definition Image : Type := Strategy -> string + VisionResponse.

Definition rungsOf (imageBuffer : Image) (s : Strategy) : Rung :=
  match imageBuffer s with
  | inl e => Throws e
  | inr response => Answers (performOCR response)
  end.

End OcrProcessor.

(* ================================================================== *)
(** * The photo verification service
    ([dist/services/photo-verification.js]) *)
(* ================================================================== *)

Module PhotoResult.
Record t : Type := {
  success : bool;
  reading : option float;
  confidence : option Q;
  message : string;
  shouldRetry : option bool
}.
Definition failure (m : string) (retry : option bool) : t :=
  {| success := false; reading := None; confidence := None;
     message := m; shouldRetry := retry |}.
End PhotoResult.

Module ConsumptionValidation.
Record t : Type := {
  isValid : bool;
  consumption : option float;
  warnings : option (list string);
  error : option string
}.
End ConsumptionValidation.

Module PhotoVerification.
Import JsNumber JsString OcrProcessor.

Inductive Kind : Set := start | end_.
Inductive Provider : Set := vision | manual.

Definition Kind_eqb (a b : Kind) : bool :=
  match a, b with
  | start, start | end_, end_ => true
  | _, _ => false
  end.

Record VerificationState : Type := {
  sessionId : string;
  userWhatsapp : string;
  stationId : Z;
  type : Kind;
  attemptCount : Z;
  lastReading : option float;
  lastConfidence : option Q;
  timestamp : Z;
  ocrProvider : Provider
}.

(** [ocrMetrics], without [averageProcessingTime]. *)
Record OCRMetrics : Type := {
  totalAttempts : Z;
  successfulReads : Z;
  averageConfidence : Q;
  visionAPICallsToday : Z
}.

(** A row of [chargingSessions]: the columns the service reads or writes.
    Times are milliseconds since the epoch. *)
Record SessionRow : Type := {
  startMeterReading : option string;
  startTime : option Z;
  startedAt : option Z;
  createdAt : option Z;
  maxPowerUsed : option float;
  verificationStatus : option string;
  manualEntryUsed : bool
}.

(** What the service sends through [whatsappService], by kind. *)
Inductive Message : Type :=
| StartPhotoRequest (attempt : Z)
| EndPhotoRequest (attempt : Z)
| ReadingConfirmation (reading : float) (kind : Kind) (confidence : Q)
| EndReadingConfirmation (endReading : float) (consumption : option float)
    (confidence : Q) (warnings : option (list string))
| CouldNotReadDisplay (errorMessage : string) (attempt : Z)
| LowReadingConfidence (confidence : Q) (attempt : Z)
| ManualEntryRequired (kind : Kind)
| InvalidReading (error : option string)
| ValidationFailed (error : option string)
| ValidationIssue (error : option string)
| SessionExpired.

(** The service object together with its collaborators: the [states] map
    and [ocrMetrics] of the service, the [chargingSessions] table, the
    messages sent so far (latest last) and the OCR calls issued so far. *)
Record World : Type := {
  states : gmap string VerificationState;
  ocrMetrics : OCRMetrics;
  chargingSessions : gmap string SessionRow;
  outbox : list (string * Message);
  ocrCalls : list Strategy
}.

Definition Service (A : Type) : Type := World -> A * World.

Definition pure {A} (a : A) : Service A := fun w => (a, w).
Definition andThen {A B} (m : Service A) (f : A -> Service B) : Service B :=
  fun w => let '(a, w') := m w in f a w'.

Local Notation "'let*' x ':=' m 'in' k" := (andThen m (fun x => k))
  (at level 10, x name, m at level 100, k at level 200).
Local Notation "m ';;' k" := (andThen m (fun _ => k))
  (at level 100, k at level 200, right associativity).

Definition getState (user : string) : Service (option VerificationState) :=
  fun w => (states w !! user, w).

Definition setState (user : string) (st : VerificationState) : Service unit :=
  fun w => (tt, {| states := <[user := st]> (states w);
                   ocrMetrics := ocrMetrics w;
                   chargingSessions := chargingSessions w;
                   outbox := outbox w; ocrCalls := ocrCalls w |}).

Definition updateMetrics (f : OCRMetrics -> OCRMetrics) : Service unit :=
  fun w => (tt, {| states := states w; ocrMetrics := f (ocrMetrics w);
                   chargingSessions := chargingSessions w;
                   outbox := outbox w; ocrCalls := ocrCalls w |}).

(** [db.update(chargingSessions).set(...).where(eq(sessionId, id))] *)
Definition updateSession (id : string) (f : SessionRow -> SessionRow) : Service unit :=
  fun w => (tt, {| states := states w; ocrMetrics := ocrMetrics w;
                   chargingSessions := alter f id (chargingSessions w);
                   outbox := outbox w; ocrCalls := ocrCalls w |}).

Definition getSession (id : string) : Service (option SessionRow) :=
  fun w => (chargingSessions w !! id, w).

Definition send (user : string) (m : Message) : Service unit :=
  fun w => (tt, {| states := states w; ocrMetrics := ocrMetrics w;
                   chargingSessions := chargingSessions w;
                   outbox := (outbox w ++ [(user, m)])%list;
                   ocrCalls := ocrCalls w |}).

(** [ocrProcessor.extractKwhReading(imageBuffer)], recording its calls. *)
Definition callExtractKwhReading (imageBuffer : Image) : Service OCRResult.t :=
  fun w =>
    let '(calls, result) := extractKwhReading (rungsOf imageBuffer) in
    (result, {| states := states w; ocrMetrics := ocrMetrics w;
                chargingSessions := chargingSessions w;
                outbox := outbox w;
                ocrCalls := (ocrCalls w ++ calls)%list |}).

Definition setStatus (status : string) (row : SessionRow) : SessionRow :=
  {| startMeterReading := startMeterReading row; startTime := startTime row;
     startedAt := startedAt row; createdAt := createdAt row;
     maxPowerUsed := maxPowerUsed row;
     verificationStatus := Some status;
     manualEntryUsed := manualEntryUsed row |}.

Definition setManualEntryUsed (row : SessionRow) : SessionRow :=
  {| startMeterReading := startMeterReading row; startTime := startTime row;
     startedAt := startedAt row; createdAt := createdAt row;
     maxPowerUsed := maxPowerUsed row;
     verificationStatus := verificationStatus row;
     manualEntryUsed := true |}.

Definition newState (user session : string) (station : Z) (kind : Kind) (now : Z)
  : VerificationState :=
  {| sessionId := session; userWhatsapp := user; stationId := station;
     type := kind; attemptCount := 0; lastReading := None;
     lastConfidence := None; timestamp := now; ocrProvider := vision |}.

Definition initiateStartVerification (user session : string) (station now : Z)
  : Service unit :=
  setState user (newState user session station start now) ;;
  updateSession session (setStatus "awaiting_start_photo") ;;
  send user (StartPhotoRequest 0).

(** [initiateEndVerification]; [inl] is the thrown error. *)
Definition initiateEndVerification (user session : string) (station now : Z)
  : Service (string + unit) :=
  let* row := getSession session in
  match row with
  | Some {| startMeterReading := Some r |} =>
      if String.eqb r "" then pure (inl "No start reading found for session"%string)
      else
        setState user (newState user session station end_ now) ;;
        updateSession session (setStatus "awaiting_end_photo") ;;
        send user (EndPhotoRequest 0) ;;
        pure (inr tt)
  | _ => pure (inl "No start reading found for session"%string)
  end.

Definition fallbackToManualEntry (user : string) (state : VerificationState)
  : Service unit :=
  updateSession (sessionId state) setManualEntryUsed ;;
  send user (ManualEntryRequired (type state)).

Definition handleOCRFailure (user : string) (state : VerificationState)
  (error : option string) : Service PhotoResult.t :=
  if OCR_CONFIG.maxAttempts <=? attemptCount state then
    fallbackToManualEntry user state ;;
    pure (PhotoResult.failure "Max attempts reached. Manual entry required." None)
  else
    let errorMessage :=
      match error with
      | Some e =>
          if String.eqb e "" then "Could not read the display"%string
          else if includes e "PERMISSION_DENIED"
          then "Authentication error. Please contact support."%string
          else if includes e "QUOTA_EXCEEDED"
          then "Service temporarily unavailable. Please try again shortly."%string
          else e
      | None => "Could not read the display"%string
      end in
    send user (CouldNotReadDisplay errorMessage (attemptCount state)) ;;
    pure (PhotoResult.failure errorMessage (Some true)).

(** [confidence.toFixed(0)] for a confidence, which is never negative. *)
Definition confidenceToFixed0 (confidence : Q) : string :=
  digitsOf (Qfloor (confidence + (1 # 2))%Q).

Definition handleLowConfidence (user : string) (state : VerificationState)
  (confidence : Q) : Service PhotoResult.t :=
  if OCR_CONFIG.maxAttempts <=? attemptCount state then
    fallbackToManualEntry user state ;;
    pure (PhotoResult.failure "Max attempts reached. Manual entry required." None)
  else
    send user (LowReadingConfidence confidence (attemptCount state)) ;;
    pure (PhotoResult.failure
            ("Low confidence: " +:+ confidenceToFixed0 confidence +:+ "%")
            (Some true)).

Definition firstSome {A} (l : list (option A)) : option A :=
  List.fold_right (fun o acc => match o with Some a => Some a | None => acc end) None l.

(** [session.startTime || session.startedAt || session.createdAt], then
    [Math.floor((Date.now() - sessionStartTime.getTime()) / (1000 * 60))],
    or [0] without a start time. *)
Definition sessionDurationMinutes (row : SessionRow) (now : Z) : float :=
  match firstSome [startTime row; startedAt row; createdAt row] with
  | Some t => Math_floor (Z2float (now - t) / Z2float (1000 * 60))
  | None => 0%float
  end.

(** [session.maxPowerUsed || 50] *)
Definition chargerPowerOf (row : SessionRow) : float :=
  match maxPowerUsed row with
  | Some p => if truthy p then p else 50%float
  | None => 50%float
  end.

(** [session?.startMeterReading], when it is there and not empty. *)
Definition storedStartReading (row : option SessionRow) : option string :=
  match row with
  | Some row =>
      match startMeterReading row with
      | Some stored => if String.eqb stored "" then None else Some stored
      | None => None
      end
  | None => None
  end.

(** [validateConsumption(sessionId, endReading)] at time [now]. *)
Definition validateConsumption (session : string) (endReading : float) (now : Z)
  : Service ConsumptionValidation.t :=
  let* row := getSession session in
  match row, storedStartReading row with
  | Some row, Some stored =>
      let startReading := parseFloat stored in
      let result := calculateConsumption startReading endReading in
      if negb (Outcome.valid result) then
        pure {| ConsumptionValidation.isValid := false;
                ConsumptionValidation.consumption := None;
                ConsumptionValidation.warnings := None;
                ConsumptionValidation.error := Outcome.error result |}
      else
        let durationMinutes := sessionDurationMinutes row now in
        if (durationMinutes <? 1)%float then
          pure {| ConsumptionValidation.isValid := true;
                  ConsumptionValidation.consumption := Outcome.consumption result;
                  ConsumptionValidation.warnings :=
                    Some ["Duration too short for validation - using reading only"%string];
                  ConsumptionValidation.error := None |}
        else
          let chargerPowerKw := chargerPowerOf row in
          let consumed :=
            match Outcome.consumption result with
            | Some c => c
            | None => PrimFloat.nan
            end in
          let contextValidation :=
            validateConsumptionWithContext consumed durationMinutes
              chargerPowerKw None in
          pure {| ConsumptionValidation.isValid := Outcome.valid contextValidation;
                  ConsumptionValidation.consumption := Outcome.consumption result;
                  ConsumptionValidation.warnings := Outcome.warnings contextValidation;
                  ConsumptionValidation.error := Outcome.error contextValidation |}
  | _, _ =>
      pure {| ConsumptionValidation.isValid := false;
              ConsumptionValidation.consumption := None;
              ConsumptionValidation.warnings := None;
              ConsumptionValidation.error := Some "Start reading not found"%string |}
  end.

Definition bumpAttempt (state : VerificationState) : VerificationState :=
  {| sessionId := sessionId state; userWhatsapp := userWhatsapp state;
     stationId := stationId state; type := type state;
     attemptCount := attemptCount state + 1;
     lastReading := lastReading state; lastConfidence := lastConfidence state;
     timestamp := timestamp state; ocrProvider := ocrProvider state |}.

Definition withReading (state : VerificationState) (reading : float)
  (confidence : Q) (provider : Provider) : VerificationState :=
  {| sessionId := sessionId state; userWhatsapp := userWhatsapp state;
     stationId := stationId state; type := type state;
     attemptCount := attemptCount state;
     lastReading := Some reading; lastConfidence := Some confidence;
     timestamp := timestamp state; ocrProvider := provider |}.

Definition countAttempt (m : OCRMetrics) : OCRMetrics :=
  {| totalAttempts := totalAttempts m + 1;
     successfulReads := successfulReads m;
     averageConfidence := averageConfidence m;
     visionAPICallsToday := visionAPICallsToday m + 1 |}.

Definition countSuccess (confidence : Q) (m : OCRMetrics) : OCRMetrics :=
  {| totalAttempts := totalAttempts m;
     successfulReads := successfulReads m + 1;
     averageConfidence := ((averageConfidence m + confidence) / 2)%Q;
     visionAPICallsToday := visionAPICallsToday m |}.

(** [!ocrResult.success || !ocrResult.reading] *)
Definition usableReading (ocrResult : OCRResult.t) : option float :=
  if OCRResult.success ocrResult then
    match OCRResult.reading ocrResult with
    | Some r => if truthy r then Some r else None
    | None => None
    end
  else None.

(** [ocrResult.confidence || 0] *)
Definition confidenceOrZero (ocrResult : OCRResult.t) : Q :=
  match OCRResult.confidence ocrResult with
  | Some c => c
  | None => 0%Q
  end.

Definition handleStartPhoto (user : string) (imageBuffer : Image)
  : Service PhotoResult.t :=
  let* found := getState user in
  match found with
  | Some state0 =>
      if negb (Kind_eqb (type state0) start) then
        pure (PhotoResult.failure "❌ Not expecting a start photo right now." None)
      else
        let state := bumpAttempt state0 in
        setState user state ;;
        updateMetrics countAttempt ;;
        let* ocrResult := callExtractKwhReading imageBuffer in
        match usableReading ocrResult with
        | None => handleOCRFailure user state (OCRResult.error ocrResult)
        | Some reading =>
            let confidence := confidenceOrZero ocrResult in
            if Qltb confidence OCR_CONFIG.MIN_OCR_CONFIDENCE then
              handleLowConfidence user state confidence
            else
              updateMetrics (countSuccess confidence) ;;
              setState user (withReading state reading confidence (ocrProvider state)) ;;
              send user (ReadingConfirmation reading start confidence) ;;
              pure {| PhotoResult.success := true;
                      PhotoResult.reading := Some reading;
                      PhotoResult.confidence := Some confidence;
                      PhotoResult.message := "Reading detected. Awaiting confirmation.";
                      PhotoResult.shouldRetry := None |}
        end
  | None =>
      pure (PhotoResult.failure "❌ Not expecting a start photo right now." None)
  end.

Definition handleEndPhoto (user : string) (imageBuffer : Image) (now : Z)
  : Service PhotoResult.t :=
  let* found := getState user in
  match found with
  | Some state0 =>
      if negb (Kind_eqb (type state0) end_) then
        pure (PhotoResult.failure "❌ Not expecting an end photo right now." None)
      else
        let state := bumpAttempt state0 in
        setState user state ;;
        updateMetrics countAttempt ;;
        let* ocrResult := callExtractKwhReading imageBuffer in
        match usableReading ocrResult with
        | None => handleOCRFailure user state (OCRResult.error ocrResult)
        | Some reading =>
            let confidence := confidenceOrZero ocrResult in
            if Qltb confidence OCR_CONFIG.MIN_OCR_CONFIDENCE then
              handleLowConfidence user state confidence
            else
              let* validation := validateConsumption (sessionId state) reading now in
              if negb (ConsumptionValidation.isValid validation) then
                send user (ValidationIssue (ConsumptionValidation.error validation)) ;;
                pure (PhotoResult.failure
                        (match ConsumptionValidation.error validation with
                         | Some e => if String.eqb e "" then "Validation failed"%string else e
                         | None => "Validation failed"%string
                         end)
                        (Some true))
              else
                updateMetrics (countSuccess confidence) ;;
                setState user (withReading state reading confidence (ocrProvider state)) ;;
                send user (EndReadingConfirmation reading
                             (ConsumptionValidation.consumption validation)
                             confidence
                             (ConsumptionValidation.warnings validation)) ;;
                pure {| PhotoResult.success := true;
                        PhotoResult.reading := Some reading;
                        PhotoResult.confidence := Some confidence;
                        PhotoResult.message := "End reading detected. Awaiting confirmation.";
                        PhotoResult.shouldRetry := None |}
        end
  | None =>
      pure (PhotoResult.failure "❌ Not expecting an end photo right now." None)
  end.

Definition handleManualEntry (user : string) (input : string) (now : Z)
  : Service bool :=
  let* found := getState user in
  match found with
  | None => pure false
  | Some state =>
      let reading := parseFloat (trim input) in
      let validation := validateReading reading in
      if negb (Outcome.valid validation) then
        send user (InvalidReading (Outcome.error validation)) ;;
        pure false
      else
        let* rejected :=
          match type state with
          | end_ =>
              let* consumptionValidation :=
                validateConsumption (sessionId state) reading now in
              if negb (ConsumptionValidation.isValid consumptionValidation) then
                send user (ValidationFailed
                             (ConsumptionValidation.error consumptionValidation)) ;;
                pure true
              else pure false
          | start => pure false
          end in
        if (rejected : bool) then pure false
        else
          setState user (withReading state reading 0 manual) ;;
          send user (ReadingConfirmation reading (type state) 0) ;;
          pure true
  end.

Definition retakeStartPhoto (user : string) : Service unit :=
  let* found := getState user in
  match found with
  | None => send user SessionExpired
  | Some state =>
      if OCR_CONFIG.maxAttempts <=? attemptCount state
      then fallbackToManualEntry user state
      else send user (StartPhotoRequest (attemptCount state))
  end.

End PhotoVerification.

(* ================================================================== *)
(** * Confidence levels
    ([dist/config/ocr-config.js], [dist/utils/ocr-processor.js]) *)
(* ================================================================== *)

Module Confidence.
Import JsNumber.

(** [isGoodConfidence] on a confidence that the service holds: an exact
    rational (see [avgConfidence]), or the [0] that stands in for an absent
    one. *)
Definition GOOD_CONFIDENCE : Q := 85%Q.

Definition isGoodConfidence (confidence : Q) : bool :=
  Qle_bool GOOD_CONFIDENCE confidence.

(** [formatReading] of the processor. *)
Definition formatReading (reading : float) : string :=
  Number_toFixed reading 1 +:+ " kWh".

End Confidence.

(** The functions that classify a confidence, on every number they can be
    called with: NaN and the infinities included (a comparison with NaN is
    false). *)
Module ConfidenceLevels.
Import JsNumber.
Local Open Scope float_scope.

Definition MIN_DISPLAY_CONFIDENCE : float := 70.
Definition GOOD_CONFIDENCE : float := 85.

Inductive Level : Set := high | medium | low.

(** [getConfidenceLevel] of the configuration. *)
Definition getConfidenceLevel (confidence : float) : Level :=
  if GOOD_CONFIDENCE <=? confidence then high
  else if MIN_DISPLAY_CONFIDENCE <=? confidence then medium
  else low.

(** [getConfidenceMessage]: the entry of [MESSAGES.SUCCESS] for the level. *)
Definition getConfidenceMessage (confidence : float) : string :=
  match getConfidenceLevel confidence with
  | low => "⚠️ Reading captured but quality is low"
  | medium => "✅ Reading captured (please verify accuracy)"
  | high => "✅ Reading captured successfully!"
  end.

(** [shouldWarnLowConfidence] and [isGoodConfidence] of the processor. *)
Definition shouldWarnLowConfidence (confidence : float) : bool :=
  confidence <? MIN_DISPLAY_CONFIDENCE.

Definition isGoodConfidence (confidence : float) : bool :=
  GOOD_CONFIDENCE <=? confidence.

(** The confidence line of the two confirmation messages. *)
Inductive Indicator : Set :=
| HighConfidence | LowConfidence | PlainConfidence | ManualEntryNote.

(** [sendReadingConfirmation]: the choice of [confidenceIndicator]. *)
Definition readingIndicator (confidence : float) : Indicator :=
  if 0 <? confidence then
    if isGoodConfidence confidence then HighConfidence
    else if shouldWarnLowConfidence confidence then LowConfidence
    else PlainConfidence
  else ManualEntryNote.

(** [sendEndReadingConfirmation]: the choice of [confidenceIndicator]. *)
Definition endReadingIndicator (confidence : float) : Indicator :=
  if isGoodConfidence confidence then HighConfidence
  else if shouldWarnLowConfidence confidence then LowConfidence
  else PlainConfidence.

End ConfidenceLevels.

(* ================================================================== *)
(** * The rest of the photo verification service
    ([dist/services/photo-verification.js]) *)
(* ================================================================== *)

Module VerificationFlow.
Import JsNumber JsString OcrProcessor PhotoVerification.

Local Notation "'let*' x ':=' m 'in' k" := (andThen m (fun x => k))
  (at level 10, x name, m at level 100, k at level 200).
Local Notation "m ';;' k" := (andThen m (fun _ => k))
  (at level 100, k at level 200, right associativity).

Definition STATE_EXPIRY_MS : Z := 30 * 60 * 1000.

(** [this.states.delete(userWhatsapp)] *)
Definition deleteState (user : string) : Service unit :=
  fun w => (tt, {| states := delete user (states w);
                   ocrMetrics := ocrMetrics w;
                   chargingSessions := chargingSessions w;
                   outbox := outbox w; ocrCalls := ocrCalls w |}).

Definition cleanupState (user : string) : Service unit := deleteState user.

Definition clearVerificationState (user : string) : Service unit := deleteState user.

(** [this.states.get(userWhatsapp) || null] *)
Definition getVerificationState (user : string) : Service (option VerificationState) :=
  getState user.

(** [Date.now() - state.timestamp.getTime() > STATE_EXPIRY_MS] *)
Definition isExpiredAt (now : Z) (state : VerificationState) : bool :=
  STATE_EXPIRY_MS <? now - timestamp state.

(** [isInVerificationFlow] at time [now]. *)
Definition isInVerificationFlow (user : string) (now : Z) : Service bool :=
  let* found := getState user in
  match found with
  | None => pure false
  | Some state =>
      if isExpiredAt now state then deleteState user ;; pure false
      else pure true
  end.

(** [cleanupExpiredStates] at time [now]: the loop over the entries of
    [states], deleting the expired ones from the map it walks. *)
Definition cleanupExpiredStates (now : Z) : Service unit :=
  fun w =>
    (tt, {| states :=
              map_fold (fun whatsappId state remaining =>
                          if isExpiredAt now state
                          then delete whatsappId remaining else remaining)
                       (states w) (states w);
            ocrMetrics := ocrMetrics w;
            chargingSessions := chargingSessions w;
            outbox := outbox w; ocrCalls := ocrCalls w |}).

Definition getOCRMetrics : Service OCRMetrics :=
  fun w => (ocrMetrics w, w).

Definition resetDailyAPICounter : Service unit :=
  updateMetrics (fun m =>
    {| totalAttempts := totalAttempts m;
       successfulReads := successfulReads m;
       averageConfidence := averageConfidence m;
       visionAPICallsToday := 0 |}).

Record DebugInfo : Type := {
  debugSessionId : string;
  debugType : Kind;
  debugAttemptCount : Z;
  debugLastReading : option float;
  debugLastConfidence : option Q;
  debugOcrProvider : Provider;
  timeSinceStart : Z;
  isExpired : bool
}.

(** [getDebugInfo] at time [now]. *)
Definition getDebugInfo (user : string) (now : Z) : Service (option DebugInfo) :=
  let* found := getState user in
  match found with
  | None => pure None
  | Some state =>
      pure (Some {| debugSessionId := sessionId state;
                    debugType := type state;
                    debugAttemptCount := attemptCount state;
                    debugLastReading := lastReading state;
                    debugLastConfidence := lastConfidence state;
                    debugOcrProvider := ocrProvider state;
                    timeSinceStart := now - timestamp state;
                    isExpired := STATE_EXPIRY_MS <? now - timestamp state |})
  end.

Definition retakeEndPhoto (user : string) : Service unit :=
  let* found := getState user in
  match found with
  | None => send user SessionExpired
  | Some state =>
      if OCR_CONFIG.maxAttempts <=? attemptCount state
      then fallbackToManualEntry user state
      else send user (EndPhotoRequest (attemptCount state))
  end.

(** The buttons under the two confirmation messages, by their ids. *)
Definition typeName (type : Kind) : string :=
  match type with start => "start" | end_ => "end" end.

(** [sendReadingConfirmation]: [confirm_${type}_reading] and
    [retake_${type}_photo]. *)
Definition readingConfirmationButtons (type : Kind) : list string :=
  ["confirm_" +:+ typeName type +:+ "_reading";
   "retake_" +:+ typeName type +:+ "_photo"].

(** [sendEndReadingConfirmation] *)
Definition endReadingConfirmationButtons : list string :=
  ["confirm_end_reading"; "retake_end_photo"]%string.

(** The button ids that go out with a message of the service. *)
Definition buttonsOf (m : Message) : list string :=
  match m with
  | ReadingConfirmation _ type _ => readingConfirmationButtons type
  | EndReadingConfirmation _ _ _ _ => endReadingConfirmationButtons
  | _ => []
  end.

End VerificationFlow.

(* ================================================================== *)
(** * Confirmation of a reading
    ([confirmStartReading] and [confirmEndReading]) *)
(* ================================================================== *)

Module Confirmation.
Import JsNumber JsString OcrProcessor PhotoVerification VerificationFlow.

(** Messages that are sent outside the photo handlers. *)
Inductive Notice : Type :=
| NoReadingToConfirm
| SessionNotFound
| ChargingStarted (formatted : string) (highAccuracy : bool)
    (confidence : option string)
| ErrorStartingCharging
| FailedToDownloadImage
| ManualEntryPrompt
| ActionFailed
| UnsupportedMessageType.

(** What a confirmation does besides changing the service: the row update
    it issues, with the columns of its [set] clause, the call it makes to
    [sessionService], the message it sends. *)
Inductive Event : Type :=
| StartVerified (session : string) (startMeterReading : string)
    (startReadingConfidence : option string) (startVerificationAttempts : Z)
| StartChargingAfterVerification (session : string) (startMeterReading : float)
| EndVerified (session : string) (endMeterReading : string)
    (endReadingConfidence : option string) (endVerificationAttempts : Z)
    (energyDelivered : string)
| CompleteSessionAfterVerification (session : string) (endMeterReading : float)
    (consumption : float)
| Notified (user : string) (notice : Notice).

(** The service with the trace of these events, latest last. *)
Record Backend : Type := {
  world : World;
  events : list Event
}.

Definition Flow (A : Type) : Type := Backend -> A * Backend.

Definition done {A} (a : A) : Flow A := fun b => (a, b).
Definition next {A B} (m : Flow A) (f : A -> Flow B) : Flow B :=
  fun b => let '(a, b') := m b in f a b'.

Local Notation "'let*' x ':=' m 'in' k" := (next m (fun x => k))
  (at level 10, x name, m at level 100, k at level 200).
Local Notation "m ';;' k" := (next m (fun _ => k))
  (at level 100, k at level 200, right associativity).

(** An operation of the service, run on the service part. *)
Definition lift {A} (m : Service A) : Flow A :=
  fun b => let '(a, w) := m (world b) in (a, {| world := w; events := events b |}).

Definition record (e : Event) : Flow unit :=
  fun b => (tt, {| world := world b; events := (events b ++ [e])%list |}).

Definition notify (user : string) (n : Notice) : Flow unit :=
  record (Notified user n).

(** [state.lastReading], when it is there and truthy. *)
Definition heldReading (state : VerificationState) : option float :=
  match lastReading state with
  | Some r => if truthy r then Some r else None
  | None => None
  end.

(** [state.lastConfidence?.toString()] *)
Definition confidenceText (state : VerificationState) : option string :=
  option_map (fun c => Number_toString (Q2float c)) (lastConfidence state).

(** The columns of the row that the [set] clause of [confirmStartReading]
    writes and [SessionRow] has. *)
Definition setStartVerified (reading : string) (row : SessionRow) : SessionRow :=
  {| startMeterReading := Some reading; startTime := startTime row;
     startedAt := startedAt row; createdAt := createdAt row;
     maxPowerUsed := maxPowerUsed row;
     verificationStatus := Some "start_verified"%string;
     manualEntryUsed := manualEntryUsed row |}.

(** [confirmStartReading]; [chargingStarts] tells whether
    [sessionService.startChargingAfterVerification] returns (or throws). *)
Definition confirmStartReading (user : string) (chargingStarts : bool) : Flow bool :=
  let* found := lift (getState user) in
  match found with
  | Some state =>
      match type state, heldReading state with
      | start, Some reading =>
          let* session := lift (getSession (sessionId state)) in
          match session with
          | None =>
              notify user SessionNotFound ;;
              lift (deleteState user) ;;
              done false
          | Some _ =>
              lift (updateSession (sessionId state)
                      (setStartVerified (Number_toString reading))) ;;
              record (StartVerified (sessionId state) (Number_toString reading)
                        (confidenceText state) (attemptCount state)) ;;
              record (StartChargingAfterVerification (sessionId state) reading) ;;
              if chargingStarts then
                notify user
                  (ChargingStarted (Confidence.formatReading reading)
                     (Confidence.isGoodConfidence
                        (match lastConfidence state with Some c => c | None => 0%Q end))
                     (option_map confidenceToFixed0 (lastConfidence state))) ;;
                lift (deleteState user) ;;
                done true
              else
                notify user ErrorStartingCharging ;;
                done false
          end
      | _, _ => notify user NoReadingToConfirm ;; done false
      end
  | None => notify user NoReadingToConfirm ;; done false
  end.

(** How an [async] call ends. *)
Inductive Settled (A : Type) : Type :=
| Resolved (a : A)
| Rejected.
Arguments Resolved {A} a.
Arguments Rejected {A}.

(** [confirmEndReading]; [completes] tells whether
    [sessionService.completeSessionAfterVerification] returns (or throws,
    which [confirmEndReading] does not catch). *)
Definition confirmEndReading (user : string) (completes : bool)
  : Flow (Settled bool) :=
  let* found := lift (getState user) in
  match found with
  | Some state =>
      match type state, heldReading state with
      | end_, Some reading =>
          let* session := lift (getSession (sessionId state)) in
          match storedStartReading session with
          | None => done (Resolved false)
          | Some stored =>
              let startReading := parseFloat stored in
              let consumption := (reading - startReading)%float in
              lift (updateSession (sessionId state) (setStatus "completed")) ;;
              record (EndVerified (sessionId state) (Number_toString reading)
                        (confidenceText state) (attemptCount state)
                        (Number_toString consumption)) ;;
              record (CompleteSessionAfterVerification (sessionId state)
                        reading consumption) ;;
              if completes then
                lift (deleteState user) ;;
                done (Resolved true)
              else done Rejected
          end
      | _, _ => notify user NoReadingToConfirm ;; done (Resolved false)
      end
  | None => notify user NoReadingToConfirm ;; done (Resolved false)
  end.

End Confirmation.

(* ================================================================== *)
(** * Message deduplication
    ([utils/message-deduplication.js]) *)
(* ================================================================== *)

Module MessageDeduplication.

Definition TTL : Z := 5 * 60 * 1000.
Definition CLEANUP_INTERVAL : Z := 60 * 1000.

(** [processedMessages] maps a message id to the time it was recorded:
    a [gmap string Z]. *)

(** [isDuplicate(messageId)] at time [now]; a recorded time of 0 is
    falsy and counts as no record. *)
Definition isDuplicate (messageId : string) (now : Z) (processedMessages : gmap string Z)
  : bool * gmap string Z :=
  match processedMessages !! messageId with
  | Some timestamp =>
      if timestamp =? 0 then (false, <[messageId := now]> processedMessages)
      else if now - timestamp <? TTL then (true, processedMessages)
      else (false, <[messageId := now]> (delete messageId processedMessages))
  | None => (false, <[messageId := now]> processedMessages)
  end.

(** [cleanup()] at time [now]. *)
Definition cleanup (now : Z) (processedMessages : gmap string Z) : gmap string Z :=
  map_fold (fun messageId timestamp remaining =>
              if TTL <? now - timestamp then delete messageId remaining
              else remaining)
           processedMessages processedMessages.

Record Stats : Type := {
  trackedMessages : nat;
  ttlMs : Z;
  cleanupIntervalMs : Z
}.

Definition getStats (processedMessages : gmap string Z) : Stats :=
  {| trackedMessages := size processedMessages;
     ttlMs := TTL; cleanupIntervalMs := CLEANUP_INTERVAL |}.

(** [clear(messageId?)]: an absent or empty id clears everything. *)
Definition clear (messageId : option string) (processedMessages : gmap string Z)
  : gmap string Z :=
  match messageId with
  | Some id => if String.eqb id "" then ∅ else delete id processedMessages
  | None => ∅
  end.

Definition destroy (processedMessages : gmap string Z) : gmap string Z := ∅.

End MessageDeduplication.

(* ================================================================== *)
(** * The webhook controller, as far as it serves the verification
    ([dist/controllers/webhook.js]) *)
(* ================================================================== *)

Module Webhook.
Import JsNumber JsString OcrProcessor PhotoVerification VerificationFlow
  Confirmation.

Local Notation "'let*' x ':=' m 'in' k" := (next m (fun x => k))
  (at level 10, x name, m at level 100, k at level 200).
Local Notation "m ';;' k" := (next m (fun _ => k))
  (at level 100, k at level 200, right associativity).

(** ** The payload and its messages *)

(** What an incoming message carries: [image] with what its download
    yields ([None] when it fails), [text] with its body when there is
    one, an interactive reply with the id of the button or list row
    pressed, a location, or something else. *)
Inductive Content : Type :=
| image (downloaded : option Image)
| text (body : option string)
| button_reply (id : string)
| list_reply (id : string)
| location
| other.

Record WaMessage : Type := {
  id : string;
  from : string;
  content : Content
}.

(** [change.field] and [change.value?.messages] when it is an array. *)
Record Change : Type := {
  field : string;
  messages : option (list WaMessage)
}.

Record Entry : Type := { changes : option (list Change) }.

Record WebhookData : Type := {
  object : string;
  entry : option (list Entry)
}.

Definition orNil {A} (l : option (list A)) : list A :=
  match l with Some l => l | None => [] end.

Definition extractMessages (webhookData : WebhookData) : list WaMessage :=
  flat_map (fun e =>
    flat_map (fun change =>
      if String.eqb (field change) "messages"
      then orNil (messages change) else [])
      (orNil (changes e)))
    (orNil (entry webhookData)).

(** The loop of [handleWebhook] over the extracted messages: the ones it
    hands to [processMessage], in order; [clock i] is the time read when
    the message at position [i] is looked up. *)
Fixpoint dispatchFrom (clock : nat -> Z) (i : nat) (allMessages : list WaMessage)
  (processed : gmap string Z)
  : list WaMessage * gmap string Z :=
  match allMessages with
  | [] => ([], processed)
  | message :: rest =>
      let '(duplicate, processed') :=
        MessageDeduplication.isDuplicate (id message) (clock i) processed in
      let '(dispatched, final) := dispatchFrom clock (S i) rest processed' in
      (if duplicate then dispatched else message :: dispatched, final)
  end.

(** [handleWebhook]: the messages dispatched for a payload. *)
Definition handleWebhook (clock : nat -> Z) (webhookData : WebhookData)
  (processed : gmap string Z)
  : list WaMessage * gmap string Z :=
  if negb (String.eqb (object webhookData) "whatsapp_business_account")
  then ([], processed)
  else dispatchFrom clock 0 (extractMessages webhookData) processed.

(** ** Routing *)

(** Where a message goes when it is not one for the verification: the
    handlers of the other controllers. *)
Inductive Elsewhere : Type :=
| handleTextMessage (body : string)
| handleButtonElsewhere (id : string)
| handleListMessage (id : string)
| handleLocationMessage.

Inductive Routed : Type :=
| Verification
| Forwarded (to : Elsewhere)
| Unsupported.

Definition isVerificationButton (buttonId : string) : bool :=
  existsb (String.eqb buttonId)
    ["confirm_start_reading"; "confirm_end_reading"; "retake_start_photo";
     "retake_end_photo"; "manual_entry"]%string.

(** [handleVerificationPhoto]; the state is the one [routeMessage] found. *)
Definition handleVerificationPhoto (whatsappId : string)
  (downloaded : option Image) (state : VerificationState) (now : Z) : Flow unit :=
  match downloaded with
  | None => notify whatsappId FailedToDownloadImage
  | Some imageBuffer =>
      match type state with
      | start => lift (handleStartPhoto whatsappId imageBuffer) ;; done tt
      | end_ => lift (handleEndPhoto whatsappId imageBuffer now) ;; done tt
      end
  end.

Definition handleManualVerificationEntry (whatsappId : string) (body : string)
  (now : Z) : Flow unit :=
  lift (handleManualEntry whatsappId (trim body) now) ;; done tt.

(** [handleVerificationButtons]: the handler that the table holds for
    the id, and the [catch] around its run. The function is only called
    with an id that passed [isVerificationButton]; the table has a handler
    of its own for each of them. *)
Definition handleVerificationButtons (whatsappId : string) (buttonId : string)
  (collaborates : bool) : Flow unit :=
  if String.eqb buttonId "confirm_start_reading" then
    confirmStartReading whatsappId collaborates ;; done tt
  else if String.eqb buttonId "confirm_end_reading" then
    let* settled := confirmEndReading whatsappId collaborates in
    match settled with
    | Resolved _ => done tt
    | Rejected => notify whatsappId ActionFailed
    end
  else if String.eqb buttonId "retake_start_photo" then
    lift (retakeStartPhoto whatsappId)
  else if String.eqb buttonId "retake_end_photo" then
    lift (retakeEndPhoto whatsappId)
  else if String.eqb buttonId "manual_entry" then
    notify whatsappId ManualEntryPrompt
  else done tt.

(** [handleButtonMessage], up to the point where the other controllers
    take over. *)
Definition handleButtonMessage (whatsappId : string) (buttonId : string)
  (collaborates : bool) (now : Z) : Flow Routed :=
  let* inFlow := lift (isInVerificationFlow whatsappId now) in
  if inFlow && isVerificationButton buttonId then
    handleVerificationButtons whatsappId buttonId collaborates ;;
    done Verification
  else done (Forwarded (handleButtonElsewhere buttonId)).

(** [routeMessage] *)
Definition routeMessage (message : WaMessage) (collaborates : bool) (now : Z)
  : Flow Routed :=
  let whatsappId := from message in
  let* verificationState := lift (getVerificationState whatsappId) in
  let otherwise : Flow Routed :=
    match content message with
    | text body => done (Forwarded (handleTextMessage (orEmpty body)))
    | button_reply buttonId =>
        handleButtonMessage whatsappId buttonId collaborates now
    | list_reply listId => done (Forwarded (handleListMessage listId))
    | location => done (Forwarded handleLocationMessage)
    | image _ | other =>
        notify whatsappId UnsupportedMessageType ;; done Unsupported
    end in
  match verificationState, content message with
  | Some state, image downloaded =>
      handleVerificationPhoto whatsappId downloaded state now ;;
      done Verification
  | Some state, text body =>
      handleManualVerificationEntry whatsappId (orEmpty body) now ;;
      done Verification
  | _, _ => otherwise
  end.

End Webhook.

(* ================================================================== *)
(** * Vocabulary of the statements *)
(* ================================================================== *)

(** ** Signs and finiteness of binary64 values *)

Definition emin64 : Z := SpecFloat.emin prec emax.

Definition SFsgn (r : spec_float) : option Z :=
  match r with
  | S754_zero _ => Some 0
  | S754_infinity s | S754_finite s _ _ => Some (if s then -1 else 1)
  | S754_nan => None
  end.

Definition sgnOfComparison (c : comparison) : Z :=
  match c with Lt => -1 | Eq => 0 | Gt => 1 end.

Definition SFfinite (a : spec_float) : Prop :=
  match a with S754_zero _ | S754_finite _ _ _ => True | _ => False end.

(** ** Outcomes *)

(** The warnings of an outcome, none when the field is left out. *)
Definition warningsOf (o : Outcome.t) : list string :=
  match Outcome.warnings o with
  | Some l => l
  | None => []
  end.

(** ** The extraction stages *)

(** The anchors the specification names for the pattern stage. *)
Definition anchorKeywords : list string :=
  ["KWH"; "ENERGY:"; "METER:"; "READING:"]%string.

(** A normalised text mentions one of the anchors. *)
Definition mentionsAnchor (clean : string) : bool :=
  existsb (JsString.includes clean) anchorKeywords.

(** The pattern stage of [extractReadingFromText] on a raw text. *)
Definition patternStage (text : string) : option float :=
  OcrProcessor.matchKwhPatterns OcrProcessor.kwhPatterns (OcrProcessor.cleanText text).

(** ** OCR attempts and images used in examples *)

(** A successful attempt that read [text] with confidence [c]. *)
Definition attemptWith (text : string) (c : Q) : OcrAttempt.t :=
  {| OcrAttempt.success := true; OcrAttempt.text := Some text;
     OcrAttempt.confidence := Some c; OcrAttempt.error := None |}.

(** The rungs of the confidence sequence 55, 58, 59. *)
Definition rungs_55_58_59 (s : OcrProcessor.Strategy) : OcrProcessor.Rung :=
  OcrProcessor.Answers
    (attemptWith "METER: 1245.8 KWH"
       match s with
       | OcrProcessor.Standard => 55%Q
       | OcrProcessor.Aggressive => 58%Q
       | OcrProcessor.AdaptiveThreshold => 59%Q
       end).

Definition word (s : string) : OcrProcessor.Detection :=
  {| OcrProcessor.description := Some s; OcrProcessor.vertices := Some 4%nat |}.

(** An image in which the service detects no text under the standard
    preprocessing, and a clear display under the other two. *)
Definition blankThenClear : OcrProcessor.Image :=
  fun s =>
    match s with
    | OcrProcessor.Standard => inr (OcrProcessor.VisionResolves None)
    | _ => inr (OcrProcessor.VisionResolves
                  (Some [word "METER: 1245.8 KWH"; word "METER:"; word "1245.8"; word "KWH"]))
    end.

(** An image of a clear display, whatever the preprocessing. *)
Definition clearImage : OcrProcessor.Image :=
  fun _ => inr (OcrProcessor.VisionResolves
                  (Some [word "METER: 1245.8 KWH"; word "METER:"; word "1245.8"; word "KWH"])).

(** An image without any text, whatever the preprocessing. *)
Definition blankImage : OcrProcessor.Image :=
  fun _ => inr (OcrProcessor.VisionResolves (Some [])).

(** ** The verification workflow *)

(** An extraction result that the photo handlers turn down: no usable
    reading, or a confidence below the acceptance threshold. *)
Definition attemptRejected (ocrResult : OCRResult.t) : bool :=
  match PhotoVerification.usableReading ocrResult with
  | None => true
  | Some _ =>
      JsNumber.Qltb (PhotoVerification.confidenceOrZero ocrResult)
        OCR_CONFIG.MIN_OCR_CONFIDENCE
  end.

(** The attempt count recorded for a user, if any. *)
Definition attemptsOf (w : PhotoVerification.World) (user : string) : option Z :=
  PhotoVerification.attemptCount <$> PhotoVerification.states w !! user.

(** A service that has just been started, with one charging session
    [s1] in the table. *)
Definition freshWorld : PhotoVerification.World :=
  {| PhotoVerification.states := ∅;
     PhotoVerification.ocrMetrics :=
       {| PhotoVerification.totalAttempts := 0;
          PhotoVerification.successfulReads := 0;
          PhotoVerification.averageConfidence := 0;
          PhotoVerification.visionAPICallsToday := 0 |};
     PhotoVerification.chargingSessions :=
       {[ "s1"%string :=
            {| PhotoVerification.startMeterReading := None;
               PhotoVerification.startTime := None;
               PhotoVerification.startedAt := None;
               PhotoVerification.createdAt := Some 0;
               PhotoVerification.maxPowerUsed := None;
               PhotoVerification.verificationStatus := None;
               PhotoVerification.manualEntryUsed := false |} ]};
     PhotoVerification.outbox := [];
     PhotoVerification.ocrCalls := [] |}.

(** User [u1] has been asked for the start photo of session [s1]. *)
Definition awaitingStartPhoto : PhotoVerification.World :=
  snd (PhotoVerification.initiateStartVerification "u1" "s1" 7 1000 freshWorld).

(** ... and has then sent three photos without any text. *)
Definition afterThreeBlankPhotos : PhotoVerification.World :=
  let w1 := snd (PhotoVerification.handleStartPhoto "u1" blankImage awaitingStartPhoto) in
  let w2 := snd (PhotoVerification.handleStartPhoto "u1" blankImage w1) in
  snd (PhotoVerification.handleStartPhoto "u1" blankImage w2).

(** The world once a photo of the expected kind has been counted and handed
    to the extraction pipeline: the attempt is recorded and the OCR calls
    of the pipeline have been issued. *)
Definition photoCounted (user : string) (state : PhotoVerification.VerificationState)
  (imageBuffer : OcrProcessor.Image) (w : PhotoVerification.World)
  : PhotoVerification.World :=
  {| PhotoVerification.states :=
       <[user := PhotoVerification.bumpAttempt state]> (PhotoVerification.states w);
     PhotoVerification.ocrMetrics :=
       PhotoVerification.countAttempt (PhotoVerification.ocrMetrics w);
     PhotoVerification.chargingSessions := PhotoVerification.chargingSessions w;
     PhotoVerification.outbox := PhotoVerification.outbox w;
     PhotoVerification.ocrCalls :=
       (PhotoVerification.ocrCalls w
        ++ fst (OcrProcessor.extractKwhReading (OcrProcessor.rungsOf imageBuffer)))%list |}.

(** The result that sends the user to manual entry. *)
Definition manualEntryResult : PhotoResult.t :=
  PhotoResult.failure "Max attempts reached. Manual entry required." None.

(** The state of [u1] in [afterThreeBlankPhotos]. *)
Definition stateAfterThree : PhotoVerification.VerificationState :=
  {| PhotoVerification.sessionId := "s1";
     PhotoVerification.userWhatsapp := "u1";
     PhotoVerification.stationId := 7;
     PhotoVerification.type := PhotoVerification.start;
     PhotoVerification.attemptCount := 3;
     PhotoVerification.lastReading := None;
     PhotoVerification.lastConfidence := None;
     PhotoVerification.timestamp := 1000;
     PhotoVerification.ocrProvider := PhotoVerification.vision |}.

(** ** Order of binary64 values and ranking of candidates *)

(** A finite binary64 value counted in units of the smallest positive
    one, [2^emin64]: always an integer. *)
Definition SFunits (a : spec_float) : Z :=
  match a with
  | S754_finite s m e => cond_Zopp s (Zpos m * 2 ^ (e - emin64))
  | _ => 0
  end.

Definition floatUnits (x : float) : Z := SFunits (Prim2SF x).

(** [a] may stand before [b] in the ranking: a higher score, or the same
    score and a value that is not smaller. *)
Definition ranksBefore (a b : Candidate.t) : Prop :=
  Candidate.confidence b < Candidate.confidence a
  \/ (Candidate.confidence a = Candidate.confidence b
      /\ PrimFloat.leb (Candidate.value b) (Candidate.value a) = true).

(** What the scanner produces: an in-range value and a score between the
    base 50 and 50 + 30 + 10 + 10. *)
Definition scannedCandidate (c : Candidate.t) : Prop :=
  OcrProcessor.isValidReading (Candidate.value c) = true
  /\ 50 <= Candidate.confidence c <= 100.

(** A session row that started charging at [t] with the given charger
    power and stored start reading. *)
Definition sessionStartedAt (t : Z) (power : option float) (reading : string)
  : PhotoVerification.SessionRow :=
  {| PhotoVerification.startMeterReading := Some reading;
     PhotoVerification.startTime := Some t;
     PhotoVerification.startedAt := Some t;
     PhotoVerification.createdAt := Some 0;
     PhotoVerification.maxPowerUsed := power;
     PhotoVerification.verificationStatus := Some "start_verified"%string;
     PhotoVerification.manualEntryUsed := false |}.

(** A service that has just been started, beside the given session
    table. *)
Definition sessionTable (table : gmap string PhotoVerification.SessionRow)
  : PhotoVerification.World :=
  {| PhotoVerification.states := ∅;
     PhotoVerification.ocrMetrics := PhotoVerification.ocrMetrics freshWorld;
     PhotoVerification.chargingSessions := table;
     PhotoVerification.outbox := [];
     PhotoVerification.ocrCalls := [] |}.

(** [freshWorld] with a second session, [s2], charging since time 1000
    from a start reading of 100. *)
Definition worldWithSession : PhotoVerification.World :=
  {| PhotoVerification.states := PhotoVerification.states freshWorld;
     PhotoVerification.ocrMetrics := PhotoVerification.ocrMetrics freshWorld;
     PhotoVerification.chargingSessions :=
       <["s2"%string := sessionStartedAt 1000 None "100"]>
         (PhotoVerification.chargingSessions freshWorld);
     PhotoVerification.outbox := [];
     PhotoVerification.ocrCalls := [] |}.

(** ** The extraction pipeline on images *)

(** What [extractKwhReading] returns from its [catch]. *)
Definition thrown (message : string) : OCRResult.t :=
  {| OCRResult.success := false; OCRResult.reading := None;
     OCRResult.confidence := None; OCRResult.rawText := None;
     OCRResult.error := Some message;
     OCRResult.suggestions := Some (OcrProcessor.getRetrySuggestions None None) |}.

(** The result of the pipeline on an image. *)
Definition extracted (imageBuffer : OcrProcessor.Image) : OCRResult.t :=
  snd (OcrProcessor.extractKwhReading (OcrProcessor.rungsOf imageBuffer)).

(** A message is the low-confidence notice. *)
Definition isLowConfidenceNotice (m : PhotoVerification.Message) : bool :=
  match m with
  | PhotoVerification.LowReadingConfidence _ _ => true
  | _ => false
  end.

(** ** Worlds used in examples *)

(** [freshWorld] with a second session, [s2], charging since time 1000
    from a start reading of 1200. *)
Definition worldCharging : PhotoVerification.World :=
  {| PhotoVerification.states := PhotoVerification.states freshWorld;
     PhotoVerification.ocrMetrics := PhotoVerification.ocrMetrics freshWorld;
     PhotoVerification.chargingSessions :=
       <["s2"%string := sessionStartedAt 1000 None "1200"]>
         (PhotoVerification.chargingSessions freshWorld);
     PhotoVerification.outbox := [];
     PhotoVerification.ocrCalls := [] |}.

(** User [u1] has been asked for the end photo of session [s2]. *)
Definition awaitingEndPhoto : PhotoVerification.World :=
  snd (PhotoVerification.initiateEndVerification "u1" "s2" 7 2000 worldCharging).

(** ** Runs of the service *)

(** The calls that the controllers, the scheduler and the session service
    make on the photo verification service, and, as [TableWritten], any
    change that the other services make to the session table. *)
Inductive Request : Type :=
| InitiateStart (user session : string) (station : Z)
| InitiateEnd (user session : string) (station : Z)
| StartPhoto (user : string) (imageBuffer : OcrProcessor.Image)
| EndPhoto (user : string) (imageBuffer : OcrProcessor.Image)
| ManualEntry (user input : string)
| ConfirmStart (user : string) (chargingStarts : bool)
| ConfirmEnd (user : string) (completes : bool)
| RetakeStart (user : string)
| RetakeEnd (user : string)
| InFlow (user : string)
| ClearState (user : string)
| CleanupExpired
| ResetDailyCounter
| TableWritten (table : gmap string PhotoVerification.SessionRow).

Definition writeTable (table : gmap string PhotoVerification.SessionRow)
  : PhotoVerification.Service unit :=
  fun w => (tt, {| PhotoVerification.states := PhotoVerification.states w;
                   PhotoVerification.ocrMetrics := PhotoVerification.ocrMetrics w;
                   PhotoVerification.chargingSessions := table;
                   PhotoVerification.outbox := PhotoVerification.outbox w;
                   PhotoVerification.ocrCalls := PhotoVerification.ocrCalls w |}).

(** The backend after a request made at time [now]. *)
Definition perform (now : Z) (r : Request) (b : Confirmation.Backend)
  : Confirmation.Backend :=
  let service {A} (m : PhotoVerification.Service A) :=
    snd (Confirmation.lift m b) in
  match r with
  | InitiateStart user session station =>
      service (PhotoVerification.initiateStartVerification user session station now)
  | InitiateEnd user session station =>
      service (PhotoVerification.initiateEndVerification user session station now)
  | StartPhoto user imageBuffer =>
      service (PhotoVerification.handleStartPhoto user imageBuffer)
  | EndPhoto user imageBuffer =>
      service (PhotoVerification.handleEndPhoto user imageBuffer now)
  | ManualEntry user input =>
      service (PhotoVerification.handleManualEntry user input now)
  | ConfirmStart user chargingStarts =>
      snd (Confirmation.confirmStartReading user chargingStarts b)
  | ConfirmEnd user completes =>
      snd (Confirmation.confirmEndReading user completes b)
  | RetakeStart user => service (PhotoVerification.retakeStartPhoto user)
  | RetakeEnd user => service (VerificationFlow.retakeEndPhoto user)
  | InFlow user => service (VerificationFlow.isInVerificationFlow user now)
  | ClearState user => service (VerificationFlow.clearVerificationState user)
  | CleanupExpired => service (VerificationFlow.cleanupExpiredStates now)
  | ResetDailyCounter => service VerificationFlow.resetDailyAPICounter
  | TableWritten table => service (writeTable table)
  end.

(** A run: the requests in the order they are served, each with the time
    at which it is served. *)
Definition run (log : list (Z * Request)) (b : Confirmation.Backend)
  : Confirmation.Backend :=
  fold_left (fun b request => perform (fst request) (snd request) b) log b.

(** The service as its constructor leaves it, beside a session table. *)
Definition constructed (table : gmap string PhotoVerification.SessionRow)
  : Confirmation.Backend :=
  {| Confirmation.world :=
       {| PhotoVerification.states := ∅;
          PhotoVerification.ocrMetrics :=
            {| PhotoVerification.totalAttempts := 0;
               PhotoVerification.successfulReads := 0;
               PhotoVerification.averageConfidence := 0;
               PhotoVerification.visionAPICallsToday := 0 |};
          PhotoVerification.chargingSessions := table;
          PhotoVerification.outbox := [];
          PhotoVerification.ocrCalls := [] |};
     Confirmation.events := [] |}.

(** The counters of [ocrMetrics] fit together, and the text detection
    has been called at most once per counted attempt. *)
Definition metricsConsistent (w : PhotoVerification.World) : Prop :=
  let m := PhotoVerification.ocrMetrics w in
  0 <= PhotoVerification.successfulReads m <= PhotoVerification.totalAttempts m
  /\ 0 <= PhotoVerification.visionAPICallsToday m <= PhotoVerification.totalAttempts m
  /\ (0 <= PhotoVerification.averageConfidence m)%Q
  /\ (PhotoVerification.averageConfidence m <= 100)%Q
  /\ Z.of_nat (length (PhotoVerification.ocrCalls w)) <= PhotoVerification.totalAttempts m.

(** A reading that is held for confirmation passed [validateReading], and
    came with confidence 0 (typed) or between 70 and 100 (read from a
    photo). *)
Definition heldSound (reading : float) (confidence : option Q) : Prop :=
  Outcome.valid (OcrProcessor.validateReading reading) = true
  /\ exists c, confidence = Some c
               /\ (c = 0%Q \/ ((70 <= c)%Q /\ (c <= 100)%Q)).

(** A state of the map: it sits under its own user, its attempt count is
    not negative, and what it holds is sound. *)
Definition stateSound (user : string) (state : PhotoVerification.VerificationState)
  : Prop :=
  PhotoVerification.userWhatsapp state = user
  /\ 0 <= PhotoVerification.attemptCount state
  /\ match PhotoVerification.lastReading state with
     | Some reading => heldSound reading (PhotoVerification.lastConfidence state)
     | None => PhotoVerification.lastConfidence state = None
     end.

Definition statesSound (w : PhotoVerification.World) : Prop :=
  forall user state,
    PhotoVerification.states w !! user = Some state -> stateSound user state.

(** What a confirmation wrote or passed on is a reading that passed
    [validateReading], written as [toString] prints it. *)
Definition eventSound (e : Confirmation.Event) : Prop :=
  match e with
  | Confirmation.StartVerified _ written _ attempts
  | Confirmation.EndVerified _ written _ attempts _ =>
      0 <= attempts
      /\ exists reading,
           written = JsNumber.Number_toString reading
           /\ Outcome.valid (OcrProcessor.validateReading reading) = true
  | Confirmation.StartChargingAfterVerification _ reading
  | Confirmation.CompleteSessionAfterVerification _ reading _ =>
      Outcome.valid (OcrProcessor.validateReading reading) = true
  | Confirmation.Notified _ _ => True
  end.

(** What a photo handler may change in the states, the metrics and the
    count of OCR calls: nothing when no photo of that kind is expected;
    otherwise the attempt is counted, at most one call is made, and either
    nothing else changes or a sound reading is recorded and counted as a
    success. *)
Definition photoEffects (user : string) (w w' : PhotoVerification.World) : Prop :=
  (PhotoVerification.states w' = PhotoVerification.states w
   /\ PhotoVerification.ocrMetrics w' = PhotoVerification.ocrMetrics w
   /\ PhotoVerification.ocrCalls w' = PhotoVerification.ocrCalls w)
  \/ exists state,
       PhotoVerification.states w !! user = Some state
       /\ (length (PhotoVerification.ocrCalls w')
           <= S (length (PhotoVerification.ocrCalls w)))%nat
       /\ ((PhotoVerification.states w'
            = <[user := PhotoVerification.bumpAttempt state]> (PhotoVerification.states w)
            /\ PhotoVerification.ocrMetrics w'
               = PhotoVerification.countAttempt (PhotoVerification.ocrMetrics w))
           \/ exists reading c,
                Outcome.valid (OcrProcessor.validateReading reading) = true
                /\ (70 <= c)%Q /\ (c <= 100)%Q
                /\ PhotoVerification.states w'
                   = <[user := PhotoVerification.withReading
                                 (PhotoVerification.bumpAttempt state) reading c
                                 (PhotoVerification.ocrProvider state)]>
                       (PhotoVerification.states w)
                /\ PhotoVerification.ocrMetrics w'
                   = PhotoVerification.countSuccess c
                       (PhotoVerification.countAttempt (PhotoVerification.ocrMetrics w))).

(** An operation of the service keeps the metrics consistent and the
    states sound. *)
Definition keepsSound {A} (m : PhotoVerification.Service A) : Prop :=
  forall w, metricsConsistent w /\ statesSound w ->
            metricsConsistent (snd (m w)) /\ statesSound (snd (m w)).

(** The three properties together, for a backend. *)
Definition backendSound (b : Confirmation.Backend) : Prop :=
  metricsConsistent (Confirmation.world b) /\ statesSound (Confirmation.world b)
  /\ List.Forall eventSound (Confirmation.events b).

(** ** Message deduplication *)

(** The answers of [isDuplicate] to a series of lookups, each with the
    time at which it is made. *)
Fixpoint answers (lookups : list (string * Z))
  (processed : gmap string Z) : list bool :=
  match lookups with
  | [] => []
  | (messageId, now) :: rest =>
      fst (MessageDeduplication.isDuplicate messageId now processed)
      :: answers rest (snd (MessageDeduplication.isDuplicate messageId now processed))
  end.

(** Every recorded id is recorded with a time that is not 0 and less than
    [TTL] before each of the first [n] readings of the clock. *)
Definition recordsFresh (clock : nat -> Z) (n : nat)
  (processed : gmap string Z) : Prop :=
  forall messageId timestamp i,
    (i < n)%nat ->
    processed !! messageId = Some timestamp ->
    timestamp <> 0 /\ clock i - timestamp < MessageDeduplication.TTL.

(** The first [n] readings of the clock are not 0 and lie less than [TTL]
    apart. *)
Definition clockSteady (clock : nat -> Z) (n : nat) : Prop :=
  (forall i, (i < n)%nat -> clock i <> 0)
  /\ (forall i j, (i < n)%nat -> (j < n)%nat ->
                  clock j - clock i < MessageDeduplication.TTL).

(** ** Webhook payloads used in examples *)

Definition textFrom (messageId user body : string) : Webhook.WaMessage :=
  {| Webhook.id := messageId; Webhook.from := user;
     Webhook.content := Webhook.text (Some body) |}.

(** A payload that carries [m1], [m2] and [m1] again. *)
Definition repeatedDelivery : Webhook.WebhookData :=
  {| Webhook.object := "whatsapp_business_account";
     Webhook.entry :=
       Some [ {| Webhook.changes :=
                   Some [ {| Webhook.field := "messages";
                             Webhook.messages :=
                               Some [textFrom "m1" "u1" "hi"; textFrom "m2" "u1" "1245.8"] |};
                          {| Webhook.field := "statuses";
                             Webhook.messages := Some [textFrom "m9" "u1" "x"] |} ] |};
              {| Webhook.changes :=
                   Some [ {| Webhook.field := "messages";
                             Webhook.messages := Some [textFrom "m1" "u1" "hi"] |} ] |} ] |}.

(** ** What a pattern matches *)

Section Matching.
Variable ignoreCase : bool.

(** [n] rounds of a step from a position (the rest of the input and the
    group captured so far) to a position. *)
Fixpoint rounds
  (step : list ascii -> option (list ascii) -> list ascii -> option (list ascii) -> Prop)
  (n : nat) (s : list ascii) (cap : option (list ascii))
  (s' : list ascii) (cap' : option (list ascii)) : Prop :=
  match n with
  | O => s' = s /\ cap' = cap
  | S n' => exists s1 cap1, step s cap s1 cap1 /\ rounds step n' s1 cap1 s' cap'
  end.

(** The pattern matches a prefix of [s], leaving [s'], and takes the
    group from [cap] to [cap']. *)
Fixpoint matches (r : Regex.regex) (s : list ascii) (cap : option (list ascii))
  (s' : list ascii) (cap' : option (list ascii)) : Prop :=
  match r with
  | Regex.Eps => s' = s /\ cap' = cap
  | Regex.Lit c =>
      exists x, s = x :: s' /\ Regex.sameChar ignoreCase c x = true /\ cap' = cap
  | Regex.Class p => exists x, s = x :: s' /\ p x = true /\ cap' = cap
  | Regex.Cat r1 r2 =>
      exists s1 cap1, matches r1 s cap s1 cap1 /\ matches r2 s1 cap1 s' cap'
  | Regex.Or r1 r2 => matches r1 s cap s' cap' \/ matches r2 s cap s' cap'
  | Regex.Quant min max r' =>
      exists n, (min <= n)%nat
                /\ match max with Some m => (n <= m)%nat | None => True end
                /\ rounds (matches r') n s cap s' cap'
  | Regex.Capture r' =>
      exists cap0, matches r' s cap s' cap0
                   /\ cap' = Some (firstn (length s - length s') s)
  end.
End Matching.

(** Every repetition has bounds that can be met. *)
Fixpoint wellFormed (r : Regex.regex) : bool :=
  match r with
  | Regex.Eps | Regex.Lit _ | Regex.Class _ => true
  | Regex.Cat r1 r2 | Regex.Or r1 r2 => wellFormed r1 && wellFormed r2
  | Regex.Quant min max r' =>
      match max with Some m => (min <=? m)%nat | None => true end && wellFormed r'
  | Regex.Capture r' => wellFormed r'
  end.

(** 2 to 6 digits, then possibly a point and 1 to 3 digits. *)
Definition isNumeral (g : list ascii) : bool :=
  let '(ip, rest) := JsString.spanDigits g in
  (2 <=? length ip)%nat && (length ip <=? 6)%nat
  && match rest with
     | [] => true
     | c :: fp =>
         Ascii.eqb c "." && (1 <=? length fp)%nat && (length fp <=? 3)%nat
         && forallb JsString.isDigit fp
     end.

(** [part] stands in [whole] as a run of consecutive characters. *)
Definition occursIn (part whole : list ascii) : Prop :=
  exists before after, whole = (before ++ part ++ after)%list.

(** The pattern has no capturing group. *)
Fixpoint captureFree (r : Regex.regex) : bool :=
  match r with
  | Regex.Eps | Regex.Lit _ | Regex.Class _ => true
  | Regex.Cat r1 r2 | Regex.Or r1 r2 => captureFree r1 && captureFree r2
  | Regex.Quant _ _ r' => captureFree r'
  | Regex.Capture _ => false
  end.

(** Whenever the pattern matches, its group holds a numeral that stands
    in the input. *)
Definition capturesNumeral (r : Regex.regex) : Prop :=
  forall ic s cap s' cap',
    matches ic r s cap s' cap' ->
    exists g, cap' = Some g /\ isNumeral g = true /\ occursIn g s.

(* ================================================================== *)
(** * Facts about binary64 arithmetic *)
(* ================================================================== *)


Lemma SFcompare_antisym (a b : spec_float) :
  SFcompare b a = option_map CompOpp (SFcompare a b).
Proof.
  destruct a as [sa|sa| |sa ma ea], b as [sb|sb| |sb mb eb]; simpl;
    try reflexivity;
    try (destruct sa; reflexivity); try (destruct sb; reflexivity);
    try (destruct sa, sb; reflexivity).
  f_equal.
  rewrite (Z.compare_antisym ea eb).
  change (Pos.compare_cont Eq mb ma) with (Pos.compare mb ma).
  change (Pos.compare_cont Eq ma mb) with (Pos.compare ma mb).
  rewrite (Pos.compare_antisym ma mb).
  destruct sa, sb; simpl; try reflexivity;
    destruct (ea ?= eb); simpl; try reflexivity;
    destruct (ma ?= mb)%positive; reflexivity.
Qed.

Lemma is_nan_false (x : float) :
  PrimFloat.is_nan x = false -> Prim2SF x <> S754_nan.
Proof.
  unfold PrimFloat.is_nan. rewrite FloatAxioms.eqb_spec. intros H E. rewrite E in H. discriminate.
Qed.

Lemma SFcompare_total (a b : spec_float) :
  a <> S754_nan -> b <> S754_nan -> exists c, SFcompare a b = Some c.
Proof.
  destruct a, b; simpl; try congruence; eauto.
Qed.

(** On numbers that are not NaN, [x < y] is the negation of [y <= x]. *)
Lemma ltb_negb_leb (x y : float) :
  PrimFloat.is_nan x = false -> PrimFloat.is_nan y = false ->
  PrimFloat.ltb x y = negb (PrimFloat.leb y x).
Proof.
  intros Hx Hy. apply is_nan_false in Hx. apply is_nan_false in Hy.
  rewrite ltb_spec, leb_spec. unfold SFltb, SFleb.
  rewrite (SFcompare_antisym (Prim2SF x) (Prim2SF y)).
  destruct (SFcompare_total _ _ Hx Hy) as [c ->]. destruct c; reflexivity.
Qed.

Lemma is_finite_SF (x : float) :
  PrimFloat.is_finite x = true ->
  (exists s, Prim2SF x = S754_zero s) \/ (exists s m e, Prim2SF x = S754_finite s m e).
Proof.
  unfold PrimFloat.is_finite, PrimFloat.is_nan, PrimFloat.is_infinity.
  rewrite !FloatAxioms.eqb_spec, abs_spec.
  destruct (Prim2SF x) as [s|s| |s m e]; simpl; eauto; intros H; try discriminate.
  destruct s; discriminate.
Qed.

Lemma is_finite_not_nan (x : float) :
  PrimFloat.is_finite x = true -> PrimFloat.is_nan x = false.
Proof.
  unfold PrimFloat.is_finite. destruct (PrimFloat.is_nan x); simpl; congruence.
Qed.


Lemma digits2_pos_bounds (p : positive) :
  2 ^ (Zpos (digits2_pos p) - 1) <= Zpos p < 2 ^ Zpos (digits2_pos p).
Proof.
  induction p as [p IH|p IH|]; simpl digits2_pos.
  - rewrite Pos2Z.inj_succ.
    replace (Z.succ (Zpos (digits2_pos p)) - 1) with (Z.succ (Zpos (digits2_pos p) - 1)) by lia.
    rewrite !Z.pow_succ_r by lia. lia.
  - rewrite Pos2Z.inj_succ.
    replace (Z.succ (Zpos (digits2_pos p)) - 1) with (Z.succ (Zpos (digits2_pos p) - 1)) by lia.
    rewrite !Z.pow_succ_r by lia. lia.
  - simpl. lia.
Qed.

Lemma shr_1_m (r : shr_record) :
  0 <= shr_m r -> shr_m (shr_1 r) = shr_m r / 2.
Proof.
  destruct r as [m b s]. simpl. destruct m as [|p|p]; intros H; try lia.
  - reflexivity.
  - destruct p as [p|p|]; simpl shr_m.
    + rewrite (Pos2Z.inj_xI p). apply Z.div_unique with 1; lia.
    + rewrite (Pos2Z.inj_xO p). apply Z.div_unique with 0; lia.
    + reflexivity.
Qed.

Lemma iter_shr_1_m (p : positive) : forall r : shr_record,
  0 <= shr_m r -> shr_m (SpecFloat.iter_pos shr_1 p r) = shr_m r / 2 ^ Zpos p.
Proof.
  induction p as [p IH|p IH|]; intros r Hr; simpl SpecFloat.iter_pos.
  - assert (H1 : 0 <= shr_m (shr_1 r)) by (rewrite shr_1_m by lia; apply Z.div_pos; lia).
    assert (H2 : 0 <= shr_m (SpecFloat.iter_pos shr_1 p (shr_1 r)))
      by (rewrite IH by lia; apply Z.div_pos; [lia|apply Z.pow_pos_nonneg; lia]).
    rewrite IH by lia. rewrite IH by lia. rewrite shr_1_m by lia.
    rewrite !Z.div_div by (try apply Z.pow_pos_nonneg; lia).
    f_equal. rewrite (Pos2Z.inj_xI p).
    replace (2 * Zpos p + 1) with (1 + Zpos p + Zpos p) by lia.
    rewrite !Z.pow_add_r by lia. lia.
  - assert (H2 : 0 <= shr_m (SpecFloat.iter_pos shr_1 p r))
      by (rewrite IH by lia; apply Z.div_pos; [lia|apply Z.pow_pos_nonneg; lia]).
    rewrite IH by lia. rewrite IH by lia.
    rewrite !Z.div_div by (try apply Z.pow_pos_nonneg; lia).
    f_equal. rewrite (Pos2Z.inj_xO p).
    replace (2 * Zpos p) with (Zpos p + Zpos p) by lia.
    rewrite !Z.pow_add_r by lia. lia.
  - rewrite shr_1_m by lia. reflexivity.
Qed.


Lemma shr_record_of_loc_m (m : Z) (l : location) : shr_m (shr_record_of_loc m l) = m.
Proof. destruct l as [|[]]; reflexivity. Qed.

(** Shifting a positive mantissa to its canonical exponent leaves a positive
    mantissa, as long as the exponent is not below the smallest one. *)
Lemma shr_fexp_positive (m e : Z) (l : location) :
  0 < m -> emin64 <= e ->
  0 < shr_m (fst (shr_fexp prec emax m e l)) /\ emin64 <= snd (shr_fexp prec emax m e l).
Proof.
  intros Hm He. unfold shr_fexp, shr.
  destruct m as [|p|p]; try lia. simpl Zdigits2.
  pose proof (digits2_pos_bounds p) as [Hlo Hhi].
  set (d := Zpos (digits2_pos p)) in *.
  assert (Hf : fexp prec emax (d + e) = Z.max (d + e - prec) emin64) by reflexivity.
  destruct (fexp prec emax (d + e) - e) as [|n|n] eqn:En; simpl fst; simpl snd;
    rewrite ?shr_record_of_loc_m; try (split; lia).
  rewrite iter_shr_1_m by (rewrite shr_record_of_loc_m; lia).
  rewrite shr_record_of_loc_m.
  assert (Hn : Zpos n = d - prec) by lia.
  split; [|lia].
  rewrite Hn.
  assert (Hd : 0 < d - prec) by lia.
  apply Z.div_str_pos. split; [apply Z.pow_pos_nonneg; lia|].
  eapply Z.le_trans; [|exact Hlo].
  apply Z.pow_le_mono_r; unfold prec; lia.
Qed.


Lemma round_nearest_even_ge (m : Z) (l : location) : m <= round_nearest_even m l.
Proof. destruct l as [|[]]; simpl; try lia. destruct (Z.even m); lia. Qed.

Lemma binary_round_aux_sgn (s : bool) (m e : Z) (l : location) :
  0 < m -> emin64 <= e ->
  SFsgn (binary_round_aux prec emax s m e l) = Some (if s then -1 else 1).
Proof.
  intros Hm He. unfold binary_round_aux.
  pose proof (shr_fexp_positive m e l Hm He) as [H1 H2].
  destruct (shr_fexp prec emax m e l) as [mrs' e']. simpl fst in *; simpl snd in *.
  pose proof (round_nearest_even_ge (shr_m mrs') (loc_of_shr_record mrs')) as Hr.
  set (m2 := round_nearest_even (shr_m mrs') (loc_of_shr_record mrs')) in *.
  assert (Hm2 : 0 < m2) by lia.
  pose proof (shr_fexp_positive m2 e' loc_Exact Hm2 H2) as [H3 H4].
  destruct (shr_fexp prec emax m2 e' loc_Exact) as [mrs'' e'']. simpl fst in *; simpl snd in *.
  destruct (shr_m mrs'') as [|q|q]; try lia.
  destruct (e'' <=? emax - prec); reflexivity.
Qed.

Lemma shl_align_exp (m : positive) (e e' : Z) :
  emin64 <= e -> emin64 <= e' -> emin64 <= snd (shl_align m e e').
Proof.
  intros. unfold shl_align. destruct (e' - e); simpl; lia.
Qed.

Lemma binary_round_sgn (s : bool) (m : positive) (e : Z) :
  emin64 <= e ->
  SFsgn (binary_round prec emax s m e) = Some (if s then -1 else 1).
Proof.
  intros He. unfold binary_round.
  pose proof (shl_align_exp m e (fexp prec emax (Zpos (digits2_pos m) + e)) He) as H.
  destruct (shl_align m e (fexp prec emax (Zpos (digits2_pos m) + e))) as [mz ez].
  simpl snd in H. apply binary_round_aux_sgn; [lia|].
  apply H. unfold fexp. fold emin64. lia.
Qed.

Lemma binary_normalize_sgn (d e : Z) (sz : bool) :
  emin64 <= e ->
  SFsgn (binary_normalize prec emax d e sz) = Some (Z.sgn d).
Proof.
  intros He. destruct d; simpl; [reflexivity| |]; now rewrite binary_round_sgn.
Qed.

Lemma shl_align_fst (m : positive) (e e' : Z) :
  e' <= e -> Zpos (fst (shl_align m e e')) = Zpos m * 2 ^ (e - e').
Proof.
  intros H. unfold shl_align.
  destruct (e' - e) as [|d|d] eqn:E; simpl fst; try lia.
  - replace (e - e') with 0 by lia. simpl. lia.
  - replace (e - e') with (Zpos d) by lia.
    change (Pos.iter xO m d) with (shift_pos d m).
    rewrite shift_pos_correct. rewrite Zpower_pos_is_exp_pos || idtac.
    change (Zpower_pos 2 d) with (2 ^ Zpos d). lia.
Qed.

Lemma bounded_facts (m : positive) (e : Z) :
  bounded prec emax m e = true ->
  emin64 <= e /\ Zpos (digits2_pos m) <= prec /\
  (emin64 < e -> Zpos (digits2_pos m) = prec).
Proof.
  unfold bounded, canonical_mantissa, fexp. fold emin64.
  rewrite andb_true_iff, Z.eqb_eq, Z.leb_le. lia.
Qed.

(** On canonical mantissas, the comparison of [SFcompare] is the comparison
    of the values brought to the smaller of the two exponents. *)
Lemma SFcompare_aligned (sa sb : bool) (ma mb : positive) (ea eb : Z) :
  bounded prec emax ma ea = true -> bounded prec emax mb eb = true ->
  SFcompare (S754_finite sa ma ea) (S754_finite sb mb eb) =
  Some (cond_Zopp sa (Zpos ma * 2 ^ (ea - Z.min ea eb))
        ?= cond_Zopp sb (Zpos mb * 2 ^ (eb - Z.min ea eb))).
Proof.
  intros Ha Hb.
  apply bounded_facts in Ha as (Ha1 & Ha2 & Ha3).
  apply bounded_facts in Hb as (Hb1 & Hb2 & Hb3).
  pose proof (digits2_pos_bounds ma) as [Hma1 Hma2].
  pose proof (digits2_pos_bounds mb) as [Hmb1 Hmb2].
  assert (Hcmp : (Zpos ma * 2 ^ (ea - Z.min ea eb) ?= Zpos mb * 2 ^ (eb - Z.min ea eb))
                 = match ea ?= eb with
                   | Lt => Lt | Gt => Gt | Eq => Pos.compare_cont Eq ma mb
                   end).
  { destruct (Z.compare_spec ea eb) as [E|E|E].
    - subst eb. rewrite Z.min_id, Z.sub_diag. simpl (2 ^ 0). rewrite !Z.mul_1_r. reflexivity.
    - rewrite Z.min_l by lia. rewrite Z.sub_diag. simpl (2 ^ 0). rewrite Z.mul_1_r.
      apply Z.compare_lt_iff.
      assert (Hd : Zpos (digits2_pos mb) = prec) by (apply Hb3; lia).
      rewrite Hd in Hmb1.
      assert (Hp : 2 ^ 1 <= 2 ^ (eb - ea)) by (apply Z.pow_le_mono_r; lia).
      assert (Hq : 2 ^ Zpos (digits2_pos ma) <= 2 ^ prec) by (apply Z.pow_le_mono_r; lia).
      change (2 ^ prec) with (2 * 2 ^ (prec - 1)) in Hq. simpl (2 ^ 1) in Hp. nia.
    - rewrite Z.min_r by lia. rewrite Z.sub_diag. simpl (2 ^ 0). rewrite Z.mul_1_r.
      apply Z.compare_gt_iff.
      assert (Hd : Zpos (digits2_pos ma) = prec) by (apply Ha3; lia).
      rewrite Hd in Hma1.
      assert (Hp : 2 ^ 1 <= 2 ^ (ea - eb)) by (apply Z.pow_le_mono_r; lia).
      assert (Hq : 2 ^ Zpos (digits2_pos mb) <= 2 ^ prec) by (apply Z.pow_le_mono_r; lia).
      change (2 ^ prec) with (2 * 2 ^ (prec - 1)) in Hq. simpl (2 ^ 1) in Hp. nia. }
  assert (HA : 0 < Zpos ma * 2 ^ (ea - Z.min ea eb))
    by (apply Z.mul_pos_pos; [lia|apply Z.pow_pos_nonneg; lia]).
  assert (HB : 0 < Zpos mb * 2 ^ (eb - Z.min ea eb))
    by (apply Z.mul_pos_pos; [lia|apply Z.pow_pos_nonneg; lia]).
  simpl SFcompare. f_equal.
  set (A := Zpos ma * 2 ^ (ea - Z.min ea eb)) in *.
  set (B := Zpos mb * 2 ^ (eb - Z.min ea eb)) in *.
  destruct sa, sb; simpl cond_Zopp.
  - rewrite (Z.compare_opp A B), (Z.compare_antisym A B), Hcmp.
    destruct (ea ?= eb); reflexivity.
  - symmetry. apply Z.compare_lt_iff. lia.
  - symmetry. apply Z.compare_gt_iff. lia.
  - rewrite Hcmp. reflexivity.
Qed.


Lemma sgn_sub_compare (a b : Z) : Z.sgn (a - b) = sgnOfComparison (a ?= b).
Proof. destruct (Z.compare_spec a b); simpl; lia. Qed.


(** The sign of a difference of two finite numbers is the outcome of
    their comparison: the subtraction neither cancels to zero nor turns
    into NaN. *)
Lemma SFsub_sgn (a b : spec_float) :
  valid_binary a = true -> valid_binary b = true -> SFfinite a -> SFfinite b ->
  exists c, SFcompare a b = Some c /\
            SFsgn (SFsub prec emax a b) = Some (sgnOfComparison c).
Proof.
  intros Va Vb Fa Fb.
  destruct a as [sa|sa| |sa ma ea]; try contradiction;
  destruct b as [sb|sb| |sb mb eb]; try contradiction; simpl in Va, Vb.
  - eexists; split; [reflexivity|]. destruct sa, sb; reflexivity.
  - eexists; split; [reflexivity|]. simpl. destruct sb; reflexivity.
  - eexists; split; [reflexivity|]. simpl. destruct sa; reflexivity.
  - rewrite (SFcompare_aligned _ _ _ _ _ _ Va Vb). eexists; split; [reflexivity|].
    unfold SFsub.
    rewrite binary_normalize_sgn.
    + rewrite !shl_align_fst by lia. rewrite sgn_sub_compare. reflexivity.
    + apply bounded_facts in Va as (Ha1 & _). apply bounded_facts in Vb as (Hb1 & _). lia.
Qed.

Lemma is_finite_SFfinite (x : float) :
  PrimFloat.is_finite x = true -> SFfinite (Prim2SF x).
Proof.
  intros H. destruct (is_finite_SF x H) as [[s ->]|(s & m & e & ->)]; exact I.
Qed.

(** [x - y] is positive exactly when [y < x], for finite [x] and [y]. *)
Lemma sub_pos_ltb (x y : float) :
  PrimFloat.is_finite x = true -> PrimFloat.is_finite y = true ->
  PrimFloat.ltb 0 (x - y) = PrimFloat.ltb y x.
Proof.
  intros Hx Hy.
  destruct (SFsub_sgn (Prim2SF x) (Prim2SF y) (Prim2SF_valid x) (Prim2SF_valid y)
              (is_finite_SFfinite x Hx) (is_finite_SFfinite y Hy)) as (c & Hc & Hs).
  rewrite !ltb_spec, sub_spec. unfold SF64sub.
  change (Prim2SF 0) with (S754_zero false).
  unfold SFltb. rewrite (SFcompare_antisym (Prim2SF x) (Prim2SF y)), Hc.
  destruct (SFsub prec emax (Prim2SF x) (Prim2SF y)) as [s|s| |s m e];
    simpl in Hs; try discriminate; destruct c; simpl in *; try destruct s;
    simpl in *; congruence.
Qed.

(** The difference of two finite numbers is not NaN. *)
Lemma sub_not_nan (x y : float) :
  PrimFloat.is_finite x = true -> PrimFloat.is_finite y = true ->
  PrimFloat.is_nan (x - y) = false.
Proof.
  intros Hx Hy.
  destruct (SFsub_sgn (Prim2SF x) (Prim2SF y) (Prim2SF_valid x) (Prim2SF_valid y)
              (is_finite_SFfinite x Hx) (is_finite_SFfinite y Hy)) as (c & Hc & Hs).
  unfold PrimFloat.is_nan. rewrite FloatAxioms.eqb_spec, sub_spec. unfold SF64sub.
  destruct (SFsub prec emax (Prim2SF x) (Prim2SF y)) as [s|s| |s m e];
    simpl in Hs; try discriminate; unfold SFeqb; simpl.
  - reflexivity.
  - destruct s; reflexivity.
  - destruct s; rewrite Z.compare_refl, Pos.compare_cont_refl; reflexivity.
Qed.

(** ** The order of finite binary64 values *)

Lemma SFcompare_units (a b : spec_float) :
  valid_binary a = true -> valid_binary b = true -> SFfinite a -> SFfinite b ->
  SFcompare a b = Some (SFunits a ?= SFunits b).
Proof.
  intros Va Vb Fa Fb.
  destruct a as [sa|sa| |sa ma ea]; try contradiction;
  destruct b as [sb|sb| |sb mb eb]; try contradiction; simpl in Va, Vb.
  - reflexivity.
  - pose proof (bounded_facts _ _ Vb) as (Hb & _).
    assert (0 < Zpos mb * 2 ^ (eb - emin64))
      by (apply Z.mul_pos_pos; [lia|apply Z.pow_pos_nonneg; lia]).
    unfold SFunits. set (v := Zpos mb * 2 ^ (eb - emin64)) in *.
    simpl SFcompare. f_equal. symmetry. destruct sb; unfold cond_Zopp.
    + apply Z.compare_gt_iff. lia.
    + apply Z.compare_lt_iff. lia.
  - pose proof (bounded_facts _ _ Va) as (Ha & _).
    assert (0 < Zpos ma * 2 ^ (ea - emin64))
      by (apply Z.mul_pos_pos; [lia|apply Z.pow_pos_nonneg; lia]).
    unfold SFunits. set (v := Zpos ma * 2 ^ (ea - emin64)) in *.
    simpl SFcompare. f_equal. symmetry. destruct sa; unfold cond_Zopp.
    + apply Z.compare_lt_iff. lia.
    + apply Z.compare_gt_iff. lia.
  - rewrite (SFcompare_aligned _ _ _ _ _ _ Va Vb). f_equal.
    pose proof (bounded_facts _ _ Va) as (Ha & _).
    pose proof (bounded_facts _ _ Vb) as (Hb & _).
    set (ez := Z.min ea eb).
    assert (Hz : 0 < 2 ^ (ez - emin64)) by (apply Z.pow_pos_nonneg; lia).
    assert (Ea : Zpos ma * 2 ^ (ea - emin64)
                 = Zpos ma * 2 ^ (ea - ez) * 2 ^ (ez - emin64)).
    { rewrite <- Z.mul_assoc, <- Z.pow_add_r by lia. do 2 f_equal. lia. }
    assert (Eb : Zpos mb * 2 ^ (eb - emin64)
                 = Zpos mb * 2 ^ (eb - ez) * 2 ^ (ez - emin64)).
    { rewrite <- Z.mul_assoc, <- Z.pow_add_r by lia. do 2 f_equal. lia. }
    unfold SFunits. rewrite Ea, Eb.
    set (A := Zpos ma * 2 ^ (ea - ez)). set (B := Zpos mb * 2 ^ (eb - ez)).
    set (k := 2 ^ (ez - emin64)) in *.
    assert (G : forall sa sb, (cond_Zopp sa A ?= cond_Zopp sb B)
                              = (cond_Zopp sa (A * k) ?= cond_Zopp sb (B * k))).
    { intros [] []; unfold cond_Zopp; rewrite <- ?Z.mul_opp_l;
        apply Zmult_compare_compat_r; lia. }
    apply G.
Qed.

(** Comparisons of finite numbers are comparisons of their unit counts. *)
Lemma leb_units (x y : float) :
  PrimFloat.is_finite x = true -> PrimFloat.is_finite y = true ->
  PrimFloat.leb x y = (floatUnits x <=? floatUnits y).
Proof.
  intros Hx Hy. rewrite leb_spec. unfold SFleb, floatUnits.
  rewrite (SFcompare_units _ _ (Prim2SF_valid x) (Prim2SF_valid y)
             (is_finite_SFfinite x Hx) (is_finite_SFfinite y Hy)).
  unfold Z.leb. destruct (_ ?= _); reflexivity.
Qed.

Lemma ltb_units (x y : float) :
  PrimFloat.is_finite x = true -> PrimFloat.is_finite y = true ->
  PrimFloat.ltb x y = (floatUnits x <? floatUnits y).
Proof.
  intros Hx Hy. rewrite ltb_spec. unfold SFltb, floatUnits.
  rewrite (SFcompare_units _ _ (Prim2SF_valid x) (Prim2SF_valid y)
             (is_finite_SFfinite x Hx) (is_finite_SFfinite y Hy)).
  unfold Z.ltb. destruct (_ ?= _); reflexivity.
Qed.

(** Two finite numbers with the same unit count, the first of them not
    zero, are the same number. *)
Lemma units_inj (x y : float) :
  PrimFloat.is_finite x = true -> PrimFloat.is_finite y = true ->
  floatUnits x = floatUnits y -> floatUnits x <> 0 -> x = y.
Proof.
  intros Hx Hy E N. apply Prim2SF_inj.
  pose proof (SFcompare_units _ _ (Prim2SF_valid x) (Prim2SF_valid y)
                (is_finite_SFfinite x Hx) (is_finite_SFfinite y Hy)) as C.
  unfold floatUnits in E, N. rewrite E, Z.compare_refl in C.
  destruct (Prim2SF x) as [sa|sa| |sa ma ea]; try (exfalso; apply N; reflexivity);
  destruct (Prim2SF y) as [sb|sb| |sb mb eb]; simpl in C; try discriminate.
  - destruct sa; discriminate.
  - destruct sb; discriminate.
  - injection C as C.
    destruct sa, sb; try discriminate;
      destruct (Z.compare_spec ea eb) as [->|?|?]; try discriminate;
      destruct (Pos.compare_cont Eq ma mb) eqn:P; try discriminate;
      apply Pos.compare_eq in P; subst; reflexivity.
Qed.

(** Small integers keep their sign as binary64 values. *)
Lemma Z2float_sign_small (d : Z) :
  -50 <= d <= 50 ->
  PrimFloat.ltb 0 (JsNumber.Z2float d) = (0 <? d).
Proof.
  intros Hd.
  assert (H : forallb (fun n => Bool.eqb
                         (PrimFloat.ltb 0 (JsNumber.Z2float (Z.of_nat n - 50)))
                         (0 <? Z.of_nat n - 50))
                      (seq 0 101) = true) by (vm_compute; reflexivity).
  rewrite forallb_forall in H.
  specialize (H (Z.to_nat (d + 50))).
  replace (Z.of_nat (Z.to_nat (d + 50)) - 50) with d in H by lia.
  apply Bool.eqb_prop. apply H. apply in_seq. lia.
Qed.

(* ================================================================== *)
(** * The JavaScript built-ins on known values *)
(* ================================================================== *)

Section Builtins.
Import JsNumber JsString Regex.
Local Open Scope float_scope.

Example Number_toString_samples :
  Number_toString 1245.8 = "1245.8"%string
  /\ Number_toString 100 = "100"%string
  /\ Number_toString 0.1 = "0.1"%string
  /\ Number_toString (0.1 + 0.2) = "0.30000000000000004"%string
  /\ Number_toString (1 / 3) = "0.3333333333333333"%string
  /\ Number_toString 999999.999 = "999999.999"%string
  /\ Number_toString (-12.5) = "-12.5"%string
  /\ Number_toString 0.000001 = "0.000001"%string
  /\ Number_toString 0.0000001 = "1e-7"%string
  /\ Number_toString 1e21 = "1e+21"%string
  /\ Number_toString 123456789012345680000 = "123456789012345680000"%string
  /\ Number_toString 5e-324 = "5e-324"%string
  /\ Number_toString 1.7976931348623157e308 = "1.7976931348623157e+308"%string
  /\ Number_toString PrimFloat.nan = "NaN"%string
  /\ Number_toString PrimFloat.neg_infinity = "-Infinity"%string.
Proof. vm_compute. repeat split; reflexivity. Qed.

Example Number_toFixed_samples :
  Number_toFixed 23.75 1 = "23.8"%string
  /\ Number_toFixed 1.005 2 = "1.00"%string
  /\ Number_toFixed 76 0 = "76"%string
  /\ Number_toFixed 2.5 0 = "3"%string
  /\ Number_toFixed (-1.5) 0 = "-2"%string
  /\ Number_toFixed 0 2 = "0.00"%string
  /\ Number_toFixed 1234.5678 2 = "1234.57"%string.
Proof. vm_compute. repeat split; reflexivity. Qed.

Example Math_samples :
  Math_round 2.5 = 3 /\ Math_round (-2.5) = -2 /\ Math_round 5045.6 = 5046
  /\ Math_round 0.49999999999999994 = 0
  /\ Math_floor 2.5 = 2 /\ Math_floor (-2.5) = -3 /\ Math_floor 0.999 = 0.
Proof. vm_compute. repeat split; reflexivity. Qed.

Example parseFloat_samples :
  parseFloat "1245.8" = 1245.8
  /\ parseFloat "  12.5kWh" = 12.5
  /\ parseFloat "00" = 0
  /\ parseFloat ".5" = 0.5
  /\ parseFloat "1e3" = 1000
  /\ parseFloat "-7.25" = -7.25
  /\ parseFloat "Infinity" = PrimFloat.infinity
  /\ PrimFloat.is_nan (parseFloat "kWh") = true
  /\ PrimFloat.is_nan (parseFloat "") = true.
Proof. vm_compute. repeat split; reflexivity. Qed.

(** Leading zeros do not count towards the size of a numeral: 401 zeros
    before [12.5] still read as 12.5, while a 1 followed by 400 zeros is
    infinite. *)
Example parseFloat_long_numerals :
  parseFloat (str (repeat "0"%char 401 ++ chars "12.5")) = 12.5
  /\ parseFloat (str ("1"%char :: repeat "0"%char 400)) = PrimFloat.infinity
  /\ parseFloat (str (chars "0." ++ repeat "0"%char 401 ++ chars "1")) = 0.
Proof. vm_compute. repeat split; reflexivity. Qed.

(** Leftmost match, greedy repetition and group 1 of the number pattern. *)
Example exec_samples :
  exec true OcrProcessor.numberGroup "ABC 1245.8123 K"
  = Some {| index := 4; whole := "1245.812"; group1 := Some "1245.812"%string |}
  /\ exec true OcrProcessor.numberGroup "1234567.5"
     = Some {| index := 0; whole := "123456"; group1 := Some "123456"%string |}
  /\ exec true OcrProcessor.numberGroup "7 KWH" = None
  /\ map whole (execAll false OcrProcessor.numberGroup "12 345.6789 1234567 8 90")
     = ["12"; "345.678"; "123456"; "90"]%string
  /\ OcrProcessor.cleanText "  Meter:  1245.8 kWh  total "
     = "METER: 1245.8 KWH T0TA1"%string.
Proof. vm_compute. repeat split; reflexivity. Qed.

End Builtins.

(* ================================================================== *)
(** * The reading validator *)
(* ================================================================== *)

Section ReadingValidator.
Import JsNumber JsString OcrProcessor.

(** What a successful [validateReading] went through, check by check. *)
Lemma validateReading_valid_inv (r : float) :
  Outcome.valid (validateReading r) = true ->
  isNaN r = false /\ isFinite r = true /\
  (r <=? 0)%float = false /\ (r <? 10)%float = false /\
  (999999 <? r)%float = false /\ (3 <? decimalPlaces r)%nat = false.
Proof.
  unfold validateReading, OCR_CONFIG.VALID_RANGE.min, OCR_CONFIG.VALID_RANGE.max,
    OCR_CONFIG.MAX_DECIMAL_PLACES.
  destruct (isNaN r) eqn:E1; [discriminate|].
  destruct (isFinite r) eqn:E2; [|discriminate]. simpl.
  destruct (r <=? 0)%float eqn:E3; [discriminate|].
  destruct (r <? 10)%float eqn:E4; [discriminate|].
  destruct (999999 <? r)%float eqn:E5; [discriminate|].
  destruct (3 <? decimalPlaces r)%nat eqn:E6; [discriminate|].
  intros _. repeat split; reflexivity.
Qed.

Lemma validateReading_invalid_error (r : float) :
  Outcome.valid (validateReading r) = false ->
  exists e, Outcome.error (validateReading r) = Some e.
Proof.
  unfold validateReading.
  repeat match goal with
         | |- context [if ?c then _ else _] => destruct c
         end; simpl; intros H; try discriminate; eauto.
Qed.

(** C1. For every number [r], [validateReading r] is valid exactly when
    [r] is finite, positive, at least 10, at most 999999 and prints with at
    most 3 decimal places; in every other case it is invalid and carries an
    error. *)
Theorem validateReading_valid_iff (r : float) :
  (Outcome.valid (validateReading r) = true <->
     isFinite r = true /\ (0 <? r)%float = true /\
     (10 <=? r)%float = true /\ (r <=? 999999)%float = true /\
     (decimalPlaces r <= 3)%nat)
  /\ (Outcome.valid (validateReading r) = true \/
      exists e, Outcome.valid (validateReading r) = false /\
                Outcome.error (validateReading r) = Some e).
Proof.
  split.
  - split.
    + intros H. apply validateReading_valid_inv in H as (N & F & H1 & H2 & H3 & H4).
      unfold isNaN in N.
      rewrite (ltb_negb_leb 0 r) by (assumption || reflexivity).
      rewrite (ltb_negb_leb r 10) in H2 by (assumption || reflexivity).
      rewrite (ltb_negb_leb 999999 r) in H3 by (assumption || reflexivity).
      rewrite H1. apply negb_false_iff in H2, H3. apply Nat.ltb_ge in H4.
      repeat split; assumption.
    + intros (F & H1 & H2 & H3 & H4).
      assert (N : PrimFloat.is_nan r = false) by (apply is_finite_not_nan; exact F).
      rewrite (ltb_negb_leb 0 r) in H1 by (assumption || reflexivity).
      apply negb_true_iff in H1.
      unfold validateReading, OCR_CONFIG.VALID_RANGE.min, OCR_CONFIG.VALID_RANGE.max,
        OCR_CONFIG.MAX_DECIMAL_PLACES, isNaN.
      rewrite N, F, H1. simpl.
      rewrite (ltb_negb_leb r 10), (ltb_negb_leb 999999 r) by (assumption || reflexivity).
      rewrite H2, H3. simpl.
      apply Nat.ltb_ge in H4. rewrite H4. reflexivity.
  - destruct (Outcome.valid (validateReading r)) eqn:E; [left; reflexivity|right].
    destruct (validateReading_invalid_error r E) as [e He]. eauto.
Qed.

(** Each check of [validateReading] at work. *)
Example validateReading_samples :
  validateReading 1245.8 = Outcome.pass /\
  validateReading 10 = Outcome.pass /\
  validateReading 999999 = Outcome.pass /\
  validateReading 999999.999 = Outcome.fail "Reading too large (maximum: 999999 kWh)" /\
  validateReading 9.999 = Outcome.fail "Reading too small (minimum: 10 kWh)" /\
  validateReading 12.3456 = Outcome.fail "Too many decimal places" /\
  validateReading 0 = Outcome.fail "Reading must be positive" /\
  validateReading (-5) = Outcome.fail "Reading must be positive" /\
  validateReading PrimFloat.nan = Outcome.fail "Invalid number format" /\
  validateReading PrimFloat.infinity = Outcome.fail "Invalid number format".
Proof. vm_compute. repeat split; reflexivity. Qed.

Lemma calculateConsumption_valid_readings (start end_ : float) :
  Outcome.valid (validateReading start) = true ->
  Outcome.valid (validateReading end_) = true ->
  calculateConsumption start end_ =
    if (end_ <=? start)%float then
      Outcome.fail "End reading must be greater than start reading"
    else if (end_ - start <? 0.1)%float then
      Outcome.fail "Consumption too low (< 0.1 kWh)"
    else if (200 <? end_ - start)%float then
      Outcome.fail "Consumption too high (> 200 kWh)"
    else {| Outcome.valid := true; Outcome.error := None;
            Outcome.consumption := Some (roundTo2 (end_ - start));
            Outcome.warnings := None |}.
Proof.
  intros H1 H2. unfold calculateConsumption. rewrite H1, H2. simpl.
  reflexivity.
Qed.

(** What [calculateConsumption] does on readings that pass
    [validateReading], in the terms of its own binary64 arithmetic: it
    succeeds exactly when [start < end] and the computed difference
    [end - start] lies in [0.1, 200], with [Math.round(cons * 100) / 100] as
    consumption; with [end <= start] it fails with the end-must-exceed-start
    error. When a reading fails validation the call fails with that
    reading's error, labelled with the reading it belongs to (the start
    reading's when both fail). *)
Lemma calculateConsumption_binary64 (start end_ : float) :
  (Outcome.valid (validateReading start) = true ->
   Outcome.valid (validateReading end_) = true ->
     (Outcome.valid (calculateConsumption start end_) = true <->
        (start <? end_)%float = true /\
        (0.1 <=? end_ - start)%float = true /\
        (end_ - start <=? 200)%float = true)
     /\ (Outcome.valid (calculateConsumption start end_) = true ->
         Outcome.consumption (calculateConsumption start end_)
         = Some (Math_round ((end_ - start) * 100) / 100)%float)
     /\ ((end_ <=? start)%float = true ->
         calculateConsumption start end_
         = Outcome.fail "End reading must be greater than start reading"))
  /\ (forall e, Outcome.valid (validateReading start) = false ->
        Outcome.error (validateReading start) = Some e ->
        calculateConsumption start end_ = Outcome.fail ("Start reading: " +:+ e))
  /\ (forall e, Outcome.valid (validateReading start) = true ->
        Outcome.valid (validateReading end_) = false ->
        Outcome.error (validateReading end_) = Some e ->
        calculateConsumption start end_ = Outcome.fail ("End reading: " +:+ e))
  /\ calculateConsumption 100 90
     = Outcome.fail "End reading must be greater than start reading".
Proof.
  split; [|split; [|split]].
  - intros H1 H2.
    rewrite (calculateConsumption_valid_readings _ _ H1 H2).
    apply validateReading_valid_inv in H1 as (N1 & F1 & _).
    apply validateReading_valid_inv in H2 as (N2 & F2 & _).
    unfold isNaN, isFinite in *.
    pose proof (sub_not_nan end_ start F2 F1) as Nc.
    rewrite (ltb_negb_leb start end_) by assumption.
    rewrite (ltb_negb_leb (end_ - start) 0.1) by (assumption || reflexivity).
    rewrite (ltb_negb_leb 200 (end_ - start)) by (assumption || reflexivity).
    destruct (end_ <=? start)%float; simpl.
    { split; [split|split]; try discriminate; try reflexivity.
      intros (H & _); discriminate. }
    destruct (0.1 <=? end_ - start)%float; simpl.
    2:{ split; [split|split]; try discriminate. intros (_ & H & _); discriminate. }
    destruct (end_ - start <=? 200)%float; simpl.
    2:{ split; [split|split]; try discriminate. intros (_ & _ & H); discriminate. }
    split; [split|split]; try discriminate; try reflexivity. auto.
  - intros e H1 He. unfold calculateConsumption, errorText. rewrite H1, He. reflexivity.
  - intros e H1 H2 He. unfold calculateConsumption, errorText. rewrite H1, H2, He. reflexivity.
  - vm_compute. reflexivity.
Qed.

(** The boundaries of C2 on concrete readings: a consumption is rounded to
    two decimals; 100.2 and 100.3 are valid readings whose binary64
    difference falls just short of 0.1; invalid readings are reported with
    their own error. *)
Example calculateConsumption_samples :
  calculateConsumption 100 150.456
  = {| Outcome.valid := true; Outcome.error := None;
       Outcome.consumption := Some 50.46%float; Outcome.warnings := None |} /\
  calculateConsumption 100 300
  = {| Outcome.valid := true; Outcome.error := None;
       Outcome.consumption := Some 200%float; Outcome.warnings := None |} /\
  calculateConsumption 100 300.5 = Outcome.fail "Consumption too high (> 200 kWh)" /\
  calculateConsumption 100.2 100.3 = Outcome.fail "Consumption too low (< 0.1 kWh)" /\
  calculateConsumption 100 100 = Outcome.fail "End reading must be greater than start reading" /\
  calculateConsumption 5 100
  = Outcome.fail "Start reading: Reading too small (minimum: 10 kWh)" /\
  calculateConsumption 100 100.12345
  = Outcome.fail "End reading: Too many decimal places" /\
  calculateConsumption 5 100.12345
  = Outcome.fail "Start reading: Reading too small (minimum: 10 kWh)".
Proof. vm_compute. repeat split; reflexivity. Qed.

(** The consumption of a successful call is a whole number of hundredths:
    the integer nearest to a hundred times the computed difference, halves
    up, divided by 100. *)
Lemma calculateConsumption_hundredths (start end_ c : float) :
  Outcome.valid (validateReading start) = true ->
  Outcome.valid (validateReading end_) = true ->
  Outcome.valid (calculateConsumption start end_) = true ->
  Outcome.consumption (calculateConsumption start end_) = Some c ->
  PrimFloat.is_finite ((end_ - start) * 100) = true ->
  exists k : Z,
    k = Qfloor (float2Q ((end_ - start) * 100) + (1 # 2))%Q
    /\ (k <> 0%Z -> c = (Z2float k / 100)%float).
Proof.
  intros H1 H2 V C F.
  destruct (calculateConsumption_binary64 start end_) as [S _].
  destruct (S H1 H2) as (_ & R & _). rewrite (R V) in C. injection C as <-.
  exists (Qfloor (float2Q ((end_ - start) * 100) + (1 # 2))%Q).
  split; [reflexivity|]. intros K. unfold Math_round.
  destruct (is_finite_SF _ F) as [[s E]|(s & m & e & E)]; rewrite E.
  - exfalso. apply K. unfold float2Q. rewrite E. reflexivity.
  - apply Z.eqb_neq in K. rewrite K. reflexivity.
Qed.

(** C2. At its two bounds [calculateConsumption] refuses what the bounds
    allow. The readings 100.1 and 300.1 pass [validateReading] and lie
    exactly 200 kWh apart, the largest consumption in [0.1, 200]; their
    binary64 difference is 200.00000000000003, and the call fails with the
    error that says the consumption is more than 200 kWh. The readings 100.2
    and 100.3 lie exactly 0.1 kWh apart, the smallest consumption allowed;
    their binary64 difference is 0.09999999999999432, and the call fails
    with the error that says it is less than 0.1 kWh. The service meets
    both: with 100.1 (100.2) stored as start reading, [validateConsumption]
    turns an end reading of 300.1 (100.3) down with these errors. *)
Theorem calculateConsumption_refuses_exact_bounds :
  (Outcome.valid (validateReading 100.1) = true
   /\ Outcome.valid (validateReading 300.1) = true
   /\ Q2float (1001 # 10) = 100.1%float /\ Q2float (3001 # 10) = 300.1%float
   /\ ((3001 # 10) - (1001 # 10) == 200)%Q
   /\ (300.1 - 100.1)%float = 200.00000000000003%float
   /\ calculateConsumption 100.1 300.1 = Outcome.fail "Consumption too high (> 200 kWh)")
  /\ (Outcome.valid (validateReading 100.2) = true
      /\ Outcome.valid (validateReading 100.3) = true
      /\ Q2float (1002 # 10) = 100.2%float /\ Q2float (1003 # 10) = 100.3%float
      /\ ((1003 # 10) - (1002 # 10) == 1 # 10)%Q
      /\ (100.3 - 100.2)%float = 0.09999999999999432%float
      /\ calculateConsumption 100.2 100.3 = Outcome.fail "Consumption too low (< 0.1 kWh)")
  /\ ConsumptionValidation.error
       (fst (PhotoVerification.validateConsumption "s2" 300.1 61000
               (sessionTable {[ "s2"%string := sessionStartedAt 1000 None "100.1" ]})))
     = Some "Consumption too high (> 200 kWh)"%string
  /\ ConsumptionValidation.error
       (fst (PhotoVerification.validateConsumption "s2" 100.3 61000
               (sessionTable {[ "s2"%string := sessionStartedAt 1000 None "100.2" ]})))
     = Some "Consumption too low (< 0.1 kWh)"%string.
Proof.
  split; [|split; [|split]].
  - repeat split; vm_compute; reflexivity.
  - repeat split; vm_compute; reflexivity.
  - vm_compute. reflexivity.
  - vm_compute. reflexivity.
Qed.

End ReadingValidator.

(* ================================================================== *)
(** * Context validation of a consumption *)
(* ================================================================== *)

Section ContextValidation.
Import JsNumber JsString OcrProcessor PhotoVerification.
Local Open Scope float_scope.

Lemma validateConsumptionWithContext_unfold
  (consumption durationMinutes chargerPowerKw : float) (battery : option float) :
  validateConsumptionWithContext consumption durationMinutes chargerPowerKw battery =
  let durationHours := durationMinutes / 60 in
  let theoreticalMax := durationHours * chargerPowerKw * 0.95 in
  let efficiency := (consumption / (durationHours * chargerPowerKw)) * 100 in
  if theoreticalMax * 1.15 <? consumption then
    Outcome.fail ("Consumption (" +:+ Number_toString consumption
                  +:+ " kWh) exceeds theoretical maximum ("
                  +:+ Number_toFixed theoreticalMax 1 +:+ " kWh)")
  else
    match battery with
    | Some capacity =>
        if truthy capacity && (capacity * 1.05 <? consumption) then
          Outcome.fail ("Consumption exceeds battery capacity ("
                        +:+ Number_toString capacity +:+ " kWh)")
        else
          {| Outcome.valid := true; Outcome.error := None; Outcome.consumption := None;
             Outcome.warnings := someUnlessEmpty
               ((if chargerPowerKw * 0.98 <? consumption / durationHours
                 then [nearLimitWarning] else []) ++
                (if efficiency <? 60 then [lowEfficiencyWarning efficiency] else [])) |}
    | None =>
          {| Outcome.valid := true; Outcome.error := None; Outcome.consumption := None;
             Outcome.warnings := someUnlessEmpty
               ((if chargerPowerKw * 0.98 <? consumption / durationHours
                 then [nearLimitWarning] else []) ++
                (if efficiency <? 60 then [lowEfficiencyWarning efficiency] else [])) |}
    end.
Proof.
  unfold validateConsumptionWithContext. cbv zeta.
  destruct (_ <? consumption); [reflexivity|].
  destruct battery as [capacity|]; [|reflexivity].
  destruct (truthy capacity && _); reflexivity.
Qed.

Lemma warningsOf_list (l : list string) (v : bool) (e : option string) (c : option float) :
  warningsOf {| Outcome.valid := v; Outcome.error := e; Outcome.consumption := c;
                Outcome.warnings := someUnlessEmpty l |} = l.
Proof. destruct l; reflexivity. Qed.

(** What the context validation does, in the terms of its own binary64
    arithmetic. [validateConsumptionWithContext] fails exactly when the
    consumption is above the computed product
    [durationHours * chargerPowerKw * 0.95 * 1.15], or above the computed
    [capacity * 1.05] of a supplied (non-zero) battery capacity; when it
    succeeds it carries no error and the warnings of the two computed
    comparisons. In the service, for a stored start reading and a valid
    reading pair, a session that has lasted under one minute is accepted
    with the pair's consumption whatever the charger power, and a longer
    one is decided by [validateConsumptionWithContext] on the session's
    duration and charger power, without battery capacity. *)
Lemma contextValidation_binary64 :
  (forall (consumption durationMinutes chargerPowerKw : float) (battery : option float),
     let outcome :=
       validateConsumptionWithContext consumption durationMinutes chargerPowerKw battery in
     let durationHours := durationMinutes / 60 in
     let efficiency := (consumption / (durationHours * chargerPowerKw)) * 100 in
     (Outcome.valid outcome = false <->
        ((durationHours * chargerPowerKw * 0.95) * 1.15 <? consumption) = true
        \/ exists capacity, battery = Some capacity /\ truthy capacity = true /\
                            (capacity * 1.05 <? consumption) = true)
     /\ (Outcome.valid outcome = true ->
         Outcome.error outcome = None /\
         warningsOf outcome =
           (if chargerPowerKw * 0.98 <? consumption / durationHours
            then [nearLimitWarning] else []) ++
           (if efficiency <? 60 then [lowEfficiencyWarning efficiency] else [])))
  /\ (forall (w : World) (session : string) (endReading : float) (now : Z)
             (row : SessionRow) (stored : string) (c : float),
        chargingSessions w !! session = Some row ->
        storedStartReading (Some row) = Some stored ->
        Outcome.valid (calculateConsumption (parseFloat stored) endReading) = true ->
        Outcome.consumption (calculateConsumption (parseFloat stored) endReading) = Some c ->
        ((sessionDurationMinutes row now <? 1) = true ->
           validateConsumption session endReading now w =
           ({| ConsumptionValidation.isValid := true;
               ConsumptionValidation.consumption := Some c;
               ConsumptionValidation.warnings :=
                 Some ["Duration too short for validation - using reading only"%string];
               ConsumptionValidation.error := None |}, w))
        /\ ((sessionDurationMinutes row now <? 1) = false ->
           let context :=
             validateConsumptionWithContext c (sessionDurationMinutes row now)
               (chargerPowerOf row) None in
           validateConsumption session endReading now w =
           ({| ConsumptionValidation.isValid := Outcome.valid context;
               ConsumptionValidation.consumption := Some c;
               ConsumptionValidation.warnings := Outcome.warnings context;
               ConsumptionValidation.error := Outcome.error context |}, w))).
Proof.
  split.
  - intros consumption durationMinutes chargerPowerKw battery. cbv zeta.
    rewrite validateConsumptionWithContext_unfold. cbv zeta.
    destruct (_ <? consumption) eqn:E1.
    { split; [split; [auto|reflexivity]|discriminate]. }
    destruct battery as [capacity|].
    + destruct (truthy capacity) eqn:T; simpl andb.
      * destruct (capacity * 1.05 <? consumption) eqn:E2.
        { split; [split; [eauto 6|reflexivity]|discriminate]. }
        split.
        { split; [discriminate|].
          intros [H|(cap & Hc & _ & H)]; [discriminate|].
          injection Hc as <-. congruence. }
        intros _. split; [reflexivity|]. apply warningsOf_list.
      * split.
        { split; [discriminate|].
          intros [H|(cap & Hc & H & _)]; [discriminate|].
          injection Hc as <-. congruence. }
        intros _. split; [reflexivity|]. apply warningsOf_list.
    + split.
      { split; [discriminate|].
        intros [H|(cap & Hc & _)]; discriminate. }
      intros _. split; [reflexivity|]. apply warningsOf_list.
  - intros w session endReading now row stored c Hrow Hstored Hv Hc.
    unfold validateConsumption, andThen, getSession, pure. rewrite Hrow, Hstored, Hv, Hc.
    simpl negb. cbv iota.
    split; intros ->; reflexivity.
Qed.

(** The example of the specification, and the boundaries around it. Over
    30 minutes on a 50 kW charger the theoretical maximum is 23.75 kWh; the
    product [23.75 * 1.15] is rounded to a binary64 value just below
    27.3125, so a consumption of exactly 27.3125 kWh already exceeds it. *)
Example validateConsumptionWithContext_samples :
  validateConsumptionWithContext 19 30 50 None = Outcome.pass /\
  validateConsumptionWithContext 27.31 30 50 None
  = {| Outcome.valid := true; Outcome.error := None; Outcome.consumption := None;
       Outcome.warnings :=
         Some ["Average power very close to charger limit – verify readings"%string] |} /\
  validateConsumptionWithContext 27.3125 30 50 None
  = Outcome.fail "Consumption (27.3125 kWh) exceeds theoretical maximum (23.8 kWh)" /\
  validateConsumptionWithContext 15 30 50 None = Outcome.pass /\
  warningsOf (validateConsumptionWithContext 14.99 30 50 None)
  = ["Low efficiency (60%) – may indicate partial charge"%string] /\
  warningsOf (validateConsumptionWithContext 24.6 30 50 None)
  = ["Average power very close to charger limit – verify readings"%string] /\
  validateConsumptionWithContext 19 30 50 (Some 18)
  = Outcome.fail "Consumption exceeds battery capacity (18 kWh)" /\
  validateConsumptionWithContext 19 30 50 (Some 0) = Outcome.pass /\
  Outcome.valid (validateConsumptionWithContext 5 0 50 None) = false.
Proof. vm_compute. repeat split; reflexivity. Qed.

(** The duration of a session in whole minutes: 59.999 s count as 0
    minutes and 60 s as 1; a session without any start time counts as 0. *)
Example sessionDurationMinutes_samples :
  sessionDurationMinutes (sessionStartedAt 1000 None "100") 60999 = 0%float
  /\ sessionDurationMinutes (sessionStartedAt 1000 None "100") 61000 = 1%float
  /\ sessionDurationMinutes (sessionStartedAt 1000 None "100") 1801000 = 30%float
  /\ chargerPowerOf (sessionStartedAt 1000 None "100") = 50%float
  /\ chargerPowerOf (sessionStartedAt 1000 (Some 7.4%float) "100") = 7.4%float.
Proof. vm_compute. repeat split; reflexivity. Qed.

(** The service on a session with start reading 100 on a 50 kW charger and
    an end reading of 130: within the first minute the 30 kWh are accepted
    on the readings alone; after 30 minutes they exceed what the charger can
    have delivered; 19 kWh after 30 minutes are accepted. *)
Example validateConsumption_samples :
  fst (validateConsumption "s2" 130 60999 worldWithSession)
  = {| ConsumptionValidation.isValid := true;
       ConsumptionValidation.consumption := Some 30%float;
       ConsumptionValidation.warnings :=
         Some ["Duration too short for validation - using reading only"%string];
       ConsumptionValidation.error := None |}
  /\ fst (validateConsumption "s2" 130 1801000 worldWithSession)
     = {| ConsumptionValidation.isValid := false;
          ConsumptionValidation.consumption := Some 30%float;
          ConsumptionValidation.warnings := None;
          ConsumptionValidation.error :=
            Some "Consumption (30 kWh) exceeds theoretical maximum (23.8 kWh)"%string |}
  /\ fst (validateConsumption "s2" 119 1801000 worldWithSession)
     = {| ConsumptionValidation.isValid := true;
          ConsumptionValidation.consumption := Some 19%float;
          ConsumptionValidation.warnings := None;
          ConsumptionValidation.error := None |}
  /\ ConsumptionValidation.error (fst (validateConsumption "s1" 130 60999 worldWithSession))
     = Some "Start reading not found"%string.
Proof. vm_compute. repeat split; reflexivity. Qed.

(** C7. At its thresholds the context validation does the opposite of
    its contract. After 60 minutes on a 100 kW charger the theoretical
    maximum is 95 kWh and 115% of it is exactly 109.25 kWh; the program
    computes [95 * 1.15] as 109.24999999999999, so a consumption of 109.25
    kWh, which does not exceed 115%, fails, in the service as well: an end
    reading of 1109.25 against a stored 1000. After 35 minutes on a 7.4 kW
    charger, 2.59 kWh are exactly 60% of what the charger can deliver; the
    program computes the efficiency as 59.999999999999986 and adds the
    low-efficiency warning, whose own text says 60%. A session of under one
    minute is accepted on the readings alone, as the contract says. *)
Theorem context_validation_misses_exact_thresholds :
  ((10925 # 100 == (60 # 60) * 100 * (95 # 100) * (115 # 100))%Q
   /\ Q2float (10925 # 100) = 109.25
   /\ 60 / 60 * 100 * 0.95 * 1.15 = 109.24999999999999
   /\ validateConsumptionWithContext 109.25 60 100 None
      = Outcome.fail
          "Consumption (109.25 kWh) exceeds theoretical maximum (95.0 kWh)"
   /\ fst (validateConsumption "s2" 1109.25 3601000
             (sessionTable {[ "s2"%string := sessionStartedAt 1000 (Some 100) "1000" ]}))
      = {| ConsumptionValidation.isValid := false;
           ConsumptionValidation.consumption := Some 109.25;
           ConsumptionValidation.warnings := None;
           ConsumptionValidation.error :=
             Some "Consumption (109.25 kWh) exceeds theoretical maximum (95.0 kWh)"%string |})
  /\ (((259 # 100) / ((35 # 60) * (74 # 10)) * 100 == 60)%Q
      /\ Q2float (259 # 100) = 2.59 /\ Q2float (74 # 10) = 7.4
      /\ 2.59 / (35 / 60 * 7.4) * 100 = 59.999999999999986
      /\ validateConsumptionWithContext 2.59 35 7.4 None
         = {| Outcome.valid := true; Outcome.error := None;
              Outcome.consumption := None;
              Outcome.warnings :=
                Some ["Low efficiency (60%) – may indicate partial charge"%string] |}
      /\ fst (validateConsumption "s2" 1002.59 2101000
                (sessionTable {[ "s2"%string := sessionStartedAt 1000 (Some 7.4) "1000" ]}))
         = {| ConsumptionValidation.isValid := true;
              ConsumptionValidation.consumption := Some 2.59;
              ConsumptionValidation.warnings :=
                Some ["Low efficiency (60%) – may indicate partial charge"%string];
              ConsumptionValidation.error := None |})
  /\ fst (validateConsumption "s2" 1109.25 60999
            (sessionTable {[ "s2"%string := sessionStartedAt 1000 (Some 100) "1000" ]}))
     = {| ConsumptionValidation.isValid := true;
          ConsumptionValidation.consumption := Some 109.25;
          ConsumptionValidation.warnings :=
            Some ["Duration too short for validation - using reading only"%string];
          ConsumptionValidation.error := None |}.
Proof.
  split; [|split].
  - repeat split; vm_compute; reflexivity.
  - repeat split; vm_compute; reflexivity.
  - vm_compute. reflexivity.
Qed.

End ContextValidation.

(* ================================================================== *)
(** * The confidence aggregator and the escalation ladder *)
(* ================================================================== *)

Section Aggregator.
Import JsNumber JsString OcrProcessor.

Lemma wordConfidence_bounds (d : Detection) : 70 <= wordConfidence d <= 100.
Proof.
  unfold wordConfidence.
  destruct (Regex.test false digit _), (Regex.test true _ _);
    destruct (vertices d) as [[|[|[|[|[|n]]]]]|]; lia.
Qed.

Lemma totalConfidence_bounds (words : list Detection) :
  70 * Z.of_nat (length words) <= totalConfidence words <= 100 * Z.of_nat (length words).
Proof.
  unfold totalConfidence.
  assert (G : forall acc,
    acc + 70 * Z.of_nat (length words)
    <= fold_left (fun total d => total + wordConfidence d) words acc
    <= acc + 100 * Z.of_nat (length words)).
  { induction words as [|d words IH]; intros acc; simpl fold_left.
    - simpl. lia.
    - specialize (IH (acc + wordConfidence d)).
      pose proof (wordConfidence_bounds d).
      change (length (d :: words)) with (S (length words)).
      rewrite Nat2Z.inj_succ. lia. }
  specialize (G 0). lia.
Qed.

Lemma avgConfidence_bounds (words : list Detection) :
  (70 <= avgConfidence words)%Q /\ (avgConfidence words <= 100)%Q.
Proof.
  destruct words as [|d words]; [split; discriminate|].
  unfold avgConfidence.
  pose proof (totalConfidence_bounds (d :: words)) as [Hlo Hhi].
  set (n := Z.of_nat (length (d :: words))) in *.
  assert (Hn : 0 < n) by (subst n; simpl length; lia).
  set (t := totalConfidence (d :: words)) in *.
  assert (Hq : (0 < inject_Z n)%Q) by (change 0%Q with (inject_Z 0); rewrite <- Zlt_Qlt; exact Hn).
  split.
  - apply Qle_shift_div_l; [exact Hq|].
    change 70%Q with (inject_Z 70). rewrite <- inject_Z_mult, <- Zle_Qle. lia.
  - apply Qle_shift_div_r; [exact Hq|].
    change 100%Q with (inject_Z 100). rewrite <- inject_Z_mult, <- Zle_Qle. lia.
Qed.

(** With text detected, [performOCR] succeeds with the average. *)
Lemma performOCR_with_text (full : Detection) (words : list Detection) :
  performOCR (VisionResolves (Some (full :: words)))
  = {| OcrAttempt.success := true;
       OcrAttempt.text := Some (trim (orEmpty (description full)));
       OcrAttempt.confidence := Some (avgConfidence words);
       OcrAttempt.error := None |}.
Proof.
  pose proof (avgConfidence_bounds words) as [Hlo _].
  assert (H30 : (OCR_CONFIG.MIN_OCR_CONFIDENCE * (1 # 2) <= avgConfidence words)%Q).
  { eapply Qle_trans; [|exact Hlo]. discriminate. }
  unfold performOCR, Qltb.
  apply Qle_bool_iff in H30. rewrite H30. reflexivity.
Qed.

(** C10. Whenever text was detected, every per-token confidence lies in
    [70, 100], and so does the aggregated average (70 when there is no
    token besides the aggregate block); the average is therefore never below
    half the acceptance threshold, and [performOCR] succeeds with it: the
    'Very low confidence OCR result' branch is not taken. *)
Theorem performOCR_confidence_bounds (full : Detection) (words : list Detection) :
  List.Forall (fun d => 70 <= wordConfidence d <= 100) words
  /\ avgConfidence [] = 70%Q
  /\ (70 <= avgConfidence words)%Q /\ (avgConfidence words <= 100)%Q
  /\ ~ (avgConfidence words < OCR_CONFIG.MIN_OCR_CONFIDENCE * (1 # 2))%Q
  /\ performOCR (VisionResolves (Some (full :: words)))
     = {| OcrAttempt.success := true;
          OcrAttempt.text := Some (trim (orEmpty (description full)));
          OcrAttempt.confidence := Some (avgConfidence words);
          OcrAttempt.error := None |}.
Proof.
  pose proof (avgConfidence_bounds words) as [Hlo Hhi].
  refine (conj _ (conj eq_refl (conj Hlo (conj Hhi (conj _ _))))).
  - clear. induction words as [|d words IH]; constructor.
    + apply wordConfidence_bounds.
    + exact IH.
  - apply Qle_not_lt. eapply Qle_trans; [|exact Hlo]. discriminate.
  - apply performOCR_with_text.
Qed.

(** [performOCR] never returns a confidence that the ladder regards as
    low: it is 0 without text, absent after a rejected call, and at least
    70 with text. *)
Lemma performOCR_never_low (response : VisionResponse) :
  lowConfidence (performOCR response) = false.
Proof.
  destruct response as [message|[[|full words]|]]; try reflexivity.
  - unfold performOCR. destruct message as [m|]; [|reflexivity].
    destruct (includes m _); [reflexivity|]. destruct (includes m _); reflexivity.
  - rewrite performOCR_with_text.
    pose proof (avgConfidence_bounds words) as [Hlo _].
    unfold lowConfidence, OcrAttempt.confidence, Qltb.
    assert (H : (OCR_CONFIG.MIN_OCR_CONFIDENCE <= avgConfidence words)%Q).
    { eapply Qle_trans; [|exact Hlo]. discriminate. }
    apply Qle_bool_iff in H. rewrite H. apply andb_false_r.
Qed.

End Aggregator.

Section EscalationLadder.
Import JsNumber JsString OcrProcessor.

(** What the ladder does, rung by rung: the aggressive strategy is tried
    exactly when the standard attempt has a non-zero confidence below the
    threshold, and the adaptive threshold exactly when the attempt then in
    hand again has one. *)
Lemma extractKwhReading_calls (rungs : Strategy -> Rung) :
  fst (extractKwhReading rungs) =
  match rungs Standard with
  | Throws _ => []
  | Answers first =>
      if lowConfidence first then
        match rungs Aggressive with
        | Throws _ => [Standard]
        | Answers second =>
            if lowConfidence second then
              match rungs AdaptiveThreshold with
              | Throws _ => [Standard; Aggressive]
              | Answers _ => [Standard; Aggressive; AdaptiveThreshold]
              end
            else [Standard; Aggressive]
        end
      else [Standard]
  end.
Proof.
  unfold extractKwhReading, runOCR, bind, ret.
  destruct (rungs Standard) as [e1|first]; [reflexivity|].
  destruct (lowConfidence first) eqn:L1; simpl.
  - destruct (rungs Aggressive) as [e2|second]; [reflexivity|].
    destruct (lowConfidence second) eqn:L2; simpl; [|reflexivity].
    destruct (rungs AdaptiveThreshold) as [e3|third]; reflexivity.
  - rewrite ?L1. reflexivity.
Qed.

(** The rule of escalation on one rung: an attempt sends the ladder on
    exactly when its confidence is there, is not 0, and is below the
    threshold of 60. *)
Lemma lowConfidence_iff (attempt : OcrAttempt.t) :
  lowConfidence attempt = true <->
  exists c, OcrAttempt.confidence attempt = Some c /\ ~ (c == 0)%Q /\ (c < 60)%Q.
Proof.
  unfold lowConfidence, Qltb, OCR_CONFIG.MIN_OCR_CONFIDENCE.
  destruct (OcrAttempt.confidence attempt) as [c|].
  - rewrite andb_true_iff, !negb_true_iff.
    split.
    + intros [H1 H2]. exists c. split; [reflexivity|]. split.
      * intros E. apply Qeq_bool_iff in E. congruence.
      * apply Qnot_le_lt. intros L. apply Qle_bool_iff in L. congruence.
    + intros (c' & E & H1 & H2). injection E as <-. split.
      * destruct (Qeq_bool c 0) eqn:B; [|reflexivity].
        apply Qeq_bool_iff in B. contradiction.
      * destruct (Qle_bool 60 c) eqn:B; [|reflexivity].
        apply Qle_bool_iff in B. exfalso. exact (Qlt_not_le _ _ H2 B).
  - split; [discriminate|]. intros (c & E & _). discriminate.
Qed.

(** C5. [extractKwhReading] issues at most 3 OCR calls, one per strategy
    and in the order of the ladder; when the three strategies answer with
    confidences 55, 58 and 59 it issues exactly the three calls and reports
    what it makes of the third answer. *)
Theorem extractKwhReading_at_most_three (rungs : Strategy -> Rung) :
  (length (fst (extractKwhReading rungs)) <= 3)%nat
  /\ (exists n, fst (extractKwhReading rungs)
                = firstn n [Standard; Aggressive; AdaptiveThreshold])
  /\ (forall a1 a2 a3 : OcrAttempt.t,
        rungs Standard = Answers a1 -> OcrAttempt.confidence a1 = Some 55%Q ->
        rungs Aggressive = Answers a2 -> OcrAttempt.confidence a2 = Some 58%Q ->
        rungs AdaptiveThreshold = Answers a3 -> OcrAttempt.confidence a3 = Some 59%Q ->
        extractKwhReading rungs
        = ([Standard; Aggressive; AdaptiveThreshold], evaluate a3)).
Proof.
  split; [|split].
  - rewrite extractKwhReading_calls.
    destruct (rungs Standard); [simpl; lia|].
    destruct (lowConfidence _); [|simpl; lia].
    destruct (rungs Aggressive); [simpl; lia|].
    destruct (lowConfidence _); [|simpl; lia].
    destruct (rungs AdaptiveThreshold); simpl; lia.
  - rewrite extractKwhReading_calls.
    destruct (rungs Standard); [exists 0%nat; reflexivity|].
    destruct (lowConfidence _); [|exists 1%nat; reflexivity].
    destruct (rungs Aggressive); [exists 1%nat; reflexivity|].
    destruct (lowConfidence _); [|exists 2%nat; reflexivity].
    destruct (rungs AdaptiveThreshold); [exists 2%nat|exists 3%nat]; reflexivity.
  - intros a1 a2 a3 R1 C1 R2 C2 R3 C3.
    unfold extractKwhReading, runOCR, bind, ret.
    rewrite R1. unfold lowConfidence at 1. rewrite C1. simpl.
    rewrite R2. unfold lowConfidence at 1. rewrite C2. simpl.
    rewrite R3. reflexivity.
Qed.

(** The sequence 55, 58, 59 run through the ladder: three calls, and the
    third answer (still below the threshold) is what gets evaluated. *)
Example extractKwhReading_55_58_59 :
  extractKwhReading rungs_55_58_59
  = ([Standard; Aggressive; AdaptiveThreshold],
     {| OCRResult.success := true; OCRResult.reading := Some 1245.8%float;
        OCRResult.confidence := Some 59%Q;
        OCRResult.rawText := Some "METER: 1245.8 KWH"%string;
        OCRResult.error := None; OCRResult.suggestions := None |}).
Proof. vm_compute. reflexivity. Qed.

(** C4, on the code. When the standard attempt detects no text, its
    confidence is 0, which is below the threshold of 60, and yet the ladder
    stops there: the aggressive strategy is not tried and the failure of
    the standard attempt is reported. *)
Theorem no_text_stops_the_ladder (imageBuffer : Image) :
  imageBuffer Standard = inr (VisionResolves None) ->
  OcrAttempt.confidence (performOCR (VisionResolves None)) = Some 0%Q
  /\ (0 < OCR_CONFIG.MIN_OCR_CONFIDENCE)%Q
  /\ fst (extractKwhReading (rungsOf imageBuffer)) = [Standard]
  /\ OCRResult.success (snd (extractKwhReading (rungsOf imageBuffer))) = false
  /\ OCRResult.error (snd (extractKwhReading (rungsOf imageBuffer)))
     = Some "No text detected in image"%string.
Proof.
  intros H. split; [reflexivity|]. split; [reflexivity|].
  unfold extractKwhReading, runOCR, bind, ret, rungsOf. rewrite H.
  repeat split; reflexivity.
Qed.

Lemma no_text_stops_the_ladder_witness :
  blankThenClear Standard = inr (VisionResolves None)
  /\ fst (extractKwhReading (rungsOf blankThenClear)) = [Standard].
Proof.
  split; [reflexivity|].
  exact (proj1 (proj2 (proj2 (no_text_stops_the_ladder blankThenClear eq_refl)))).
Defined.

(** On images, the ladder never goes past its first rung: whatever the
    text-detection service answers, the attempt is not one the ladder
    regards as low. *)
Lemma ladder_never_escalates (imageBuffer : Image) :
  fst (extractKwhReading (rungsOf imageBuffer)) = [] \/
  fst (extractKwhReading (rungsOf imageBuffer)) = [Standard].
Proof.
  rewrite extractKwhReading_calls.
  destruct (rungsOf imageBuffer Standard) as [e|first] eqn:E; [left; reflexivity|].
  unfold rungsOf in E. destruct (imageBuffer Standard) as [e|response]; [discriminate|].
  injection E as <-. rewrite performOCR_never_low. right; reflexivity.
Qed.

End EscalationLadder.

Section PatternStage.
Import JsNumber JsString OcrProcessor.

(** C3, on the code. The text [METER: 1245.8 KWH] is read as 1245.8 by the
    pattern stage, through the first pattern. But the first pattern needs
    no anchor: [12345], which mentions none, is returned by the pattern
    stage as well, and in [UNIT 12 METER: 4500 KWH] the unanchored 12 is
    returned although 4500 stands next to [METER:]. *)
Theorem pattern_stage_needs_no_anchor :
  patternStage "METER: 1245.8 KWH" = Some 1245.8%float
  /\ option_map Regex.whole
       (Regex.exec true (nth 0 kwhPatterns Regex.Eps) (cleanText "METER: 1245.8 KWH"))
     = Some ": 1245.8"%string
  /\ extractReadingFromText "METER: 1245.8 KWH" = Some 1245.8%float
  /\ mentionsAnchor (cleanText "12345") = false
  /\ patternStage "12345" = Some 12345%float
  /\ extractReadingFromText "12345" = Some 12345%float
  /\ mentionsAnchor (cleanText "UNIT 12 METER: 4500 KWH") = true
  /\ patternStage "UNIT 12 METER: 4500 KWH" = Some 12%float.
Proof. vm_compute. repeat split; reflexivity. Qed.

End PatternStage.

(* ================================================================== *)
(** * The verification workflow *)
(* ================================================================== *)

Section Workflow.
Import JsNumber JsString OcrProcessor PhotoVerification.

(** The world once a photo of the expected kind has been counted and run
    through the extraction pipeline. *)
Lemma handleOCRFailure_states (user : string) (state : VerificationState)
  (error : option string) (w : World) :
  states (snd (handleOCRFailure user state error w)) = states w
  /\ ocrCalls (snd (handleOCRFailure user state error w)) = ocrCalls w.
Proof.
  unfold handleOCRFailure.
  destruct (OCR_CONFIG.maxAttempts <=? attemptCount state); split; reflexivity.
Qed.

Lemma handleLowConfidence_states (user : string) (state : VerificationState)
  (confidence : Q) (w : World) :
  states (snd (handleLowConfidence user state confidence w)) = states w
  /\ ocrCalls (snd (handleLowConfidence user state confidence w)) = ocrCalls w.
Proof.
  unfold handleLowConfidence.
  destruct (OCR_CONFIG.maxAttempts <=? attemptCount state); split; reflexivity.
Qed.

Lemma validateConsumption_world (session : string) (endReading : float) (now : Z)
  (w : World) :
  snd (validateConsumption session endReading now w) = w.
Proof.
  unfold validateConsumption, andThen, getSession, pure.
  destruct (chargingSessions w !! session) as [row|]; [|reflexivity].
  destruct (storedStartReading (Some row)); [|reflexivity].
  destruct (negb _); [reflexivity|].
  destruct (_ <? _)%float; reflexivity.
Qed.

(** [handleStartPhoto] when a start photo is expected. *)
Lemma handleStartPhoto_expected (user : string) (imageBuffer : Image) (w : World)
  (state : VerificationState) :
  states w !! user = Some state -> type state = start ->
  handleStartPhoto user imageBuffer w =
  let ocrResult := snd (extractKwhReading (rungsOf imageBuffer)) in
  let counted := bumpAttempt state in
  let w1 := photoCounted user state imageBuffer w in
  match usableReading ocrResult with
  | None => handleOCRFailure user counted (OCRResult.error ocrResult) w1
  | Some reading =>
      let confidence := confidenceOrZero ocrResult in
      if Qltb confidence OCR_CONFIG.MIN_OCR_CONFIDENCE then
        handleLowConfidence user counted confidence w1
      else
        ({| PhotoResult.success := true;
            PhotoResult.reading := Some reading;
            PhotoResult.confidence := Some confidence;
            PhotoResult.message := "Reading detected. Awaiting confirmation.";
            PhotoResult.shouldRetry := None |},
         {| states := <[user := withReading counted reading confidence (ocrProvider counted)]>
                        (states w1);
            ocrMetrics := countSuccess confidence (ocrMetrics w1);
            chargingSessions := chargingSessions w1;
            outbox := (outbox w1 ++ [(user, ReadingConfirmation reading start confidence)])%list;
            ocrCalls := ocrCalls w1 |})
  end.
Proof.
  intros Hs Ht. unfold handleStartPhoto, andThen, getState. rewrite Hs, Ht.
  simpl. unfold callExtractKwhReading, photoCounted. simpl.
  destruct (extractKwhReading (rungsOf imageBuffer)) as [calls ocrResult]. simpl.
  destruct (usableReading ocrResult) as [reading|]; [|reflexivity].
  destruct (Qltb _ _); reflexivity.
Qed.

(** [handleEndPhoto] when an end photo is expected. *)
Lemma handleEndPhoto_expected (user : string) (imageBuffer : Image) (now : Z) (w : World)
  (state : VerificationState) :
  states w !! user = Some state -> type state = end_ ->
  exists w',
    snd (handleEndPhoto user imageBuffer now w) = w'
    /\ ocrCalls w' = ocrCalls (photoCounted user state imageBuffer w)
    /\ attemptCount <$> states w' !! user = Some (attemptCount state + 1).
Proof.
  intros Hs Ht. eexists; split; [reflexivity|].
  unfold handleEndPhoto, andThen, getState. rewrite Hs, Ht.
  simpl. unfold callExtractKwhReading, photoCounted. simpl.
  destruct (extractKwhReading (rungsOf imageBuffer)) as [calls ocrResult]. simpl.
  destruct (usableReading ocrResult) as [reading|].
  - destruct (Qltb _ _).
    + match goal with |- context [handleLowConfidence ?u ?s ?c ?w0] =>
        destruct (handleLowConfidence_states u s c w0) as [-> ->] end.
      simpl. rewrite lookup_insert_eq. split; reflexivity.
    + match goal with |- context [validateConsumption ?s ?r ?n ?w0] =>
        pose proof (validateConsumption_world s r n w0) as Hw;
        destruct (validateConsumption s r n w0) as [validation w2] end.
      simpl in Hw. subst w2.
      destruct (negb _); simpl; rewrite ?lookup_insert_eq; split; reflexivity.
  - match goal with |- context [handleOCRFailure ?u ?s ?e ?w0] =>
      destruct (handleOCRFailure_states u s e w0) as [-> ->] end.
    simpl. rewrite lookup_insert_eq. split; reflexivity.
Qed.

Lemma handleManualEntry_attempts (user input : string) (now : Z) (w : World)
  (state : VerificationState) :
  states w !! user = Some state ->
  attemptsOf (snd (handleManualEntry user input now w)) user = Some (attemptCount state).
Proof.
  intros Hs. unfold attemptsOf, handleManualEntry, andThen, getState. rewrite Hs.
  destruct (negb (Outcome.valid _)); [simpl; rewrite Hs; reflexivity|].
  destruct (type state).
  - simpl. rewrite lookup_insert_eq. reflexivity.
  - unfold andThen.
    match goal with |- context [validateConsumption ?s ?r ?n ?w0] =>
      pose proof (validateConsumption_world s r n w0) as Hw;
      destruct (validateConsumption s r n w0) as [validation w2] end.
    simpl in Hw. subst w2.
    destruct (negb _); simpl; rewrite ?lookup_insert_eq, ?Hs; reflexivity.
Qed.

(** C9, as the code has it. The attempt count is 0 when a verification
    state is created, and grows by exactly 1 with every photo of the kind
    the state is waiting for (start or end), whatever the outcome of the
    attempt; a photo of the other kind and a manual text entry, accepted or
    not, leave it as it is. *)
Theorem attemptCount_counts_photos :
  (forall (w : World) (user session : string) (station now : Z),
     attemptsOf (snd (initiateStartVerification user session station now w)) user = Some 0)
  /\ (forall (w : World) (user session : string) (station now : Z),
        fst (initiateEndVerification user session station now w) = inr tt ->
        attemptsOf (snd (initiateEndVerification user session station now w)) user = Some 0)
  /\ (forall (w : World) (user : string) (imageBuffer : Image) (state : VerificationState),
        states w !! user = Some state -> type state = start ->
        attemptsOf (snd (handleStartPhoto user imageBuffer w)) user
        = Some (attemptCount state + 1))
  /\ (forall (w : World) (user : string) (imageBuffer : Image) (now : Z)
             (state : VerificationState),
        states w !! user = Some state -> type state = end_ ->
        attemptsOf (snd (handleEndPhoto user imageBuffer now w)) user
        = Some (attemptCount state + 1))
  /\ (forall (w : World) (user : string) (imageBuffer : Image) (state : VerificationState),
        states w !! user = Some state -> type state = end_ ->
        attemptsOf (snd (handleStartPhoto user imageBuffer w)) user
        = Some (attemptCount state))
  /\ (forall (w : World) (user input : string) (now : Z) (state : VerificationState),
        states w !! user = Some state ->
        attemptsOf (snd (handleManualEntry user input now w)) user
        = Some (attemptCount state)).
Proof.
  repeat apply conj.
  - intros. unfold attemptsOf. simpl. rewrite lookup_insert_eq. reflexivity.
  - intros w user session station now.
    unfold attemptsOf, initiateEndVerification, andThen, getSession, pure.
    destruct (chargingSessions w !! session) as [[[r|] ? ? ? ? ? ?]|]; simpl;
      try discriminate.
    destruct (String.eqb r ""); simpl; [discriminate|].
    intros _. rewrite lookup_insert_eq. reflexivity.
  - intros w user imageBuffer state Hs Ht. unfold attemptsOf.
    rewrite (handleStartPhoto_expected _ _ _ _ Hs Ht). cbv zeta.
    destruct (usableReading _) as [reading|].
    + destruct (Qltb _ _).
      * match goal with |- context [handleLowConfidence ?u ?s ?c ?w0] =>
          destruct (handleLowConfidence_states u s c w0) as [-> _] end.
        simpl. rewrite lookup_insert_eq. reflexivity.
      * simpl. rewrite lookup_insert_eq. reflexivity.
    + match goal with |- context [handleOCRFailure ?u ?s ?e ?w0] =>
        destruct (handleOCRFailure_states u s e w0) as [-> _] end.
      simpl. rewrite lookup_insert_eq. reflexivity.
  - intros w user imageBuffer now state Hs Ht.
    destruct (handleEndPhoto_expected user imageBuffer now w state Hs Ht)
      as (w' & <- & _ & H). exact H.
  - intros w user imageBuffer state Hs Ht. unfold attemptsOf.
    unfold handleStartPhoto, andThen, getState. rewrite Hs, Ht. simpl.
    rewrite Hs. reflexivity.
  - intros w user input now state Hs. apply handleManualEntry_attempts. exact Hs.
Qed.

(** C9, as stated, fails on a manual entry: [u1] has been asked for a start
    photo and has made no attempt; the typed reading 1245.8 is accepted,
    and the attempt count is still 0, not 1. *)
Lemma manual_entry_is_not_counted :
  attemptsOf awaitingStartPhoto "u1" = Some 0
  /\ fst (handleManualEntry "u1" "1245.8" 2000 awaitingStartPhoto) = true
  /\ attemptsOf (snd (handleManualEntry "u1" "1245.8" 2000 awaitingStartPhoto)) "u1"
     = Some 0.
Proof. vm_compute. repeat split; reflexivity. Qed.

(** [handleStartPhoto] on a photo that is expected, by what the pipeline
    returns. The OCR calls of the pipeline are issued whatever the attempt
    count. When the pipeline's result is turned down (no usable reading,
    or low confidence) and the attempt just counted reaches [maxAttempts],
    this very submission ends in the manual-entry fallback: the session is
    flagged, the user is asked to type the reading, and no retry is
    requested; below [maxAttempts] a retry is requested instead; a result
    that is not turned down is accepted. *)
Lemma photo_runs_ocr_then_may_fall_back
  (w : World) (user : string) (imageBuffer : Image) (state : VerificationState) :
  states w !! user = Some state -> type state = start ->
  let ocrResult := snd (extractKwhReading (rungsOf imageBuffer)) in
  let after := handleStartPhoto user imageBuffer w in
  ocrCalls (snd after)
  = (ocrCalls w ++ fst (extractKwhReading (rungsOf imageBuffer)))%list
  /\ (attemptRejected ocrResult = true ->
      OCR_CONFIG.maxAttempts <= attemptCount state + 1 ->
      fst after = manualEntryResult
      /\ outbox (snd after) = (outbox w ++ [(user, ManualEntryRequired start)])%list
      /\ chargingSessions (snd after)
         = alter setManualEntryUsed (sessionId state) (chargingSessions w))
  /\ (attemptRejected ocrResult = true ->
      attemptCount state + 1 < OCR_CONFIG.maxAttempts ->
      PhotoResult.success (fst after) = false
      /\ PhotoResult.shouldRetry (fst after) = Some true)
  /\ (attemptRejected ocrResult = false ->
      PhotoResult.success (fst after) = true
      /\ PhotoResult.reading (fst after) = OCRResult.reading ocrResult).
Proof.
  intros Hs Ht. cbv zeta.
  rewrite (handleStartPhoto_expected _ _ _ _ Hs Ht). cbv zeta.
  unfold attemptRejected.
  set (ocrResult := snd (extractKwhReading (rungsOf imageBuffer))).
  destruct (usableReading ocrResult) as [reading|] eqn:Hu.
  - destruct (Qltb _ _) eqn:Hq.
    + unfold handleLowConfidence, fallbackToManualEntry, andThen, updateSession, send, pure.
      simpl. rewrite Ht.
      destruct (Z.leb_spec OCR_CONFIG.maxAttempts (attemptCount state + 1)) as [Hm|Hm];
        simpl; repeat split; try reflexivity; try discriminate; lia.
    + repeat split; try reflexivity; try discriminate.
      unfold usableReading in Hu. simpl.
      destruct (OCRResult.success ocrResult); [|discriminate].
      destruct (OCRResult.reading ocrResult) as [r|]; [|discriminate].
      destruct (truthy r); congruence.
  - unfold handleOCRFailure, fallbackToManualEntry, andThen, updateSession, send, pure.
    simpl. rewrite Ht.
    destruct (Z.leb_spec OCR_CONFIG.maxAttempts (attemptCount state + 1)) as [Hm|Hm];
      simpl; repeat split; try reflexivity; try discriminate; lia.
Qed.

Lemma photo_runs_ocr_then_may_fall_back_witness :
  states afterThreeBlankPhotos !! "u1"%string = Some stateAfterThree
  /\ type stateAfterThree = start
  /\ ocrCalls (snd (handleStartPhoto "u1" blankImage afterThreeBlankPhotos))
     = (ocrCalls afterThreeBlankPhotos
        ++ fst (extractKwhReading (rungsOf blankImage)))%list.
Proof.
  refine (conj _ (conj eq_refl _)).
  - vm_compute. reflexivity.
  - apply (photo_runs_ocr_then_may_fall_back afterThreeBlankPhotos "u1" blankImage
             stateAfterThree).
    + vm_compute. reflexivity.
    + reflexivity.
Defined.

(** A run that reaches the cap: after three photos without text the
    attempt count of [u1] is 3, the third of them having ended in the
    manual-entry fallback; a fourth photo, of a clear display, is run
    through OCR all the same (one more call) and is accepted. *)
Lemma photo_after_cap_still_runs_ocr :
  attemptsOf afterThreeBlankPhotos "u1" = Some 3
  /\ last (outbox afterThreeBlankPhotos) = Some ("u1"%string, ManualEntryRequired start)
  /\ ocrCalls afterThreeBlankPhotos = [Standard; Standard; Standard]
  /\ ocrCalls (snd (handleStartPhoto "u1" clearImage afterThreeBlankPhotos))
     = [Standard; Standard; Standard; Standard]
  /\ PhotoResult.success (fst (handleStartPhoto "u1" clearImage afterThreeBlankPhotos))
     = true
  /\ PhotoResult.reading (fst (handleStartPhoto "u1" clearImage afterThreeBlankPhotos))
     = Some 1245.8%float.
Proof. vm_compute. repeat split; reflexivity. Qed.

(** The retake path does look at the cap before it asks for a photo: at
    three attempts it goes to manual entry, and it issues no OCR call. *)
Example retake_at_cap_goes_to_manual_entry :
  outbox (snd (retakeStartPhoto "u1" afterThreeBlankPhotos))
  = (outbox afterThreeBlankPhotos ++ [("u1"%string, ManualEntryRequired start)])%list
  /\ ocrCalls (snd (retakeStartPhoto "u1" afterThreeBlankPhotos))
     = ocrCalls afterThreeBlankPhotos.
Proof. vm_compute. split; reflexivity. Qed.

End Workflow.

(* ================================================================== *)
(** * Ranking of candidates *)
(* ================================================================== *)

(** [Array_sort] under a comparison function that decides an order [R] on
    the elements satisfying [ok]. *)
Section ArraySortFacts.
Import OcrProcessor.
Context {A : Type}.
Variable compareFn : A -> A -> float.
Variable R : A -> A -> Prop.
Variable ok : A -> Prop.

Hypothesis behind : forall x y, ok x -> ok y ->
  PrimFloat.ltb 0 (compareFn x y) = true -> R y x.
Hypothesis ahead : forall x y, ok x -> ok y ->
  PrimFloat.ltb 0 (compareFn x y) = false <-> R x y.
Hypothesis R_trans : forall x y z, ok x -> ok y -> ok z -> R x y -> R y z -> R x z.

Lemma insertSorted_perm (x : A) (l : list A) :
  Permutation (x :: l) (insertSorted compareFn x l).
Proof.
  induction l as [|y l IH]; simpl.
  - apply Permutation_refl.
  - destruct (PrimFloat.ltb 0 (compareFn x y)).
    + eapply perm_trans; [apply perm_swap|]. apply perm_skip. exact IH.
    + apply Permutation_refl.
Qed.

Lemma Array_sort_perm (l : list A) : Permutation l (Array_sort compareFn l).
Proof.
  induction l as [|x l IH]; simpl.
  - apply perm_nil.
  - eapply perm_trans; [apply perm_skip; exact IH|]. apply insertSorted_perm.
Qed.

Lemma Array_sort_ok (l : list A) : List.Forall ok l -> List.Forall ok (Array_sort compareFn l).
Proof.
  intros H. eapply Permutation_Forall; [apply Array_sort_perm|exact H].
Qed.

Lemma insertSorted_sorted (x : A) (l : list A) :
  ok x -> List.Forall ok l -> Sorted R l -> Sorted R (insertSorted compareFn x l).
Proof.
  intros Hx. induction l as [|y l IH]; intros Hl Hs; simpl.
  - constructor; constructor.
  - inversion Hl as [|? ? Hy Hl']; subst. inversion Hs as [|? ? Hs' Hd]; subst.
    destruct (PrimFloat.ltb 0 (compareFn x y)) eqn:E.
    + constructor; [apply IH; assumption|].
      destruct l as [|z l]; simpl.
      * constructor. apply behind; assumption.
      * destruct (PrimFloat.ltb 0 (compareFn x z)).
        -- constructor. inversion Hd; assumption.
        -- constructor. apply behind; assumption.
    + constructor; [exact Hs|]. constructor. apply ahead; assumption.
Qed.

Lemma Array_sort_sorted (l : list A) :
  List.Forall ok l -> Sorted R (Array_sort compareFn l).
Proof.
  induction l as [|x l IH]; intros H; simpl.
  - constructor.
  - inversion H; subst. apply insertSorted_sorted; auto using Array_sort_ok.
Qed.

(** A sorted array is left as it is. *)
Lemma Array_sort_fixed (l : list A) :
  List.Forall ok l -> Sorted R l -> Array_sort compareFn l = l.
Proof.
  induction l as [|x l IH]; intros H Hs; simpl; [reflexivity|].
  inversion H as [|? ? Hx Hl]; subst. inversion Hs as [|? ? Hs' Hd]; subst.
  rewrite IH by assumption.
  destruct l as [|y l]; simpl; [reflexivity|].
  inversion Hl; subst. inversion Hd; subst.
  assert (E : PrimFloat.ltb 0 (compareFn x y) = false) by (apply ahead; assumption).
  rewrite E. reflexivity.
Qed.

Lemma Sorted_strongly (l : list A) :
  List.Forall ok l -> Sorted R l -> StronglySorted R l.
Proof.
  induction l as [|x l IH]; intros H Hs; [constructor|].
  inversion H as [|? ? Hx Hl]; subst. inversion Hs as [|? ? Hs' Hd]; subst.
  specialize (IH Hl Hs').
  constructor; [exact IH|].
  destruct l as [|y l]; [constructor|].
  inversion Hd; subst. inversion IH as [|? ? _ Hall]; subst.
  inversion Hl as [|? ? Hy Hl']; subst.
  constructor; [assumption|].
  rewrite List.Forall_forall in *. intros z Hz.
  apply (R_trans x y z); auto.
Qed.

End ArraySortFacts.

Section Ranking.
Import JsNumber JsString OcrProcessor.

Lemma isValidReading_finite (v : float) :
  isValidReading v = true -> PrimFloat.is_finite v = true.
Proof.
  unfold isValidReading, isFinite. rewrite !andb_true_iff. tauto.
Qed.

Lemma isValidReading_units (v : float) :
  isValidReading v = true -> 0 < floatUnits v.
Proof.
  intros H. pose proof (isValidReading_finite v H) as F.
  unfold isValidReading in H. rewrite !andb_true_iff in H.
  destruct H as [[_ H] _]. unfold OCR_CONFIG.VALID_RANGE.min in H.
  rewrite leb_units in H by (exact F || reflexivity).
  apply Z.leb_le in H.
  assert (P : (0 <? floatUnits 10) = true) by (vm_compute; reflexivity).
  apply Z.ltb_lt in P. lia.
Qed.

Lemma compareCandidates_sign (a b : Candidate.t) :
  scannedCandidate a -> scannedCandidate b ->
  PrimFloat.ltb 0 (compareCandidates a b) =
  if Candidate.confidence b =? Candidate.confidence a
  then floatUnits (Candidate.value a) <? floatUnits (Candidate.value b)
  else Candidate.confidence a <? Candidate.confidence b.
Proof.
  intros [Va Ca] [Vb Cb]. unfold compareCandidates.
  destruct (Z.eqb_spec (Candidate.confidence b) (Candidate.confidence a)) as [E|E]; simpl negb.
  - cbv iota.
    rewrite sub_pos_ltb by (apply isValidReading_finite; assumption).
    apply ltb_units; apply isValidReading_finite; assumption.
  - cbv iota. rewrite Z2float_sign_small by lia.
    destruct (Z.ltb_spec 0 (Candidate.confidence b - Candidate.confidence a)),
             (Z.ltb_spec (Candidate.confidence a) (Candidate.confidence b)); lia || reflexivity.
Qed.

Lemma ranksBefore_units (a b : Candidate.t) :
  scannedCandidate a -> scannedCandidate b ->
  ranksBefore a b <->
  Candidate.confidence b < Candidate.confidence a
  \/ (Candidate.confidence a = Candidate.confidence b
      /\ floatUnits (Candidate.value b) <= floatUnits (Candidate.value a)).
Proof.
  intros [Va _] [Vb _]. unfold ranksBefore.
  rewrite leb_units by (apply isValidReading_finite; assumption).
  rewrite Z.leb_le. reflexivity.
Qed.

Lemma compareCandidates_behind (a b : Candidate.t) :
  scannedCandidate a -> scannedCandidate b ->
  PrimFloat.ltb 0 (compareCandidates a b) = true -> ranksBefore b a.
Proof.
  intros Ha Hb. rewrite (compareCandidates_sign a b Ha Hb).
  rewrite (ranksBefore_units b a Hb Ha).
  destruct (Z.eqb_spec (Candidate.confidence b) (Candidate.confidence a)).
  - rewrite Z.ltb_lt. lia.
  - rewrite Z.ltb_lt. lia.
Qed.

Lemma compareCandidates_ahead (a b : Candidate.t) :
  scannedCandidate a -> scannedCandidate b ->
  PrimFloat.ltb 0 (compareCandidates a b) = false <-> ranksBefore a b.
Proof.
  intros Ha Hb. rewrite (compareCandidates_sign a b Ha Hb).
  rewrite (ranksBefore_units a b Ha Hb).
  destruct (Z.eqb_spec (Candidate.confidence b) (Candidate.confidence a)).
  - rewrite Z.ltb_ge. lia.
  - rewrite Z.ltb_ge. lia.
Qed.

Lemma ranksBefore_trans (a b c : Candidate.t) :
  scannedCandidate a -> scannedCandidate b -> scannedCandidate c ->
  ranksBefore a b -> ranksBefore b c -> ranksBefore a c.
Proof.
  intros Ha Hb Hc.
  rewrite (ranksBefore_units a b Ha Hb), (ranksBefore_units b c Hb Hc),
    (ranksBefore_units a c Ha Hc). lia.
Qed.

(** Two candidates that may each stand before the other have the same
    score and the same value. *)
Lemma ranksBefore_antisym (a b : Candidate.t) :
  scannedCandidate a -> scannedCandidate b ->
  ranksBefore a b -> ranksBefore b a ->
  Candidate.confidence a = Candidate.confidence b
  /\ Candidate.value a = Candidate.value b.
Proof.
  intros Ha Hb.
  rewrite (ranksBefore_units a b Ha Hb), (ranksBefore_units b a Hb Ha).
  intros H1 H2. split; [lia|].
  destruct Ha as [Va _], Hb as [Vb _].
  apply units_inj; try (apply isValidReading_finite; assumption); [lia|].
  pose proof (isValidReading_units _ Va). lia.
Qed.

Lemma ranksBefore_refl (a : Candidate.t) : scannedCandidate a -> ranksBefore a a.
Proof.
  intros Ha. rewrite (ranksBefore_units a a Ha Ha). lia.
Qed.

Lemma candidateOf_scanned (text : string) (m : Regex.MatchResult) (c : Candidate.t) :
  candidateOf text m = Some c -> scannedCandidate c.
Proof.
  unfold candidateOf.
  destruct (isValidReading _) eqn:V; [|discriminate].
  intros H. injection H as <-. split; [exact V|]. simpl.
  destruct (Regex.test _ _ _), (includes _ _), (_ && _); lia.
Qed.

Lemma extractNumberCandidates_scanned (text : string) :
  List.Forall scannedCandidate (extractNumberCandidates text).
Proof.
  unfold extractNumberCandidates.
  induction (Regex.execAll false numberPattern text) as [|m l IH]; simpl.
  - constructor.
  - destruct (candidateOf text m) as [c|] eqn:E; [|exact IH].
    constructor; [eapply candidateOf_scanned; exact E|exact IH].
Qed.

Lemma rankCandidates_sorted (l : list Candidate.t) :
  List.Forall scannedCandidate l ->
  Permutation l (rankCandidates l) /\ StronglySorted ranksBefore (rankCandidates l).
Proof.
  intros H. split; [apply Array_sort_perm|].
  apply (Sorted_strongly ranksBefore scannedCandidate ranksBefore_trans).
  - apply Array_sort_ok. exact H.
  - apply (Array_sort_sorted compareCandidates ranksBefore scannedCandidate
             compareCandidates_behind compareCandidates_ahead). exact H.
Qed.

(** The first of a ranked list may stand before every candidate. *)
Lemma rankCandidates_top (l : list Candidate.t) (top : Candidate.t) (rest : list Candidate.t) :
  List.Forall scannedCandidate l -> rankCandidates l = top :: rest ->
  forall c, In c l -> ranksBefore top c.
Proof.
  intros H E c Hc. destruct (rankCandidates_sorted l H) as [P S].
  rewrite E in P, S.
  assert (Hin : In c (top :: rest)) by (eapply Permutation_in; eassumption).
  inversion S as [|? ? _ Hall]; subst.
  destruct Hin as [<-|Hin].
  - apply ranksBefore_refl.
    rewrite List.Forall_forall in H. apply H.
    eapply Permutation_in; [apply Permutation_sym; exact P|left; reflexivity].
  - rewrite List.Forall_forall in Hall. apply Hall. exact Hin.
Qed.

(** C8. For every cleaned text, ranking the candidates of the scanner
    rearranges them in descending order of score, equal scores in
    descending order of value; ranking a ranked list changes nothing; the
    selected candidate, the first of the ranked list, has the same score
    and the same value in whatever order the candidates were found; and
    when the pattern stage finds nothing, the reading extracted is the
    value of that first candidate. *)
Theorem rankCandidates_spec (text : string) :
  Permutation (extractNumberCandidates text)
    (rankCandidates (extractNumberCandidates text))
  /\ StronglySorted ranksBefore (rankCandidates (extractNumberCandidates text))
  /\ rankCandidates (rankCandidates (extractNumberCandidates text))
     = rankCandidates (extractNumberCandidates text)
  /\ (forall other top top' rest rest',
        Permutation (extractNumberCandidates text) other ->
        rankCandidates (extractNumberCandidates text) = top :: rest ->
        rankCandidates other = top' :: rest' ->
        Candidate.confidence top' = Candidate.confidence top
        /\ Candidate.value top' = Candidate.value top)
  /\ (matchKwhPatterns kwhPatterns (cleanText text) = None ->
      extractReadingFromText text
      = option_map Candidate.value
          (hd_error (rankCandidates (extractNumberCandidates (cleanText text))))).
Proof.
  pose proof (extractNumberCandidates_scanned text) as W.
  destruct (rankCandidates_sorted _ W) as [P S].
  split; [exact P|]. split; [exact S|]. split; [|split].
  - apply (Array_sort_fixed compareCandidates ranksBefore scannedCandidate
             compareCandidates_ahead).
    + apply Array_sort_ok. exact W.
    + apply StronglySorted_Sorted. exact S.
  - intros other top top' rest rest' Po E E'.
    assert (W' : List.Forall scannedCandidate other)
      by (eapply Permutation_Forall; eassumption).
    assert (I : In top other).
    { eapply Permutation_in; [exact Po|].
      eapply Permutation_in; [apply Permutation_sym; exact P|]. rewrite E. left; reflexivity. }
    assert (I' : In top' (extractNumberCandidates text)).
    { eapply Permutation_in; [apply Permutation_sym; exact Po|].
      eapply Permutation_in; [apply Permutation_sym; apply (Array_sort_perm compareCandidates)|].
      fold (rankCandidates other). rewrite E'. left; reflexivity. }
    pose proof (rankCandidates_top _ _ _ W E top' I') as H1.
    pose proof (rankCandidates_top _ _ _ W' E' top I) as H2.
    rewrite List.Forall_forall in W, W'.
    apply ranksBefore_antisym; [apply W; exact I'|apply W'; exact I|exact H2|exact H1].
  - intros N. unfold extractReadingFromText. rewrite N.
    destruct (extractNumberCandidates (cleanText text)) as [|c [|c' l]] eqn:E;
      try reflexivity.
    destruct (rankCandidates (c :: c' :: l)); reflexivity.
Qed.

(** A text whose first number is out of range reaches the scanner: of the
    two candidates with score 90 the larger value is selected, ahead of a
    larger value with a lower score. *)
Example rankCandidates_sample :
  map (fun c => (Candidate.value c, Candidate.confidence c))
      (extractNumberCandidates "05 77.5 KWH 1234 X 20000")
  = [(77.5%float, 90); (1234%float, 90); (20000%float, 80)]
  /\ map (fun c => (Candidate.value c, Candidate.confidence c))
       (rankCandidates (extractNumberCandidates "05 77.5 KWH 1234 X 20000"))
     = [(1234%float, 90); (77.5%float, 90); (20000%float, 80)]
  /\ extractReadingFromText "05 77.5 kWh 1234 x 20000" = Some 1234%float.
Proof. vm_compute. repeat split; reflexivity. Qed.

End Ranking.

(* ================================================================== *)
(** * The extraction pipeline, end to end *)
(* ================================================================== *)

Section Pipeline.
Import JsNumber JsString OcrProcessor PhotoVerification.

Lemma eqb_true_leb (x y : float) :
  PrimFloat.eqb x y = true -> PrimFloat.leb x y = true.
Proof.
  rewrite FloatAxioms.eqb_spec, leb_spec. unfold SFeqb, SFleb.
  destruct (SFcompare _ _) as [[]|]; congruence.
Qed.

(** A reading that [validateReading] accepts is truthy. *)
Lemma validateReading_truthy (r : float) :
  Outcome.valid (validateReading r) = true -> truthy r = true.
Proof.
  intros H. apply validateReading_valid_inv in H as (Hn & _ & Hz & _).
  unfold truthy, isNaN in *. rewrite Hn. simpl.
  destruct (PrimFloat.is_zero r) eqn:Z; [|reflexivity].
  unfold PrimFloat.is_zero in Z. apply eqb_true_leb in Z.
  change PrimFloat.zero with 0%float in Z. congruence.
Qed.

(** ... and lies in the range of [isValidReading]. *)
Lemma validateReading_isValidReading (r : float) :
  Outcome.valid (validateReading r) = true -> isValidReading r = true.
Proof.
  intros V. apply validateReading_valid_inv in V as (Hn & Hf & _ & Hlo & Hhi & _).
  unfold isValidReading, OCR_CONFIG.VALID_RANGE.min, OCR_CONFIG.VALID_RANGE.max.
  rewrite Hn, Hf. cbn [negb andb].
  rewrite ltb_negb_leb in Hlo, Hhi by (unfold isNaN in Hn; first [exact Hn | reflexivity]).
  apply negb_false_iff in Hlo, Hhi. rewrite Hlo, Hhi. reflexivity.
Qed.

(** What [evaluate] makes of an attempt, by the outcome. *)
Lemma evaluate_success (attempt : OcrAttempt.t) :
  OCRResult.success (evaluate attempt) = true ->
  OcrAttempt.success attempt = true
  /\ exists reading,
       extractReadingFromText (orEmpty (OcrAttempt.text attempt)) = Some reading
       /\ Outcome.valid (validateReading reading) = true
       /\ evaluate attempt
          = {| OCRResult.success := true; OCRResult.reading := Some reading;
               OCRResult.confidence := OcrAttempt.confidence attempt;
               OCRResult.rawText := OcrAttempt.text attempt;
               OCRResult.error := None; OCRResult.suggestions := None |}.
Proof.
  unfold evaluate.
  destruct (OcrAttempt.success attempt); cbn [negb OCRResult.success];
    [|discriminate].
  destruct (extractReadingFromText _) as [reading|];
    cbn [negb OCRResult.success]; [|discriminate].
  destruct (Outcome.valid (validateReading reading)) eqn:V;
    cbn [negb OCRResult.success]; [|discriminate].
  intros _. split; [reflexivity|]. exists reading.
  split; [reflexivity|]. split; [exact V|reflexivity].
Qed.

Lemma evaluate_failure (attempt : OcrAttempt.t) :
  OCRResult.success (evaluate attempt) = false ->
  (exists e, OCRResult.error (evaluate attempt) = Some e)
  /\ exists tips, OCRResult.suggestions (evaluate attempt) = Some tips.
Proof.
  unfold evaluate.
  destruct (OcrAttempt.success attempt);
    cbn [negb OCRResult.success OCRResult.error OCRResult.suggestions].
  - destruct (extractReadingFromText _) as [reading|];
      cbn [negb OCRResult.success OCRResult.error OCRResult.suggestions];
      [|intros _; eauto].
    destruct (Outcome.valid (validateReading reading)) eqn:V;
      cbn [negb OCRResult.success OCRResult.error OCRResult.suggestions];
      [discriminate|].
    intros _. split; [apply validateReading_invalid_error; exact V|eauto].
  - intros _. eauto.
Qed.

(** The ladder ends in [evaluate] of one of the answers, or in the
    [catch]. *)
Lemma extractKwhReading_cases (rungs : Strategy -> Rung) :
  (exists s attempt, rungs s = Answers attempt
      /\ snd (extractKwhReading rungs) = evaluate attempt)
  \/ (exists s message, rungs s = Throws message
      /\ snd (extractKwhReading rungs) = thrown message).
Proof.
  unfold extractKwhReading, runOCR, bind, ret.
  destruct (rungs Standard) as [e1|first] eqn:R1;
    [right; exists Standard, e1; split; [exact R1|reflexivity]|].
  destruct (lowConfidence first) eqn:L1.
  - destruct (rungs Aggressive) as [e2|second] eqn:R2;
      [right; exists Aggressive, e2; split; [exact R2|reflexivity]|].
    destruct (lowConfidence second) eqn:L2.
    + destruct (rungs AdaptiveThreshold) as [e3|third] eqn:R3;
        [right; exists AdaptiveThreshold, e3; split; [exact R3|reflexivity]|].
      left. exists AdaptiveThreshold, third. split; [exact R3|reflexivity].
    + left. exists Aggressive, second. split; [exact R2|reflexivity].
  - left. exists Standard, first. split; [exact R1|].
    cbn [fst snd app]. rewrite L1. reflexivity.
Qed.

(** X1. Whatever the strategies do, a successful result of
    [extractKwhReading] carries a reading that [validateReading] accepts
    (so one between 10 and 999999 with at most 3 decimals, and truthy), and
    no error; a failed result always carries an error and a list of
    suggestions. *)
Theorem extractKwhReading_result (rungs : Strategy -> Rung) :
  (OCRResult.success (snd (extractKwhReading rungs)) = true ->
     exists reading,
       OCRResult.reading (snd (extractKwhReading rungs)) = Some reading
       /\ Outcome.valid (validateReading reading) = true
       /\ isValidReading reading = true
       /\ truthy reading = true
       /\ OCRResult.error (snd (extractKwhReading rungs)) = None)
  /\ (OCRResult.success (snd (extractKwhReading rungs)) = false ->
      (exists e, OCRResult.error (snd (extractKwhReading rungs)) = Some e)
      /\ exists tips,
           OCRResult.suggestions (snd (extractKwhReading rungs)) = Some tips).
Proof.
  destruct (extractKwhReading_cases rungs) as [(s & attempt & _ & ->)|(s & e & _ & ->)].
  - split.
    + intros H. apply evaluate_success in H as (_ & reading & _ & V & ->).
      exists reading. repeat split; try assumption.
      * apply validateReading_isValidReading. exact V.
      * apply validateReading_truthy. exact V.
    + apply evaluate_failure.
  - split; [discriminate|]. intros _. split; eexists; reflexivity.
Qed.

(** On an image the ladder stops at the standard attempt. *)
Lemma extractKwhReading_image (imageBuffer : Image) :
  extractKwhReading (rungsOf imageBuffer) =
  match imageBuffer Standard with
  | inl e => ([], thrown e)
  | inr response => ([Standard], evaluate (performOCR response))
  end.
Proof.
  unfold extractKwhReading, runOCR, bind, ret, rungsOf.
  destruct (imageBuffer Standard) as [e|response]; [reflexivity|].
  rewrite performOCR_never_low. cbn [fst snd app].
  rewrite performOCR_never_low. reflexivity.
Qed.

Lemma image_calls_at_most_one (imageBuffer : Image) :
  (length (fst (extractKwhReading (rungsOf imageBuffer))) <= 1)%nat.
Proof.
  rewrite extractKwhReading_image.
  destruct (imageBuffer Standard); cbn [fst length]; lia.
Qed.

(** X2. On an image, [extractKwhReading] calls the text detection at most
    once: once under the standard preprocessing, or not at all when that
    preprocessing throws. Its result is what it makes of that one answer,
    so two images that behave alike under the standard strategy get the same
    calls and the same result, whatever the aggressive and the adaptive
    strategy would have produced. *)
Theorem image_is_read_once (imageBuffer : Image) :
  (length (fst (extractKwhReading (rungsOf imageBuffer))) <= 1)%nat
  /\ (forall response, imageBuffer Standard = inr response ->
        extractKwhReading (rungsOf imageBuffer)
        = ([Standard], evaluate (performOCR response)))
  /\ (forall e, imageBuffer Standard = inl e ->
        extractKwhReading (rungsOf imageBuffer) = ([], thrown e))
  /\ (forall other : Image, other Standard = imageBuffer Standard ->
        extractKwhReading (rungsOf other) = extractKwhReading (rungsOf imageBuffer)).
Proof.
  repeat apply conj.
  - apply image_calls_at_most_one.
  - intros response E. rewrite extractKwhReading_image, E. reflexivity.
  - intros e E. rewrite extractKwhReading_image, E. reflexivity.
  - intros other E. rewrite !extractKwhReading_image, E. reflexivity.
Qed.

(** A successful [performOCR] has a confidence between 70 and 100. *)
Lemma performOCR_success_confidence (response : VisionResponse) :
  OcrAttempt.success (performOCR response) = true ->
  exists c, OcrAttempt.confidence (performOCR response) = Some c
            /\ (70 <= c)%Q /\ (c <= 100)%Q.
Proof.
  destruct response as [message|[[|full words]|]]; try discriminate.
  - unfold performOCR. destruct message as [m|]; [|discriminate].
    destruct (includes m _); [discriminate|].
    destruct (includes m _); discriminate.
  - rewrite performOCR_with_text. intros _.
    exists (avgConfidence words). split; [reflexivity|].
    apply avgConfidence_bounds.
Qed.

(** What the pipeline hands to the photo handlers for an image that it
    could read. *)
Lemma extracted_success (imageBuffer : Image) :
  OCRResult.success (extracted imageBuffer) = true ->
  exists reading c,
    OCRResult.reading (extracted imageBuffer) = Some reading
    /\ OCRResult.confidence (extracted imageBuffer) = Some c
    /\ Outcome.valid (validateReading reading) = true
    /\ (70 <= c)%Q /\ (c <= 100)%Q
    /\ usableReading (extracted imageBuffer) = Some reading
    /\ confidenceOrZero (extracted imageBuffer) = c
    /\ Qltb c OCR_CONFIG.MIN_OCR_CONFIDENCE = false.
Proof.
  unfold extracted. rewrite extractKwhReading_image.
  destruct (imageBuffer Standard) as [e|response]; cbn [snd]; [discriminate|].
  intros H. pose proof H as H0.
  apply evaluate_success in H as (S & reading & _ & V & E).
  apply performOCR_success_confidence in S as (c & C & Hlo & Hhi).
  exists reading, c. rewrite E. cbn [OCRResult.reading OCRResult.confidence].
  unfold usableReading, confidenceOrZero.
  cbn [OCRResult.reading OCRResult.confidence OCRResult.success].
  rewrite C, (validateReading_truthy _ V).
  repeat split; try assumption; try reflexivity.
  unfold Qltb. apply negb_false_iff. apply Qle_bool_iff.
  eapply Qle_trans; [|exact Hlo]. discriminate.
Qed.

Lemma extracted_failure (imageBuffer : Image) :
  OCRResult.success (extracted imageBuffer) = false ->
  usableReading (extracted imageBuffer) = None.
Proof.
  unfold usableReading. intros ->. reflexivity.
Qed.

(** [handleStartPhoto] on an image, when a start photo is expected. *)
Lemma handleStartPhoto_on_image
  (w : World) (user : string) (imageBuffer : Image) (state : VerificationState) :
  states w !! user = Some state -> type state = start ->
  PhotoResult.success (fst (handleStartPhoto user imageBuffer w))
  = OCRResult.success (extracted imageBuffer)
  /\ (OCRResult.success (extracted imageBuffer) = true ->
      exists reading c,
        OCRResult.reading (extracted imageBuffer) = Some reading
        /\ OCRResult.confidence (extracted imageBuffer) = Some c
        /\ Outcome.valid (validateReading reading) = true
        /\ (70 <= c)%Q /\ (c <= 100)%Q
        /\ PhotoResult.reading (fst (handleStartPhoto user imageBuffer w)) = Some reading
        /\ PhotoResult.confidence (fst (handleStartPhoto user imageBuffer w)) = Some c
        /\ states (snd (handleStartPhoto user imageBuffer w)) !! user
           = Some (withReading (bumpAttempt state) reading c (ocrProvider state))
        /\ last (outbox (snd (handleStartPhoto user imageBuffer w)))
           = Some (user, ReadingConfirmation reading start c))
  /\ (OCRResult.success (extracted imageBuffer) = false ->
      states (snd (handleStartPhoto user imageBuffer w)) !! user
      = Some (bumpAttempt state)
      /\ PhotoResult.reading (fst (handleStartPhoto user imageBuffer w)) = None).
Proof.
  intros Hs Ht.
  rewrite (handleStartPhoto_expected _ _ _ _ Hs Ht). cbv zeta.
  fold (extracted imageBuffer).
  destruct (OCRResult.success (extracted imageBuffer)) eqn:S.
  - destruct (extracted_success _ S) as (reading & c & R & C & V & Hlo & Hhi & U & Z & L).
    rewrite U, Z, L.
    cbn [fst snd PhotoResult.success PhotoResult.reading PhotoResult.confidence
         states outbox].
    split; [reflexivity|]. split; [|discriminate].
    intros _. exists reading, c.
    repeat split; try assumption; try reflexivity.
    + apply lookup_insert_eq.
    + apply last_snoc.
  - rewrite (extracted_failure _ S).
    match goal with |- context [handleOCRFailure ?u ?s ?e ?w0] =>
      destruct (handleOCRFailure_states u s e w0) as [St _];
      assert (F : PhotoResult.success (fst (handleOCRFailure u s e w0)) = false
                  /\ PhotoResult.reading (fst (handleOCRFailure u s e w0)) = None)
        by (unfold handleOCRFailure;
            destruct (OCR_CONFIG.maxAttempts <=? attemptCount s); split; reflexivity)
    end.
    destruct F as [F1 F2]. rewrite F1, F2, St.
    split; [reflexivity|]. split; [discriminate|].
    intros _. split; [|reflexivity].
    unfold photoCounted. cbn [states]. apply lookup_insert_eq.
Qed.

(** X3. A start photo that is expected is accepted exactly when the
    pipeline succeeds on it. The reading is then one that [validateReading]
    accepts, its confidence lies between 70 and 100, both are recorded in the
    state with the counted attempt, and the confirmation message is the
    last one sent. When the pipeline fails, the only change to the state is
    the counted attempt. *)
Theorem start_photo_accepted_iff_extracted
  (w : World) (user : string) (imageBuffer : Image) (state : VerificationState) :
  states w !! user = Some state -> type state = start ->
  PhotoResult.success (fst (handleStartPhoto user imageBuffer w))
  = OCRResult.success (extracted imageBuffer)
  /\ (OCRResult.success (extracted imageBuffer) = true ->
      exists reading c,
        OCRResult.reading (extracted imageBuffer) = Some reading
        /\ OCRResult.confidence (extracted imageBuffer) = Some c
        /\ Outcome.valid (validateReading reading) = true
        /\ (70 <= c)%Q /\ (c <= 100)%Q
        /\ PhotoResult.reading (fst (handleStartPhoto user imageBuffer w)) = Some reading
        /\ PhotoResult.confidence (fst (handleStartPhoto user imageBuffer w)) = Some c
        /\ states (snd (handleStartPhoto user imageBuffer w)) !! user
           = Some (withReading (bumpAttempt state) reading c (ocrProvider state))
        /\ last (outbox (snd (handleStartPhoto user imageBuffer w)))
           = Some (user, ReadingConfirmation reading start c))
  /\ (OCRResult.success (extracted imageBuffer) = false ->
      states (snd (handleStartPhoto user imageBuffer w)) !! user
      = Some (bumpAttempt state)
      /\ PhotoResult.reading (fst (handleStartPhoto user imageBuffer w)) = None).
Proof. apply handleStartPhoto_on_image. Qed.

Lemma start_photo_accepted_iff_extracted_witness :
  states awaitingStartPhoto !! "u1"%string
  = Some (newState "u1" "s1" 7 start 1000)
  /\ PhotoResult.success (fst (handleStartPhoto "u1" clearImage awaitingStartPhoto))
     = OCRResult.success (extracted clearImage).
Proof.
  split; [vm_compute; reflexivity|].
  apply (start_photo_accepted_iff_extracted awaitingStartPhoto "u1" clearImage
           (newState "u1" "s1" 7 start 1000)).
  - vm_compute. reflexivity.
  - reflexivity.
Defined.

End Pipeline.

(* ================================================================== *)
(** * The photo handlers and the manual entry on their results *)
(* ================================================================== *)

Section Handlers.
Import JsNumber JsString OcrProcessor PhotoVerification.

(** What a successful [calculateConsumption] went through. *)
Lemma calculateConsumption_valid_inv (start end_ : float) :
  Outcome.valid (calculateConsumption start end_) = true ->
  Outcome.valid (validateReading start) = true
  /\ Outcome.valid (validateReading end_) = true
  /\ (start <? end_)%float = true
  /\ (0.1 <=? end_ - start)%float = true
  /\ (end_ - start <=? 200)%float = true
  /\ Outcome.consumption (calculateConsumption start end_)
     = Some (roundTo2 (end_ - start)).
Proof.
  destruct (Outcome.valid (validateReading start)) eqn:H1.
  2:{ unfold calculateConsumption. rewrite H1. discriminate. }
  destruct (Outcome.valid (validateReading end_)) eqn:H2.
  2:{ unfold calculateConsumption. rewrite H1, H2. discriminate. }
  rewrite (calculateConsumption_valid_readings _ _ H1 H2).
  apply validateReading_valid_inv in H1 as (N1 & F1 & _).
  apply validateReading_valid_inv in H2 as (N2 & F2 & _).
  unfold isNaN, isFinite in *.
  pose proof (sub_not_nan end_ start F2 F1) as Nc.
  rewrite (ltb_negb_leb start end_) by assumption.
  rewrite (ltb_negb_leb (end_ - start) 0.1) by (assumption || reflexivity).
  rewrite (ltb_negb_leb 200 (end_ - start)) by (assumption || reflexivity).
  destruct (end_ <=? start)%float; [discriminate|].
  destruct (0.1 <=? end_ - start)%float; [|discriminate].
  destruct (end_ - start <=? 200)%float; [|discriminate].
  intros _. repeat split; reflexivity.
Qed.

(** [validateConsumption] looks at the session table only. *)
Lemma validateConsumption_table (session : string) (endReading : float) (now : Z)
  (w w' : World) :
  chargingSessions w = chargingSessions w' ->
  fst (validateConsumption session endReading now w)
  = fst (validateConsumption session endReading now w').
Proof.
  intros E. unfold validateConsumption, andThen, getSession, pure. rewrite E.
  destruct (chargingSessions w' !! session) as [row|]; [|reflexivity].
  destruct (storedStartReading (Some row)); [|reflexivity].
  destruct (negb _); [reflexivity|].
  destruct (_ <? _)%float; reflexivity.
Qed.

(** A consumption that [validateConsumption] lets through was computed by
    [calculateConsumption] from the start reading stored in the row. *)
Lemma validateConsumption_valid_inv (session : string) (endReading : float)
  (now : Z) (w : World) :
  ConsumptionValidation.isValid (fst (validateConsumption session endReading now w))
  = true ->
  exists row stored,
    chargingSessions w !! session = Some row
    /\ startMeterReading row = Some stored
    /\ storedStartReading (chargingSessions w !! session) = Some stored
    /\ Outcome.valid (calculateConsumption (parseFloat stored) endReading) = true
    /\ ConsumptionValidation.consumption
         (fst (validateConsumption session endReading now w))
       = Some (roundTo2 (endReading - parseFloat stored)).
Proof.
  unfold validateConsumption, andThen, getSession, pure.
  destruct (chargingSessions w !! session) as [row|] eqn:R; [|discriminate].
  destruct (storedStartReading (Some row)) as [stored|] eqn:S; [|discriminate].
  pose proof S as S0.
  assert (St : startMeterReading row = Some stored).
  { unfold storedStartReading in S.
    destruct (startMeterReading row) as [s|]; [|discriminate].
    destruct (String.eqb s ""); [discriminate|]. exact S. }
  destruct (Outcome.valid (calculateConsumption (parseFloat stored) endReading)) eqn:V;
    cbn [negb]; [|discriminate].
  destruct (calculateConsumption_valid_inv _ _ V) as (_ & _ & _ & _ & _ & C).
  destruct (_ <? _)%float; cbn [fst ConsumptionValidation.isValid
                                   ConsumptionValidation.consumption];
    intros _; exists row, stored; repeat split; try assumption; reflexivity.
Qed.

(** [handleEndPhoto] when an end photo is expected. *)
Lemma handleEndPhoto_unfold (user : string) (imageBuffer : Image) (now : Z)
  (w : World) (state : VerificationState) :
  states w !! user = Some state -> type state = end_ ->
  handleEndPhoto user imageBuffer now w =
  let ocrResult := extracted imageBuffer in
  let counted := bumpAttempt state in
  let w1 := photoCounted user state imageBuffer w in
  match usableReading ocrResult with
  | None => handleOCRFailure user counted (OCRResult.error ocrResult) w1
  | Some reading =>
      let confidence := confidenceOrZero ocrResult in
      if Qltb confidence OCR_CONFIG.MIN_OCR_CONFIDENCE then
        handleLowConfidence user counted confidence w1
      else
        let validation := fst (validateConsumption (sessionId state) reading now w) in
        if negb (ConsumptionValidation.isValid validation) then
          (PhotoResult.failure
             (match ConsumptionValidation.error validation with
              | Some e => if String.eqb e "" then "Validation failed"%string else e
              | None => "Validation failed"%string
              end) (Some true),
           {| states := states w1; ocrMetrics := ocrMetrics w1;
              chargingSessions := chargingSessions w1;
              outbox := (outbox w1
                         ++ [(user, ValidationIssue (ConsumptionValidation.error validation))])%list;
              ocrCalls := ocrCalls w1 |})
        else
          ({| PhotoResult.success := true;
              PhotoResult.reading := Some reading;
              PhotoResult.confidence := Some confidence;
              PhotoResult.message := "End reading detected. Awaiting confirmation.";
              PhotoResult.shouldRetry := None |},
           {| states := <[user := withReading counted reading confidence (ocrProvider counted)]>
                          (states w1);
              ocrMetrics := countSuccess confidence (ocrMetrics w1);
              chargingSessions := chargingSessions w1;
              outbox := (outbox w1
                         ++ [(user, EndReadingConfirmation reading
                                      (ConsumptionValidation.consumption validation)
                                      confidence
                                      (ConsumptionValidation.warnings validation))])%list;
              ocrCalls := ocrCalls w1 |})
  end.
Proof.
  intros Hs Ht. unfold handleEndPhoto, andThen, getState. rewrite Hs, Ht.
  cbn [Kind_eqb negb].
  unfold extracted, setState, updateMetrics, callExtractKwhReading, photoCounted.
  cbv zeta.
  destruct (extractKwhReading (rungsOf imageBuffer)) as [calls ocrResult].
  cbn [fst snd states ocrMetrics chargingSessions outbox ocrCalls sessionId bumpAttempt].
  destruct (usableReading ocrResult) as [reading|]; [|reflexivity].
  destruct (Qltb _ _); [reflexivity|].
  match goal with |- context [validateConsumption ?s ?r ?n ?w0] =>
    pose proof (validateConsumption_world s r n w0) as Hw;
    pose proof (validateConsumption_table s r n w0 w eq_refl) as Hv;
    destruct (validateConsumption s r n w0) as [validation w2] end.
  cbn [fst snd] in Hw, Hv. subst w2. rewrite <- Hv.
  destruct (negb _); reflexivity.
Qed.

(** What [handleOCRFailure] and [handleLowConfidence] send and return. *)
Lemma handleOCRFailure_outcome (user : string) (state : VerificationState)
  (error : option string) (w : World) :
  PhotoResult.success (fst (handleOCRFailure user state error w)) = false
  /\ PhotoResult.reading (fst (handleOCRFailure user state error w)) = None
  /\ ocrMetrics (snd (handleOCRFailure user state error w)) = ocrMetrics w
  /\ exists m, outbox (snd (handleOCRFailure user state error w))
               = (outbox w ++ [(user, m)])%list
               /\ isLowConfidenceNotice m = false.
Proof.
  unfold handleOCRFailure.
  destruct (OCR_CONFIG.maxAttempts <=? attemptCount state);
    repeat split; eexists; split; reflexivity.
Qed.

Lemma handleLowConfidence_outcome (user : string) (state : VerificationState)
  (confidence : Q) (w : World) :
  PhotoResult.success (fst (handleLowConfidence user state confidence w)) = false
  /\ ocrMetrics (snd (handleLowConfidence user state confidence w)) = ocrMetrics w.
Proof.
  unfold handleLowConfidence.
  destruct (OCR_CONFIG.maxAttempts <=? attemptCount state); split; reflexivity.
Qed.

(** X4. An end photo that is expected is accepted exactly when the
    pipeline succeeds on it and [validateConsumption] lets the reading
    through. An accepted end reading therefore always comes with a start
    reading stored for the session: both pass [validateReading], the end
    reading is the larger one, and their difference lies between 0.1 and
    200; the reading and its confidence are recorded in the state. *)
Theorem end_photo_accepted_iff
  (w : World) (user : string) (imageBuffer : Image) (now : Z)
  (state : VerificationState) :
  states w !! user = Some state -> type state = end_ ->
  (PhotoResult.success (fst (handleEndPhoto user imageBuffer now w)) = true <->
     exists reading,
       OCRResult.success (extracted imageBuffer) = true
       /\ OCRResult.reading (extracted imageBuffer) = Some reading
       /\ ConsumptionValidation.isValid
            (fst (validateConsumption (sessionId state) reading now w)) = true)
  /\ (PhotoResult.success (fst (handleEndPhoto user imageBuffer now w)) = true ->
      exists reading c row stored,
        PhotoResult.reading (fst (handleEndPhoto user imageBuffer now w)) = Some reading
        /\ chargingSessions w !! sessionId state = Some row
        /\ startMeterReading row = Some stored
        /\ Outcome.valid (validateReading (parseFloat stored)) = true
        /\ Outcome.valid (validateReading reading) = true
        /\ (parseFloat stored <? reading)%float = true
        /\ (0.1 <=? reading - parseFloat stored)%float = true
        /\ (reading - parseFloat stored <=? 200)%float = true
        /\ states (snd (handleEndPhoto user imageBuffer now w)) !! user
           = Some (withReading (bumpAttempt state) reading c (ocrProvider state))
        /\ (70 <= c)%Q /\ (c <= 100)%Q).
Proof.
  intros Hs Ht.
  rewrite (handleEndPhoto_unfold _ _ _ _ _ Hs Ht). cbv zeta.
  destruct (OCRResult.success (extracted imageBuffer)) eqn:S.
  - destruct (extracted_success _ S) as (reading & c & R & C & V & Hlo & Hhi & U & Z & L).
    rewrite U, Z, L.
    destruct (ConsumptionValidation.isValid
                (fst (validateConsumption (sessionId state) reading now w))) eqn:I;
      cbn [negb fst snd PhotoResult.success PhotoResult.reading PhotoResult.failure
           states].
    + split.
      * split; [intros _; exists reading; auto|reflexivity].
      * intros _.
        destruct (validateConsumption_valid_inv _ _ _ _ I) as (row & stored & Hr & Hst & _ & Hc & _).
        destruct (calculateConsumption_valid_inv _ _ Hc) as (V1 & V2 & O1 & O2 & O3 & _).
        exists reading, c, row, stored.
        repeat split; try assumption; try reflexivity.
        apply lookup_insert_eq.
    + split; [|discriminate].
      split; [discriminate|].
      intros (reading' & _ & R' & I'). rewrite R in R'. injection R' as <-.
      congruence.
  - rewrite (extracted_failure _ S).
    match goal with |- context [handleOCRFailure ?u ?s ?e ?w0] =>
      destruct (handleOCRFailure_outcome u s e w0) as (F & _) end.
    rewrite F. split; [|discriminate].
    split; [discriminate|]. intros (reading & H & _). discriminate.
Qed.

Lemma end_photo_accepted_iff_witness :
  states awaitingEndPhoto !! "u1"%string = Some (newState "u1" "s2" 7 end_ 2000)
  /\ PhotoResult.success (fst (handleEndPhoto "u1" clearImage 4000000 awaitingEndPhoto))
     = true
  /\ exists reading,
       OCRResult.success (extracted clearImage) = true
       /\ OCRResult.reading (extracted clearImage) = Some reading
       /\ ConsumptionValidation.isValid
            (fst (validateConsumption "s2" reading 4000000 awaitingEndPhoto)) = true.
Proof.
  split; [vm_compute; reflexivity|].
  split; [vm_compute; reflexivity|].
  apply (proj1 (end_photo_accepted_iff awaitingEndPhoto "u1" clearImage 4000000
                  (newState "u1" "s2" 7 end_ 2000)
                  ltac:(vm_compute; reflexivity) eq_refl)).
  vm_compute. reflexivity.
Defined.

(** An accepted end photo, and the same photo turned down because the
    reading would mean a consumption above 200. *)
Example handleEndPhoto_samples :
  fst (handleEndPhoto "u1" clearImage 4000000 awaitingEndPhoto)
  = {| PhotoResult.success := true; PhotoResult.reading := Some 1245.8%float;
       PhotoResult.confidence := Some (260 # 3);
       PhotoResult.message := "End reading detected. Awaiting confirmation.";
       PhotoResult.shouldRetry := None |}
  /\ fst (handleEndPhoto "u1" clearImage 4000000
            (snd (initiateEndVerification "u1" "s2" 7 2000 worldWithSession)))
     = PhotoResult.failure "Consumption too high (> 200 kWh)" (Some true).
Proof. vm_compute. split; reflexivity. Qed.

(** X5. The low-confidence notice is never sent: whatever the world, the
    user and the image, a photo handler adds no such message to the ones
    already sent. A reading that the pipeline returns for an image has a
    confidence of at least 70, so the branch for confidences below 60 is not
    taken. *)
Theorem low_confidence_notice_is_never_sent
  (w : World) (user : string) (imageBuffer : Image) (now : Z) :
  (forall m, In m (outbox (snd (handleStartPhoto user imageBuffer w))) ->
             isLowConfidenceNotice (snd m) = true -> In m (outbox w))
  /\ (forall m, In m (outbox (snd (handleEndPhoto user imageBuffer now w))) ->
                isLowConfidenceNotice (snd m) = true -> In m (outbox w)).
Proof.
  assert (Snoc : forall (l : list (string * Message)) u msg m,
             isLowConfidenceNotice msg = false ->
             In m (l ++ [(u, msg)]) -> isLowConfidenceNotice (snd m) = true -> In m l).
  { intros l u msg m Hmsg Hin Hm. apply in_app_or in Hin as [Hin|[<-|[]]]; [exact Hin|].
    cbn [snd] in Hm. congruence. }
  split; intros m.
  - destruct (states w !! user) as [state|] eqn:Hs.
    2:{ unfold handleStartPhoto, andThen, getState. rewrite Hs. auto. }
    destruct (type state) eqn:Ht.
    2:{ unfold handleStartPhoto, andThen, getState. rewrite Hs, Ht. auto. }
    rewrite (handleStartPhoto_expected _ _ _ _ Hs Ht). cbv zeta.
    fold (extracted imageBuffer).
    destruct (OCRResult.success (extracted imageBuffer)) eqn:S.
    + destruct (extracted_success _ S) as (reading & c & _ & _ & _ & _ & _ & U & Z & L).
      rewrite U, Z, L. cbn [snd outbox]. apply Snoc. reflexivity.
    + rewrite (extracted_failure _ S).
      match goal with |- context [handleOCRFailure ?u ?s ?e ?w0] =>
        destruct (handleOCRFailure_outcome u s e w0) as (_ & _ & _ & msg & -> & Hmsg) end.
      apply Snoc. exact Hmsg.
  - destruct (states w !! user) as [state|] eqn:Hs.
    2:{ unfold handleEndPhoto, andThen, getState. rewrite Hs. auto. }
    destruct (type state) eqn:Ht.
    { unfold handleEndPhoto, andThen, getState. rewrite Hs, Ht. auto. }
    rewrite (handleEndPhoto_unfold _ _ _ _ _ Hs Ht). cbv zeta.
    destruct (OCRResult.success (extracted imageBuffer)) eqn:S.
    + destruct (extracted_success _ S) as (reading & c & _ & _ & _ & _ & _ & U & Z & L).
      rewrite U, Z, L.
      destruct (negb _); cbn [snd outbox]; apply Snoc; reflexivity.
    + rewrite (extracted_failure _ S).
      match goal with |- context [handleOCRFailure ?u ?s ?e ?w0] =>
        destruct (handleOCRFailure_outcome u s e w0) as (_ & _ & _ & msg & -> & Hmsg) end.
      apply Snoc. exact Hmsg.
Qed.

(** [handleManualEntry], by cases. *)
Lemma handleManualEntry_unfold (user input : string) (now : Z) (w : World)
  (state : VerificationState) :
  states w !! user = Some state ->
  handleManualEntry user input now w =
  let reading := parseFloat (trim input) in
  let validation := validateReading reading in
  let sent (m : Message) :=
    {| states := states w; ocrMetrics := ocrMetrics w;
       chargingSessions := chargingSessions w;
       outbox := (outbox w ++ [(user, m)])%list; ocrCalls := ocrCalls w |} in
  let accepted :=
    (true, {| states := <[user := withReading state reading 0 manual]> (states w);
              ocrMetrics := ocrMetrics w;
              chargingSessions := chargingSessions w;
              outbox := (outbox w ++ [(user, ReadingConfirmation reading (type state) 0)])%list;
              ocrCalls := ocrCalls w |}) in
  if negb (Outcome.valid validation) then
    (false, sent (InvalidReading (Outcome.error validation)))
  else
    match type state with
    | start => accepted
    | end_ =>
        let consumptionValidation :=
          fst (validateConsumption (sessionId state) reading now w) in
        if negb (ConsumptionValidation.isValid consumptionValidation) then
          (false, sent (ValidationFailed (ConsumptionValidation.error consumptionValidation)))
        else accepted
    end.
Proof.
  intros Hs. unfold handleManualEntry, andThen, getState. rewrite Hs. cbv zeta.
  destruct (negb (Outcome.valid _)); [reflexivity|].
  destruct (type state); [reflexivity|].
  match goal with |- context [validateConsumption ?s ?r ?n ?w0] =>
    pose proof (validateConsumption_world s r n w0) as Hw;
    destruct (validateConsumption s r n w0) as [validation w2] end.
  cbn [fst snd] in Hw. subst w2. cbn [fst].
  destruct (negb _); reflexivity.
Qed.

(** X6. A typed entry is accepted exactly when the number read from it
    passes [validateReading] and, for an end reading, [validateConsumption]
    lets it through; the attempt count plays no part, so an entry is taken at
    any time while a state exists. An accepted entry is recorded in the
    state with confidence 0 and provider [manual], and the user is asked to
    confirm it; a rejected entry leaves the states as they are, issues no
    OCR call and sends one message. *)
Theorem manual_entry_accepted_iff
  (w : World) (user input : string) (now : Z) (state : VerificationState) :
  states w !! user = Some state ->
  (fst (handleManualEntry user input now w) = true <->
     Outcome.valid (validateReading (parseFloat (trim input))) = true
     /\ (type state = end_ ->
         ConsumptionValidation.isValid
           (fst (validateConsumption (sessionId state) (parseFloat (trim input)) now w))
         = true))
  /\ (fst (handleManualEntry user input now w) = true ->
      states (snd (handleManualEntry user input now w))
      = <[user := withReading state (parseFloat (trim input)) 0 manual]> (states w)
      /\ outbox (snd (handleManualEntry user input now w))
         = (outbox w
            ++ [(user, ReadingConfirmation (parseFloat (trim input)) (type state) 0)])%list)
  /\ (fst (handleManualEntry user input now w) = false ->
      states (snd (handleManualEntry user input now w)) = states w
      /\ length (outbox (snd (handleManualEntry user input now w)))
         = S (length (outbox w)))
  /\ ocrCalls (snd (handleManualEntry user input now w)) = ocrCalls w
  /\ ocrMetrics (snd (handleManualEntry user input now w)) = ocrMetrics w.
Proof.
  intros Hs. rewrite (handleManualEntry_unfold _ _ _ _ _ Hs). cbv zeta.
  destruct (Outcome.valid (validateReading (parseFloat (trim input)))) eqn:V;
    cbn [negb].
  2:{ cbn [fst snd states outbox ocrCalls ocrMetrics].
      rewrite length_app. cbn [length]. rewrite Nat.add_1_r.
      repeat split; try discriminate; try reflexivity.
      intros [H _]. discriminate. }
  destruct (type state) eqn:Ht.
  - cbn [fst snd states outbox ocrCalls ocrMetrics].
    repeat split; try discriminate; try reflexivity.
  - destruct (ConsumptionValidation.isValid _) eqn:I;
      cbn [negb fst snd states outbox ocrCalls ocrMetrics].
    + repeat split; try discriminate; try reflexivity.
    + rewrite length_app. cbn [length]. rewrite Nat.add_1_r.
      repeat split; try discriminate; try reflexivity.
      intros [_ H]. specialize (H eq_refl). discriminate.
Qed.

Lemma manual_entry_accepted_iff_witness :
  states afterThreeBlankPhotos !! "u1"%string = Some stateAfterThree
  /\ fst (handleManualEntry "u1" " 1245.8 " 5000 afterThreeBlankPhotos) = true
  /\ states (snd (handleManualEntry "u1" " 1245.8 " 5000 afterThreeBlankPhotos))
     = <["u1"%string := withReading stateAfterThree (parseFloat (trim " 1245.8 ")) 0 manual]>
         (states afterThreeBlankPhotos).
Proof.
  split; [vm_compute; reflexivity|].
  split; [vm_compute; reflexivity|].
  apply (proj1 (proj2 (manual_entry_accepted_iff afterThreeBlankPhotos "u1" " 1245.8 " 5000
                         stateAfterThree ltac:(vm_compute; reflexivity)))).
  vm_compute. reflexivity.
Defined.

End Handlers.

(* ================================================================== *)
(** * The cap on attempts *)
(* ================================================================== *)

Section AttemptCap.
Import JsNumber JsString OcrProcessor PhotoVerification VerificationFlow.

(** At the cap, a turned-down attempt ends in the manual-entry fallback. *)
Lemma handleOCRFailure_at_cap (user : string) (state : VerificationState)
  (error : option string) (w : World) :
  OCR_CONFIG.maxAttempts <= attemptCount state ->
  handleOCRFailure user state error w
  = (manualEntryResult, snd (fallbackToManualEntry user state w)).
Proof.
  intros H. apply Z.leb_le in H. unfold handleOCRFailure. rewrite H. reflexivity.
Qed.

Lemma handleLowConfidence_at_cap (user : string) (state : VerificationState)
  (confidence : Q) (w : World) :
  OCR_CONFIG.maxAttempts <= attemptCount state ->
  handleLowConfidence user state confidence w
  = (manualEntryResult, snd (fallbackToManualEntry user state w)).
Proof.
  intros H. apply Z.leb_le in H. unfold handleLowConfidence. rewrite H. reflexivity.
Qed.

(** What a photo of the expected kind does to the OCR calls, the counter
    of the day and, when the pipeline's result is turned down at the cap,
    to the answer and the messages. *)
Lemma photo_at_cap (w : World) (user : string) (imageBuffer : Image)
  (state : VerificationState) (photo : PhotoResult.t * World) :
  OCR_CONFIG.maxAttempts <= attemptCount state ->
  let w1 := photoCounted user state imageBuffer w in
  let counted := bumpAttempt state in
  (forall accepted : float -> PhotoResult.t * World,
     (forall reading, ocrCalls (snd (accepted reading)) = ocrCalls w1
                      /\ visionAPICallsToday (ocrMetrics (snd (accepted reading)))
                         = visionAPICallsToday (ocrMetrics w1)) ->
     photo
     = match usableReading (extracted imageBuffer) with
       | None => handleOCRFailure user counted (OCRResult.error (extracted imageBuffer)) w1
       | Some reading =>
           if Qltb (confidenceOrZero (extracted imageBuffer)) OCR_CONFIG.MIN_OCR_CONFIDENCE
           then handleLowConfidence user counted
                  (confidenceOrZero (extracted imageBuffer)) w1
           else accepted reading
       end ->
     ocrCalls (snd photo)
     = (ocrCalls w ++ fst (extractKwhReading (rungsOf imageBuffer)))%list
     /\ visionAPICallsToday (ocrMetrics (snd photo))
        = visionAPICallsToday (ocrMetrics w) + 1
     /\ (attemptRejected (extracted imageBuffer) = true ->
         fst photo = manualEntryResult
         /\ outbox (snd photo)
            = (outbox w ++ [(user, ManualEntryRequired (type state))])%list)).
Proof.
  intros Hcap w1 counted accepted Hacc ->.
  assert (Hc : OCR_CONFIG.maxAttempts <= attemptCount counted)
    by (cbn [counted bumpAttempt attemptCount]; lia).
  unfold attemptRejected.
  destruct (usableReading (extracted imageBuffer)) as [reading|].
  - destruct (Qltb _ _).
    + rewrite (handleLowConfidence_at_cap _ _ _ _ Hc).
      repeat split; reflexivity.
    + destruct (Hacc reading) as [A B]. rewrite A, B.
      split; [reflexivity|]. split; [reflexivity|]. discriminate.
  - rewrite (handleOCRFailure_at_cap _ _ _ _ Hc).
    repeat split; reflexivity.
Qed.

(** C6. A photo sent at the cap is still run through OCR. For every user
    whose state counts [maxAttempts] attempts or more, a photo of the kind
    the state waits for, start or end, issues the OCR calls of the pipeline
    (one call of the text detection when the preprocessing goes through)
    and counts one more call of the day; the manual-entry fallback comes
    only afterwards, when that attempt is turned down as well. The retake
    button on the same state does look at the cap first: it goes to manual
    entry without any OCR call. *)
Theorem photo_at_the_cap_still_runs_ocr
  (w : World) (user : string) (imageBuffer : Image) (now : Z)
  (state : VerificationState) :
  states w !! user = Some state ->
  OCR_CONFIG.maxAttempts <= attemptCount state ->
  let photo := match type state with
               | start => handleStartPhoto user imageBuffer w
               | end_ => handleEndPhoto user imageBuffer now w
               end in
  let retake := match type state with
                | start => retakeStartPhoto user w
                | end_ => retakeEndPhoto user w
                end in
  ocrCalls (snd photo)
  = (ocrCalls w ++ fst (extractKwhReading (rungsOf imageBuffer)))%list
  /\ (forall response, imageBuffer Standard = inr response ->
        ocrCalls (snd photo) = (ocrCalls w ++ [Standard])%list)
  /\ visionAPICallsToday (ocrMetrics (snd photo))
     = visionAPICallsToday (ocrMetrics w) + 1
  /\ (attemptRejected (extracted imageBuffer) = true ->
      fst photo = manualEntryResult
      /\ outbox (snd photo)
         = (outbox w ++ [(user, ManualEntryRequired (type state))])%list)
  /\ ocrCalls (snd retake) = ocrCalls w
  /\ outbox (snd retake)
     = (outbox w ++ [(user, ManualEntryRequired (type state))])%list.
Proof.
  intros Hs Hcap. cbv zeta.
  assert (Hone : forall photo : PhotoResult.t * World,
            ocrCalls (snd photo)
            = (ocrCalls w ++ fst (extractKwhReading (rungsOf imageBuffer)))%list ->
            forall response, imageBuffer Standard = inr response ->
            ocrCalls (snd photo) = (ocrCalls w ++ [Standard])%list).
  { intros photo -> response Hr. rewrite extractKwhReading_image, Hr. reflexivity. }
  assert (Hretake : forall asks : Message,
            let retake :=
              (if OCR_CONFIG.maxAttempts <=? attemptCount state
               then fallbackToManualEntry user state
               else send user asks) w in
            ocrCalls (snd retake) = ocrCalls w
            /\ outbox (snd retake)
               = (outbox w ++ [(user, ManualEntryRequired (type state))])%list).
  { intros asks. cbv zeta. apply Z.leb_le in Hcap. rewrite Hcap. split; reflexivity. }
  destruct (type state) eqn:Ht.
  - pose proof (handleStartPhoto_expected user imageBuffer w state Hs Ht) as E.
    cbv zeta in E. fold (extracted imageBuffer) in E.
    eapply (photo_at_cap w user imageBuffer state _ Hcap) in E.
    2:{ intros reading. cbn [snd ocrCalls ocrMetrics countSuccess visionAPICallsToday].
        split; reflexivity. }
    destruct E as (C & V & R). rewrite Ht in R.
    split; [exact C|]. split; [exact (Hone _ C)|]. split; [exact V|].
    split; [exact R|].
    unfold retakeStartPhoto, andThen, getState. rewrite Hs. cbn [fst snd].
    apply Hretake.
  - pose proof (handleEndPhoto_unfold user imageBuffer now w state Hs Ht) as E.
    cbv zeta in E.
    eapply (photo_at_cap w user imageBuffer state _ Hcap) in E.
    2:{ intros reading. cbv beta.
        destruct (negb _);
          cbn [snd ocrCalls ocrMetrics countSuccess visionAPICallsToday];
          split; reflexivity. }
    destruct E as (C & V & R). rewrite Ht in R.
    split; [exact C|]. split; [exact (Hone _ C)|]. split; [exact V|].
    split; [exact R|].
    unfold retakeEndPhoto, andThen, getState. rewrite Hs. cbn [fst snd].
    apply Hretake.
Qed.

(** After three photos without text the state of [u1] counts three
    attempts; a fourth photo is read all the same. *)
Lemma photo_at_the_cap_still_runs_ocr_witness :
  ocrCalls (snd (handleStartPhoto "u1" clearImage afterThreeBlankPhotos))
  = (ocrCalls afterThreeBlankPhotos
     ++ fst (extractKwhReading (rungsOf clearImage)))%list.
Proof.
  exact (proj1 (photo_at_the_cap_still_runs_ocr afterThreeBlankPhotos "u1" clearImage 0
                  stateAfterThree ltac:(vm_compute; reflexivity)
                  ltac:(vm_compute; discriminate))).
Defined.

End AttemptCap.

(* ================================================================== *)
(** * Expiry of verification states *)
(* ================================================================== *)

Section Expiry.
Import JsNumber JsString OcrProcessor PhotoVerification VerificationFlow.

(** The loop of [cleanupExpiredStates], entry by entry. *)
Lemma cleanupExpiredStates_lookup (now : Z) (w : World) (user : string) :
  states (snd (cleanupExpiredStates now w)) !! user =
  match states w !! user with
  | Some state => if isExpiredAt now state then None else Some state
  | None => None
  end.
Proof.
  unfold cleanupExpiredStates. cbn [snd states].
  set (f := fun (whatsappId : string) (state : VerificationState)
                (remaining : gmap string VerificationState) =>
              if isExpiredAt now state then delete whatsappId remaining else remaining).
  set (m0 := states w).
  assert (G : forall m,
    (fun r m => forall u, r !! u =
       match m !! u with
       | Some state => if isExpiredAt now state then None else m0 !! u
       | None => m0 !! u
       end) (map_fold f m0 m) m).
  { apply (map_fold_weak_ind
             (fun r m => forall u, r !! u =
                match m !! u with
                | Some state => if isExpiredAt now state then None else m0 !! u
                | None => m0 !! u
                end)).
    - intros u. rewrite lookup_empty. reflexivity.
    - intros i x m r Hi IH u. unfold f.
      destruct (decide (u = i)) as [->|Hne].
      + rewrite lookup_insert_eq. specialize (IH i). rewrite Hi in IH.
        destruct (isExpiredAt now x).
        * apply lookup_delete_eq.
        * exact IH.
      + rewrite lookup_insert_ne by congruence. specialize (IH u).
        destruct (isExpiredAt now x).
        * rewrite lookup_delete_ne by congruence. exact IH.
        * exact IH. }
  specialize (G m0 user). cbv beta in G. rewrite G.
  destruct (m0 !! user) as [state|]; [|reflexivity].
  destruct (isExpiredAt now state); reflexivity.
Qed.

(** X7. The three places that judge expiry agree. At a time [now],
    [cleanupExpiredStates] removes exactly the states older than 30
    minutes and keeps every other entry as it is; a user is in the
    verification flow exactly when the state survives that sweep;
    [getDebugInfo] reports [isExpired] exactly for a state that is not in
    the flow. [isInVerificationFlow] changes nothing when it answers yes,
    and has removed the state when it answers no. *)
Theorem expiry_is_judged_alike (now : Z) (w : World) (user : string) :
  states (snd (cleanupExpiredStates now w)) !! user
  = match states w !! user with
    | Some state =>
        if STATE_EXPIRY_MS <? now - timestamp state then None else Some state
    | None => None
    end
  /\ (ocrMetrics (snd (cleanupExpiredStates now w)),
      chargingSessions (snd (cleanupExpiredStates now w)),
      outbox (snd (cleanupExpiredStates now w)),
      ocrCalls (snd (cleanupExpiredStates now w)))
     = (ocrMetrics w, chargingSessions w, outbox w, ocrCalls w)
  /\ fst (isInVerificationFlow user now w)
     = bool_decide (is_Some (states (snd (cleanupExpiredStates now w)) !! user))
  /\ (fst (isInVerificationFlow user now w) = true ->
      snd (isInVerificationFlow user now w) = w)
  /\ (fst (isInVerificationFlow user now w) = false ->
      states (snd (isInVerificationFlow user now w)) = delete user (states w))
  /\ (forall info, fst (getDebugInfo user now w) = Some info ->
        isExpired info = negb (fst (isInVerificationFlow user now w))
        /\ timeSinceStart info = now - 
             match states w !! user with Some state => timestamp state | None => 0 end).
Proof.
  split; [apply cleanupExpiredStates_lookup|].
  split; [reflexivity|].
  rewrite cleanupExpiredStates_lookup.
  unfold isInVerificationFlow, getDebugInfo, andThen, getState, pure, deleteState,
    isExpiredAt.
  destruct (states w !! user) as [state|] eqn:Hs; cbn [fst snd].
  - destruct (STATE_EXPIRY_MS <? now - timestamp state) eqn:E; cbn [fst snd states].
    + split; [symmetry; apply bool_decide_eq_false; intros [x Hx]; discriminate|].
      split; [discriminate|]. split; [reflexivity|].
      intros info H. injection H as <-. cbn [isExpired timeSinceStart].
      split; reflexivity.
    + split; [symmetry; apply bool_decide_eq_true; eexists; reflexivity|].
      split; [reflexivity|]. split; [discriminate|].
      intros info H. injection H as <-. cbn [isExpired timeSinceStart].
      split; reflexivity.
  - split; [symmetry; apply bool_decide_eq_false; intros [x Hx]; discriminate|].
    split; [discriminate|].
    split; [intros _; symmetry; apply delete_id; exact Hs|].
    discriminate.
Qed.

(** A flow that has just been opened stays open for 30 minutes, to the
    millisecond, and photos do not extend it. *)
Lemma initiateStartVerification_state (user session : string) (station now : Z)
  (w : World) :
  states (snd (initiateStartVerification user session station now w))
  = <[user := newState user session station start now]> (states w).
Proof. reflexivity. Qed.

(** X8. A verification that was opened at time [opened] is in the flow at
    a later time [now] exactly when [now - opened] is at most 1 800 000
    milliseconds; the photos sent in between, whatever their outcome, leave
    the time stamp of the state as it was, so the window is not extended. *)
Theorem flow_window (w : World) (user session : string) (station opened now : Z)
  (imageBuffer : Image) :
  (fst (isInVerificationFlow user now
          (snd (initiateStartVerification user session station opened w))) = true
   <-> now - opened <= 1800000)
  /\ (fst (isInVerificationFlow user now
             (snd (handleStartPhoto user imageBuffer
                     (snd (initiateStartVerification user session station opened w)))))
      = true
      <-> now - opened <= 1800000).
Proof.
  assert (Flow : forall w0 state,
            states w0 !! user = Some state -> timestamp state = opened ->
            fst (isInVerificationFlow user now w0) = true <-> now - opened <= 1800000).
  { intros w0 state Hs Ht.
    unfold isInVerificationFlow, andThen, getState, pure, isExpiredAt.
    rewrite Hs, Ht. cbn [fst]. change STATE_EXPIRY_MS with 1800000.
    destruct (Z.ltb_spec 1800000 (now - opened)); cbn [fst]; split;
      try discriminate; try reflexivity; lia. }
  set (w1 := snd (initiateStartVerification user session station opened w)).
  assert (H1 : states w1 !! user = Some (newState user session station start opened)).
  { subst w1. rewrite initiateStartVerification_state. apply lookup_insert_eq. }
  split; [apply (Flow w1 _ H1); reflexivity|].
  destruct (handleStartPhoto_on_image w1 user imageBuffer _ H1 eq_refl)
    as (_ & Hok & Hko).
  destruct (OCRResult.success (extracted imageBuffer)).
  - destruct (Hok eq_refl) as (reading & c & _ & _ & _ & _ & _ & _ & _ & Hst & _).
    apply (Flow _ _ Hst). reflexivity.
  - destruct (Hko eq_refl) as (Hst & _). apply (Flow _ _ Hst). reflexivity.
Qed.

End Expiry.

(* ================================================================== *)
(** * Invariants of the service over its runs *)
(* ================================================================== *)

Section Invariants.
Import JsNumber JsString OcrProcessor PhotoVerification VerificationFlow Confirmation.

Lemma photoCounted_calls (user : string) (state : VerificationState)
  (imageBuffer : Image) (w : World) :
  (length (ocrCalls (photoCounted user state imageBuffer w))
   <= S (length (ocrCalls w)))%nat.
Proof.
  unfold photoCounted. cbn [ocrCalls]. rewrite length_app.
  pose proof (image_calls_at_most_one imageBuffer). lia.
Qed.

Lemma handleStartPhoto_effects (user : string) (imageBuffer : Image) (w : World) :
  photoEffects user w (snd (handleStartPhoto user imageBuffer w)).
Proof.
  destruct (states w !! user) as [state|] eqn:Hs.
  2:{ left. unfold handleStartPhoto, andThen, getState. rewrite Hs. auto. }
  destruct (type state) eqn:Ht.
  2:{ left. unfold handleStartPhoto, andThen, getState. rewrite Hs, Ht. auto. }
  right. exists state. split; [exact Hs|].
  rewrite (handleStartPhoto_expected _ _ _ _ Hs Ht). cbv zeta.
  fold (extracted imageBuffer).
  destruct (OCRResult.success (extracted imageBuffer)) eqn:S.
  - destruct (extracted_success _ S) as (reading & c & _ & _ & V & Hlo & Hhi & U & Z & L).
    rewrite U, Z, L. cbn [snd states ocrMetrics ocrCalls].
    split; [apply photoCounted_calls|]. right. exists reading, c.
    repeat split; try assumption.
    unfold photoCounted. cbn [states]. apply insert_insert_eq.
  - rewrite (extracted_failure _ S).
    match goal with |- context [handleOCRFailure ?u ?s ?e ?w0] =>
      destruct (handleOCRFailure_states u s e w0) as [-> ->];
      destruct (handleOCRFailure_outcome u s e w0) as (_ & _ & -> & _) end.
    split; [apply photoCounted_calls|]. left. split; reflexivity.
Qed.

Lemma handleEndPhoto_effects (user : string) (imageBuffer : Image) (now : Z)
  (w : World) :
  photoEffects user w (snd (handleEndPhoto user imageBuffer now w)).
Proof.
  destruct (states w !! user) as [state|] eqn:Hs.
  2:{ left. unfold handleEndPhoto, andThen, getState. rewrite Hs. auto. }
  destruct (type state) eqn:Ht.
  { left. unfold handleEndPhoto, andThen, getState. rewrite Hs, Ht. auto. }
  right. exists state. split; [exact Hs|].
  rewrite (handleEndPhoto_unfold _ _ _ _ _ Hs Ht). cbv zeta.
  destruct (OCRResult.success (extracted imageBuffer)) eqn:S.
  - destruct (extracted_success _ S) as (reading & c & _ & _ & V & Hlo & Hhi & U & Z & L).
    rewrite U, Z, L.
    destruct (negb _); cbn [snd states ocrMetrics ocrCalls];
      (split; [apply photoCounted_calls|]).
    + left. split; reflexivity.
    + right. exists reading, c. repeat split; try assumption.
      unfold photoCounted. cbn [states]. apply insert_insert_eq.
  - rewrite (extracted_failure _ S).
    match goal with |- context [handleOCRFailure ?u ?s ?e ?w0] =>
      destruct (handleOCRFailure_states u s e w0) as [-> ->];
      destruct (handleOCRFailure_outcome u s e w0) as (_ & _ & -> & _) end.
    split; [apply photoCounted_calls|]. left. split; reflexivity.
Qed.

(** ** Preservation, request by request *)

Lemma metricsConsistent_frame (w w' : World) :
  ocrMetrics w' = ocrMetrics w -> ocrCalls w' = ocrCalls w ->
  metricsConsistent w -> metricsConsistent w'.
Proof. unfold metricsConsistent. intros -> ->. auto. Qed.

Lemma metricsConsistent_photo (user : string) (w w' : World) :
  photoEffects user w w' -> metricsConsistent w -> metricsConsistent w'.
Proof.
  intros [(_ & Hm & Hc)|(state & _ & Hc & [(_ & Hm)|(reading & c & _ & Hlo & Hhi & _ & Hm)])].
  - apply metricsConsistent_frame; assumption.
  - unfold metricsConsistent. cbv zeta. rewrite Hm.
    cbn [countAttempt totalAttempts successfulReads visionAPICallsToday averageConfidence].
    intros (H1 & H2 & H3 & H4 & H5). repeat split; try assumption; lia.
  - unfold metricsConsistent. cbv zeta. rewrite Hm.
    cbn [countAttempt countSuccess totalAttempts successfulReads visionAPICallsToday
         averageConfidence].
    intros (H1 & H2 & H3 & H4 & H5). repeat split; try lia.
    + apply Qle_shift_div_l; [reflexivity|lra].
    + apply Qle_shift_div_r; [reflexivity|lra].
Qed.

Lemma stateSound_newState (user session : string) (station : Z) (kind : Kind) (now : Z) :
  stateSound user (newState user session station kind now).
Proof. repeat split. cbn. lia. Qed.

Lemma stateSound_bumpAttempt (user : string) (state : VerificationState) :
  stateSound user state -> stateSound user (bumpAttempt state).
Proof.
  intros (H1 & H2 & H3). repeat split; [exact H1|cbn; lia|exact H3].
Qed.

Lemma stateSound_withReading (user : string) (state : VerificationState)
  (reading : float) (c : Q) (provider : Provider) :
  stateSound user state ->
  Outcome.valid (validateReading reading) = true ->
  (c = 0%Q \/ ((70 <= c)%Q /\ (c <= 100)%Q)) ->
  stateSound user (withReading state reading c provider).
Proof.
  intros (H1 & H2 & _) V C. repeat split; [exact H1|exact H2|exact V|].
  exists c. split; [reflexivity|exact C].
Qed.

Lemma statesSound_insert (w w' : World) (user : string) (state : VerificationState) :
  states w' = <[user := state]> (states w) ->
  stateSound user state -> statesSound w -> statesSound w'.
Proof.
  intros E Hst H u st. rewrite E.
  destruct (decide (u = user)) as [->|Hne].
  - rewrite lookup_insert_eq. intros [= <-]. exact Hst.
  - rewrite lookup_insert_ne by congruence. apply H.
Qed.

Lemma statesSound_part (w w' : World) :
  (forall u st, states w' !! u = Some st -> states w !! u = Some st) ->
  statesSound w -> statesSound w'.
Proof. intros Sub H u st Hu. apply H, Sub, Hu. Qed.

Lemma statesSound_frame (w w' : World) :
  states w' = states w -> statesSound w -> statesSound w'.
Proof. intros E. apply statesSound_part. rewrite E. auto. Qed.

Lemma statesSound_delete (w w' : World) (user : string) :
  states w' = delete user (states w) -> statesSound w -> statesSound w'.
Proof.
  intros E. apply statesSound_part. rewrite E. intros u st.
  rewrite lookup_delete_Some. tauto.
Qed.

Lemma statesSound_photo (user : string) (w w' : World) :
  photoEffects user w w' -> statesSound w -> statesSound w'.
Proof.
  intros [(Hs & _)|(state & Hst & _ & [(Hs & _)|(reading & c & V & Hlo & Hhi & Hs & _)])] H.
  - eapply statesSound_frame; eassumption.
  - eapply statesSound_insert; [exact Hs| |exact H].
    apply stateSound_bumpAttempt, (H _ _ Hst).
  - eapply statesSound_insert; [exact Hs| |exact H].
    apply stateSound_withReading; [apply stateSound_bumpAttempt, (H _ _ Hst)|exact V|tauto].
Qed.

Lemma initiateStartVerification_sound (user session : string) (station now : Z) :
  keepsSound (initiateStartVerification user session station now).
Proof.
  intros w [Hm Hs]. split.
  - eapply metricsConsistent_frame; [| |exact Hm]; reflexivity.
  - eapply statesSound_insert; [|apply stateSound_newState|exact Hs]. reflexivity.
Qed.

Lemma initiateEndVerification_sound (user session : string) (station now : Z) :
  keepsSound (initiateEndVerification user session station now).
Proof.
  intros w [Hm Hs].
  unfold initiateEndVerification, andThen, getSession, pure.
  destruct (chargingSessions w !! session) as [[[r|] ? ? ? ? ? ?]|];
    try (split; assumption).
  destruct (String.eqb r ""); [split; assumption|]. split.
  - eapply metricsConsistent_frame; [| |exact Hm]; reflexivity.
  - eapply statesSound_insert; [|apply stateSound_newState|exact Hs]. reflexivity.
Qed.

Lemma handleStartPhoto_sound (user : string) (imageBuffer : Image) :
  keepsSound (handleStartPhoto user imageBuffer).
Proof.
  intros w [Hm Hs]. pose proof (handleStartPhoto_effects user imageBuffer w) as E.
  split; [eapply metricsConsistent_photo|eapply statesSound_photo]; eassumption.
Qed.

Lemma handleEndPhoto_sound (user : string) (imageBuffer : Image) (now : Z) :
  keepsSound (handleEndPhoto user imageBuffer now).
Proof.
  intros w [Hm Hs]. pose proof (handleEndPhoto_effects user imageBuffer now w) as E.
  split; [eapply metricsConsistent_photo|eapply statesSound_photo]; eassumption.
Qed.

Lemma handleManualEntry_sound (user input : string) (now : Z) :
  keepsSound (handleManualEntry user input now).
Proof.
  intros w [Hm Hs].
  destruct (states w !! user) as [state|] eqn:Hu.
  2:{ unfold handleManualEntry, andThen, getState. rewrite Hu. split; assumption. }
  rewrite (handleManualEntry_unfold _ _ _ _ _ Hu). cbv zeta.
  assert (Acc : forall m : Message,
    Outcome.valid (validateReading (parseFloat (trim input))) = true ->
    let w' := {| states := <[user := withReading state (parseFloat (trim input)) 0 manual]>
                             (states w);
                 ocrMetrics := ocrMetrics w; chargingSessions := chargingSessions w;
                 outbox := (outbox w ++ [(user, m)])%list; ocrCalls := ocrCalls w |} in
    metricsConsistent w' /\ statesSound w').
  { intros m V w'. split.
    - eapply metricsConsistent_frame; [| |exact Hm]; reflexivity.
    - eapply statesSound_insert; [reflexivity| |exact Hs].
      apply stateSound_withReading; [apply (Hs _ _ Hu)|exact V|left; reflexivity]. }
  assert (Rej : forall m : Message,
    let w' := {| states := states w; ocrMetrics := ocrMetrics w;
                 chargingSessions := chargingSessions w;
                 outbox := (outbox w ++ [(user, m)])%list; ocrCalls := ocrCalls w |} in
    metricsConsistent w' /\ statesSound w').
  { intros m w'. split.
    - eapply metricsConsistent_frame; [| |exact Hm]; reflexivity.
    - eapply statesSound_frame; [|exact Hs]. reflexivity. }
  destruct (Outcome.valid (validateReading (parseFloat (trim input)))) eqn:V;
    cbn [negb]; [|apply Rej].
  destruct (type state); [apply Acc; reflexivity|].
  destruct (negb _); [apply Rej|apply Acc; reflexivity].
Qed.

Lemma fallbackToManualEntry_frame (user : string) (state : VerificationState) (w : World) :
  states (snd (fallbackToManualEntry user state w)) = states w
  /\ ocrMetrics (snd (fallbackToManualEntry user state w)) = ocrMetrics w
  /\ ocrCalls (snd (fallbackToManualEntry user state w)) = ocrCalls w.
Proof. repeat split. Qed.

Lemma retake_sound (user : string) :
  keepsSound (retakeStartPhoto user) /\ keepsSound (retakeEndPhoto user).
Proof.
  split; intros w [Hm Hs].
  - unfold retakeStartPhoto, andThen, getState.
    destruct (states w !! user) as [state|];
      [destruct (OCR_CONFIG.maxAttempts <=? attemptCount state)|];
      (split; [eapply metricsConsistent_frame; [| |exact Hm]
              |eapply statesSound_frame; [|exact Hs]]; reflexivity).
  - unfold retakeEndPhoto, andThen, getState.
    destruct (states w !! user) as [state|];
      [destruct (OCR_CONFIG.maxAttempts <=? attemptCount state)|];
      (split; [eapply metricsConsistent_frame; [| |exact Hm]
              |eapply statesSound_frame; [|exact Hs]]; reflexivity).
Qed.

Lemma deleteState_sound (user : string) : keepsSound (deleteState user).
Proof.
  intros w [Hm Hs]. split.
  - eapply metricsConsistent_frame; [| |exact Hm]; reflexivity.
  - eapply statesSound_delete; [|exact Hs]. reflexivity.
Qed.

Lemma isInVerificationFlow_sound (user : string) (now : Z) :
  keepsSound (isInVerificationFlow user now).
Proof.
  intros w [Hm Hs]. unfold isInVerificationFlow, andThen, getState, pure.
  destruct (states w !! user) as [state|]; [|split; assumption].
  destruct (isExpiredAt now state); [|split; assumption].
  apply (deleteState_sound user w). split; assumption.
Qed.

Lemma cleanupExpiredStates_sound (now : Z) : keepsSound (cleanupExpiredStates now).
Proof.
  intros w [Hm Hs]. split.
  - eapply metricsConsistent_frame; [| |exact Hm]; reflexivity.
  - eapply statesSound_part; [|exact Hs]. intros u st.
    rewrite cleanupExpiredStates_lookup.
    destruct (states w !! u) as [state|]; [|discriminate].
    destruct (isExpiredAt now state); [discriminate|auto].
Qed.

Lemma resetDailyAPICounter_sound : keepsSound resetDailyAPICounter.
Proof.
  intros w [Hm Hs]. split.
  - revert Hm. unfold metricsConsistent. cbv zeta.
    cbn [resetDailyAPICounter updateMetrics snd ocrMetrics ocrCalls totalAttempts
         successfulReads visionAPICallsToday averageConfidence].
    intros (H1 & H2 & H3 & H4 & H5). repeat split; try assumption; lia.
  - eapply statesSound_frame; [|exact Hs]. reflexivity.
Qed.

Lemma writeTable_sound (table : gmap string SessionRow) : keepsSound (writeTable table).
Proof.
  intros w [Hm Hs]. split.
  - eapply metricsConsistent_frame; [| |exact Hm]; reflexivity.
  - eapply statesSound_frame; [|exact Hs]. reflexivity.
Qed.

Lemma eventSound_snoc (l : list Event) (e : Event) :
  List.Forall eventSound l -> eventSound e -> List.Forall eventSound (l ++ [e]).
Proof.
  intros Hl He. apply Forall_app. split; [exact Hl|]. constructor; [exact He|constructor].
Qed.

Lemma backendSound_intro (b : Backend) :
  metricsConsistent (world b) -> statesSound (world b) ->
  List.Forall eventSound (events b) -> backendSound b.
Proof. intros H1 H2 H3. exact (conj H1 (conj H2 H3)). Qed.

Lemma lift_sound {A} (m : Service A) (b : Backend) :
  keepsSound m -> backendSound b -> backendSound (snd (lift m b)).
Proof.
  intros K (Hm & Hs & He). unfold lift.
  destruct (K (world b) (conj Hm Hs)) as [Hm' Hs'].
  destruct (m (world b)) as [a w']. cbn [snd world events] in *.
  apply backendSound_intro; assumption.
Qed.

Lemma heldReading_sound (user : string) (state : VerificationState) (reading : float) :
  stateSound user state -> heldReading state = Some reading ->
  Outcome.valid (validateReading reading) = true /\ 0 <= attemptCount state.
Proof.
  intros (_ & Ha & Hh). unfold heldReading.
  destruct (lastReading state) as [r|]; [|discriminate].
  destruct (truthy r); [|discriminate]. intros [= <-].
  split; [apply Hh|exact Ha].
Qed.

Lemma confirmStartReading_sound (user : string) (chargingStarts : bool) (b : Backend) :
  backendSound b -> backendSound (snd (confirmStartReading user chargingStarts b)).
Proof.
  intros (Hm & Hs & He).
  assert (Sent : forall n, backendSound
            {| world := world b; events := (events b ++ [Notified user n])%list |}).
  { intros n. apply backendSound_intro; try assumption.
    apply eventSound_snoc; [exact He|exact I]. }
  unfold confirmStartReading, next, lift, getState, notify, record, done.
  cbn [fst snd world events].
  destruct (states (world b) !! user) as [state|] eqn:Hu; [|apply Sent].
  destruct (type state); [|apply Sent].
  destruct (heldReading state) as [reading|] eqn:Hr; [|apply Sent].
  destruct (heldReading_sound _ _ _ (Hs _ _ Hu) Hr) as [V Ha].
  unfold getSession. cbn [fst snd world events].
  destruct (chargingSessions (world b) !! sessionId state) as [row|].
  - assert (Ev : List.Forall eventSound
              ((events b
                ++ [StartVerified (sessionId state) (Number_toString reading)
                      (confidenceText state) (attemptCount state)])
               ++ [StartChargingAfterVerification (sessionId state) reading])%list).
    { apply eventSound_snoc; [apply eventSound_snoc; [exact He|]|exact V].
      split; [exact Ha|]. exists reading. split; [reflexivity|exact V]. }
    destruct chargingStarts; cbn [fst snd world events updateSession deleteState].
    + apply backendSound_intro.
      * eapply metricsConsistent_frame; [| |exact Hm]; reflexivity.
      * eapply statesSound_delete; [|exact Hs]. reflexivity.
      * apply eventSound_snoc; [exact Ev|exact I].
    + apply backendSound_intro.
      * eapply metricsConsistent_frame; [| |exact Hm]; reflexivity.
      * eapply statesSound_frame; [|exact Hs]. reflexivity.
      * apply eventSound_snoc; [exact Ev|exact I].
  - cbn [fst snd world events deleteState]. apply backendSound_intro.
    + eapply metricsConsistent_frame; [| |exact Hm]; reflexivity.
    + eapply statesSound_delete; [|exact Hs]. reflexivity.
    + apply eventSound_snoc; [exact He|exact I].
Qed.

Lemma confirmEndReading_sound (user : string) (completes : bool) (b : Backend) :
  backendSound b -> backendSound (snd (confirmEndReading user completes b)).
Proof.
  intros (Hm & Hs & He).
  assert (Sent : forall n, backendSound
            {| world := world b; events := (events b ++ [Notified user n])%list |}).
  { intros n. apply backendSound_intro; try assumption.
    apply eventSound_snoc; [exact He|exact I]. }
  unfold confirmEndReading, next, lift, getState, notify, record, done.
  cbn [fst snd world events].
  destruct (states (world b) !! user) as [state|] eqn:Hu; [|apply Sent].
  destruct (type state); [apply Sent|].
  destruct (heldReading state) as [reading|] eqn:Hr; [|apply Sent].
  destruct (heldReading_sound _ _ _ (Hs _ _ Hu) Hr) as [V Ha].
  unfold getSession. cbn [fst snd world events].
  destruct (storedStartReading (chargingSessions (world b) !! sessionId state))
    as [stored|].
  - set (consumption := (reading - parseFloat stored)%float).
    assert (Ev : List.Forall eventSound
              ((events b
                ++ [EndVerified (sessionId state) (Number_toString reading)
                      (confidenceText state) (attemptCount state)
                      (Number_toString consumption)])
               ++ [CompleteSessionAfterVerification (sessionId state) reading
                     consumption])%list).
    { apply eventSound_snoc; [apply eventSound_snoc; [exact He|]|exact V].
      split; [exact Ha|]. exists reading. split; [reflexivity|exact V]. }
    destruct completes; cbn [fst snd world events updateSession deleteState].
    + apply backendSound_intro.
      * eapply metricsConsistent_frame; [| |exact Hm]; reflexivity.
      * eapply statesSound_delete; [|exact Hs]. reflexivity.
      * exact Ev.
    + apply backendSound_intro.
      * eapply metricsConsistent_frame; [| |exact Hm]; reflexivity.
      * eapply statesSound_frame; [|exact Hs]. reflexivity.
      * exact Ev.
  - apply backendSound_intro; assumption.
Qed.

Lemma perform_sound (now : Z) (r : Request) (b : Backend) :
  backendSound b -> backendSound (perform now r b).
Proof.
  intros H. destruct r; cbn [perform].
  - apply lift_sound; [apply initiateStartVerification_sound|exact H].
  - apply lift_sound; [apply initiateEndVerification_sound|exact H].
  - apply lift_sound; [apply handleStartPhoto_sound|exact H].
  - apply lift_sound; [apply handleEndPhoto_sound|exact H].
  - apply lift_sound; [apply handleManualEntry_sound|exact H].
  - apply confirmStartReading_sound, H.
  - apply confirmEndReading_sound, H.
  - apply lift_sound; [apply retake_sound|exact H].
  - apply lift_sound; [apply retake_sound|exact H].
  - apply lift_sound; [apply isInVerificationFlow_sound|exact H].
  - apply lift_sound; [apply deleteState_sound|exact H].
  - apply lift_sound; [apply cleanupExpiredStates_sound|exact H].
  - apply lift_sound; [apply resetDailyAPICounter_sound|exact H].
  - apply lift_sound; [apply writeTable_sound|exact H].
Qed.

Lemma run_sound (log : list (Z * Request)) (b : Backend) :
  backendSound b -> backendSound (run log b).
Proof.
  revert b. induction log as [|[now r] log IH]; intros b H; [exact H|].
  apply IH, perform_sound, H.
Qed.

Lemma constructed_sound (table : gmap string SessionRow) :
  backendSound (constructed table).
Proof.
  apply backendSound_intro.
  - repeat split; try (cbn; lia); discriminate.
  - intros user state. cbn. rewrite lookup_empty. discriminate.
  - constructor.
Qed.

(** X9. Whatever requests the service has served since it was
    constructed, and whatever the other services did to the session table
    in between, its metrics fit together: the successful reads and the
    calls counted for the day are between 0 and the total of attempts, the
    average confidence is between 0 and 100, and the text detection has
    been called at most once per counted attempt. *)
Theorem metrics_stay_consistent
  (table : gmap string SessionRow) (log : list (Z * Request)) :
  0 <= successfulReads (ocrMetrics (world (run log (constructed table))))
    <= totalAttempts (ocrMetrics (world (run log (constructed table))))
  /\ 0 <= visionAPICallsToday (ocrMetrics (world (run log (constructed table))))
       <= totalAttempts (ocrMetrics (world (run log (constructed table))))
  /\ (0 <= averageConfidence (ocrMetrics (world (run log (constructed table)))))%Q
  /\ (averageConfidence (ocrMetrics (world (run log (constructed table)))) <= 100)%Q
  /\ Z.of_nat (length (ocrCalls (world (run log (constructed table)))))
     <= totalAttempts (ocrMetrics (world (run log (constructed table)))).
Proof.
  exact (proj1 (run_sound log _ (constructed_sound table))).
Qed.

(** X10. Whatever requests the service has served since it was
    constructed, every reading it holds for confirmation sits under the
    user it belongs to, passed [validateReading] (so it lies between 10 and
    999999), and came with confidence 0 or a confidence between 70 and 100;
    and every start or end reading that a confirmation wrote to the session
    table or passed on to the session service is such a reading, written as
    [toString] prints it. *)
Theorem held_and_written_readings_are_valid
  (table : gmap string SessionRow) (log : list (Z * Request)) :
  (forall user state reading,
     states (world (run log (constructed table))) !! user = Some state ->
     lastReading state = Some reading ->
     userWhatsapp state = user
     /\ Outcome.valid (validateReading reading) = true
     /\ isValidReading reading = true
     /\ exists c, lastConfidence state = Some c
                  /\ (c = 0%Q \/ ((70 <= c)%Q /\ (c <= 100)%Q)))
  /\ (forall session written confidence attempts,
        In (StartVerified session written confidence attempts)
           (events (run log (constructed table))) ->
        exists reading, written = Number_toString reading
                        /\ Outcome.valid (validateReading reading) = true
                        /\ isValidReading reading = true)
  /\ (forall session written confidence attempts energy,
        In (EndVerified session written confidence attempts energy)
           (events (run log (constructed table))) ->
        exists reading, written = Number_toString reading
                        /\ Outcome.valid (validateReading reading) = true
                        /\ isValidReading reading = true)
  /\ (forall session reading,
        In (StartChargingAfterVerification session reading)
           (events (run log (constructed table))) ->
        Outcome.valid (validateReading reading) = true)
  /\ (forall session reading consumption,
        In (CompleteSessionAfterVerification session reading consumption)
           (events (run log (constructed table))) ->
        Outcome.valid (validateReading reading) = true).
Proof.
  destruct (run_sound log _ (constructed_sound table)) as (_ & Hs & He).
  rewrite List.Forall_forall in He.
  repeat apply conj.
  - intros user state reading Hu Hr.
    destruct (Hs _ _ Hu) as (H1 & _ & H3). rewrite Hr in H3.
    destruct H3 as (V & C).
    split; [exact H1|]. split; [exact V|].
    split; [apply validateReading_isValidReading; exact V|exact C].
  - intros session written confidence attempts Hin.
    destruct (He _ Hin) as (_ & reading & -> & V).
    exists reading. split; [reflexivity|]. split; [exact V|].
    apply validateReading_isValidReading; exact V.
  - intros session written confidence attempts energy Hin.
    destruct (He _ Hin) as (_ & reading & -> & V).
    exists reading. split; [reflexivity|]. split; [exact V|].
    apply validateReading_isValidReading; exact V.
  - intros session reading Hin. exact (He _ Hin).
  - intros session reading consumption Hin. exact (He _ Hin).
Qed.

(** A run in which [u1] is asked for the start photo of [s1], sends a
    blank and then a clear photo, and confirms: the reading 1245.8 is
    written and passed on, and the state is gone. *)
Example run_sample :
  let b := run [(1000, InitiateStart "u1" "s1" 7);
                (2000, StartPhoto "u1" blankImage);
                (3000, StartPhoto "u1" clearImage);
                (4000, ConfirmStart "u1" true)]
               (constructed (chargingSessions freshWorld)) in
  events b
  = [StartVerified "s1" "1245.8" (Some "86.66666666666667"%string) 2;
     StartChargingAfterVerification "s1" 1245.8%float;
     Notified "u1" (ChargingStarted "1245.8 kWh" true (Some "87"%string))]
  /\ states (world b) !! "u1"%string = None
  /\ ocrMetrics (world b)
     = {| totalAttempts := 2; successfulReads := 1;
          averageConfidence := 260 # 6; visionAPICallsToday := 2 |}
  /\ (startMeterReading <$> chargingSessions (world b) !! "s1"%string)
     = Some (Some "1245.8"%string).
Proof. vm_compute. repeat split; reflexivity. Qed.

End Invariants.

(* ================================================================== *)
(** * Confirmation of readings *)
(* ================================================================== *)

Section Confirming.
Import JsNumber JsString OcrProcessor PhotoVerification VerificationFlow Confirmation.

(** The confirmable reading of a user: the state is of the given kind
    and holds a truthy reading. *)
Lemma confirmStartReading_unfold (user : string) (chargingStarts : bool) (b : Backend) :
  confirmStartReading user chargingStarts b =
  let w := world b in
  let noReading :=
    (false, {| world := w;
               events := (events b ++ [Notified user NoReadingToConfirm])%list |}) in
  match states w !! user with
  | Some state =>
      match type state, heldReading state with
      | start, Some reading =>
          match chargingSessions w !! sessionId state with
          | None =>
              (false,
               {| world := snd (deleteState user w);
                  events := (events b ++ [Notified user SessionNotFound])%list |})
          | Some _ =>
              let written :=
                snd (updateSession (sessionId state)
                       (setStartVerified (Number_toString reading)) w) in
              let trace :=
                ((events b
                  ++ [StartVerified (sessionId state) (Number_toString reading)
                        (confidenceText state) (attemptCount state)])
                 ++ [StartChargingAfterVerification (sessionId state) reading])%list in
              if chargingStarts then
                (true,
                 {| world := snd (deleteState user written);
                    events :=
                      (trace
                       ++ [Notified user
                             (ChargingStarted (Confidence.formatReading reading)
                                (Confidence.isGoodConfidence
                                   (match lastConfidence state with
                                    | Some c => c
                                    | None => 0%Q
                                    end))
                                (option_map confidenceToFixed0 (lastConfidence state)))])%list |})
              else
                (false,
                 {| world := written;
                    events := (trace ++ [Notified user ErrorStartingCharging])%list |})
          end
      | _, _ => noReading
      end
  | None => noReading
  end.
Proof.
  unfold confirmStartReading, next, lift, getState, getSession, notify, record, done.
  cbn [fst snd world events]. cbv zeta.
  destruct (states (world b) !! user) as [state|]; [|reflexivity].
  destruct (type state); [|destruct (heldReading state); reflexivity].
  destruct (heldReading state) as [reading|]; [|reflexivity].
  cbn [fst snd world events].
  destruct (chargingSessions (world b) !! sessionId state); [|reflexivity].
  destruct chargingStarts; reflexivity.
Qed.

Lemma confirmEndReading_unfold (user : string) (completes : bool) (b : Backend) :
  confirmEndReading user completes b =
  let w := world b in
  let noReading :=
    (Resolved false,
     {| world := w;
        events := (events b ++ [Notified user NoReadingToConfirm])%list |}) in
  match states w !! user with
  | Some state =>
      match type state, heldReading state with
      | end_, Some reading =>
          match storedStartReading (chargingSessions w !! sessionId state) with
          | None => (Resolved false, b)
          | Some stored =>
              let consumption := (reading - parseFloat stored)%float in
              let written :=
                snd (updateSession (sessionId state) (setStatus "completed") w) in
              let trace :=
                ((events b
                  ++ [EndVerified (sessionId state) (Number_toString reading)
                        (confidenceText state) (attemptCount state)
                        (Number_toString consumption)])
                 ++ [CompleteSessionAfterVerification (sessionId state) reading
                       consumption])%list in
              if completes then
                (Resolved true,
                 {| world := snd (deleteState user written); events := trace |})
              else (Rejected, {| world := written; events := trace |})
          end
      | _, _ => noReading
      end
  | None => noReading
  end.
Proof.
  unfold confirmEndReading, next, lift, getState, getSession, notify, record, done.
  cbn [fst snd world events]. cbv zeta.
  destruct (states (world b) !! user) as [state|]; [|reflexivity].
  destruct (type state); [destruct (heldReading state); reflexivity|].
  destruct (heldReading state) as [reading|]; [|reflexivity].
  cbn [fst snd world events].
  destruct (storedStartReading _); [|destruct b; reflexivity].
  destruct completes; reflexivity.
Qed.

(** ** The text of a number is never empty *)

Lemma append_nonempty_l (s t : string) : s <> ""%string -> s +:+ t <> ""%string.
Proof. destruct s; [congruence|discriminate]. Qed.

Lemma append_nonempty_r (s t : string) : t <> ""%string -> s +:+ t <> ""%string.
Proof. destruct s; [auto|discriminate]. Qed.

Lemma digitsOf_nonempty (z : Z) : digitsOf z <> ""%string.
Proof.
  unfold digitsOf, NilZero.string_of_uint.
  destruct (N.to_uint (Z.to_N z)); discriminate.
Qed.

Lemma formatDigits_nonempty (d : string) (k n : Z) :
  d <> ""%string -> formatDigits d k n <> ""%string.
Proof.
  intros Hd. unfold formatDigits.
  destruct (_ && _); [apply append_nonempty_l, Hd|].
  destruct (_ && _); [apply append_nonempty_r; discriminate|].
  destruct (_ && _); [discriminate|].
  destruct (k =? 1); [apply append_nonempty_l, Hd|].
  apply append_nonempty_r; discriminate.
Qed.

Lemma Number_toString_nonempty (x : float) : Number_toString x <> ""%string.
Proof.
  unfold Number_toString.
  destruct (Prim2SF x) as [s|s| |s m e]; try discriminate.
  - destruct s; discriminate.
  - destruct (shortestDigits _ _ _ _ _) as [[sd k] n].
    destruct s; [discriminate|].
    apply formatDigits_nonempty, digitsOf_nonempty.
Qed.

(** X11. What [confirmStartReading] does, case by case. It returns
    [true] exactly when the user has a start state holding a reading, the
    session row exists, and the session service starts the charging; the
    state is then removed. With a reading and a row, the row is written
    (the reading as text, status [start_verified]) and the session service
    is called before the outcome is known: when that call throws, the
    function returns [false] and keeps the state, and the row stays
    written. Without a start state holding a reading it only says so; with
    a reading but no row it removes the state. *)
Theorem confirmStartReading_outcome
  (b : Backend) (user : string) (chargingStarts : bool) :
  (fst (confirmStartReading user chargingStarts b) = true <->
     chargingStarts = true
     /\ exists state reading,
          states (world b) !! user = Some state /\ type state = start
          /\ heldReading state = Some reading
          /\ is_Some (chargingSessions (world b) !! sessionId state))
  /\ (fst (confirmStartReading user chargingStarts b) = true ->
      states (world (snd (confirmStartReading user chargingStarts b)))
      = delete user (states (world b)))
  /\ (forall state reading row,
        states (world b) !! user = Some state -> type state = start ->
        heldReading state = Some reading ->
        chargingSessions (world b) !! sessionId state = Some row ->
        chargingSessions (world (snd (confirmStartReading user chargingStarts b)))
        = <[sessionId state := setStartVerified (Number_toString reading) row]>
            (chargingSessions (world b))
        /\ events (snd (confirmStartReading user chargingStarts b))
           = (events b
              ++ [StartVerified (sessionId state) (Number_toString reading)
                    (confidenceText state) (attemptCount state);
                  StartChargingAfterVerification (sessionId state) reading;
                  Notified user
                    (if chargingStarts
                     then ChargingStarted (Confidence.formatReading reading)
                            (Confidence.isGoodConfidence
                               (match lastConfidence state with
                                | Some c => c
                                | None => 0%Q
                                end))
                            (option_map confidenceToFixed0 (lastConfidence state))
                     else ErrorStartingCharging)])%list
        /\ (chargingStarts = false ->
            states (world (snd (confirmStartReading user chargingStarts b)))
            = states (world b)))
  /\ (forall state reading,
        states (world b) !! user = Some state -> type state = start ->
        heldReading state = Some reading ->
        chargingSessions (world b) !! sessionId state = None ->
        snd (confirmStartReading user chargingStarts b)
        = {| world := snd (deleteState user (world b));
             events := (events b ++ [Notified user SessionNotFound])%list |})
  /\ ((forall state, states (world b) !! user = Some state ->
                     type state = end_ \/ heldReading state = None) ->
      confirmStartReading user chargingStarts b
      = (false, {| world := world b;
                   events := (events b ++ [Notified user NoReadingToConfirm])%list |})).
Proof.
  rewrite confirmStartReading_unfold. cbv zeta.
  destruct (states (world b) !! user) as [state|] eqn:Hu.
  2:{ repeat apply conj; try discriminate; try reflexivity.
      intros (_ & state & reading & H & _). discriminate. }
  destruct (type state) eqn:Ht.
  2:{ repeat apply conj; try discriminate; try (intros; reflexivity).
      - intros (_ & st & reading & [= <-] & H & _). congruence.
      - intros st reading row [= <-] H. congruence.
      - intros st reading [= <-] H. congruence. }
  destruct (heldReading state) as [reading|] eqn:Hr.
  2:{ repeat apply conj; try discriminate; try (intros; reflexivity).
      - intros (_ & st & r & [= <-] & _ & H & _). congruence.
      - intros st r row [= <-] _ H. congruence.
      - intros st r [= <-] _ H. congruence. }
  destruct (chargingSessions (world b) !! sessionId state) as [row|] eqn:Hrow.
  - assert (Alter : alter (setStartVerified (Number_toString reading)) (sessionId state)
                      (chargingSessions (world b))
                    = <[sessionId state := setStartVerified (Number_toString reading) row]>
                        (chargingSessions (world b))).
    { apply map_eq. intros i. destruct (decide (i = sessionId state)) as [->|Hne].
      - rewrite lookup_alter_eq, lookup_insert_eq, Hrow. reflexivity.
      - rewrite lookup_alter_ne, lookup_insert_ne by congruence. reflexivity. }
    destruct chargingStarts; cbn [fst snd world events states chargingSessions
                                   updateSession deleteState].
    + repeat apply conj.
      * intros _. split; [reflexivity|]. exists state, reading. eauto.
      * reflexivity.
      * reflexivity.
      * intros st r row' E1 _ E3 E4. injection E1 as <-.
        rewrite Hr in E3. injection E3 as <-. rewrite Hrow in E4. injection E4 as <-.
        split; [exact Alter|]. split; [|discriminate].
        rewrite <- !app_assoc. reflexivity.
      * intros st r E1 _ _ E4. injection E1 as <-. congruence.
      * intros H. destruct (H state eq_refl); congruence.
    + repeat apply conj.
      * discriminate.
      * intros (H & _). discriminate.
      * discriminate.
      * intros st r row' E1 _ E3 E4. injection E1 as <-.
        rewrite Hr in E3. injection E3 as <-. rewrite Hrow in E4. injection E4 as <-.
        split; [exact Alter|]. split.
        -- rewrite <- !app_assoc. reflexivity.
        -- intros _. reflexivity.
      * intros st r E1 _ _ E4. injection E1 as <-. congruence.
      * intros H. destruct (H state eq_refl); congruence.
  - repeat apply conj; try discriminate.
    + intros (_ & st & r & E1 & _ & _ & [x Hx]). injection E1 as <-. congruence.
    + intros st r row' E1 _ _ E4. injection E1 as <-. congruence.
    + intros st r E1 _ _ _. reflexivity.
    + intros H. destruct (H state eq_refl); congruence.
Qed.

(** [initiateEndVerification] on a row with a start reading. *)
Lemma initiateEndVerification_stored (user session : string) (station now : Z)
  (w : World) (row : SessionRow) (stored : string) :
  chargingSessions w !! session = Some row ->
  startMeterReading row = Some stored -> stored <> ""%string ->
  fst (initiateEndVerification user session station now w) = inr tt
  /\ states (snd (initiateEndVerification user session station now w))
     = <[user := newState user session station end_ now]> (states w).
Proof.
  intros Hrow Hst Hne. unfold initiateEndVerification, andThen, getSession, pure.
  rewrite Hrow. destruct row as [r ? ? ? ? ? ?]. cbn in Hst. subst r.
  destruct (String.eqb_spec stored ""); [contradiction|]. split; reflexivity.
Qed.

(** X12. A start reading that has been confirmed opens the way to the end
    verification. When [confirmStartReading] returns [true], the row of
    the session holds the confirmed reading as text, and that text is not
    empty; [initiateEndVerification] for the session therefore does not
    throw, and leaves the user with a fresh end state: no attempt counted,
    nothing held. *)
Theorem confirmed_start_opens_end_verification
  (b : Backend) (user : string) (chargingStarts : bool) (station now : Z) :
  fst (confirmStartReading user chargingStarts b) = true ->
  exists state reading row,
    states (world b) !! user = Some state
    /\ heldReading state = Some reading
    /\ chargingSessions (world (snd (confirmStartReading user chargingStarts b)))
       !! sessionId state = Some row
    /\ startMeterReading row = Some (Number_toString reading)
    /\ Number_toString reading <> ""%string
    /\ verificationStatus row = Some "start_verified"%string
    /\ fst (initiateEndVerification user (sessionId state) station now
              (world (snd (confirmStartReading user chargingStarts b)))) = inr tt
    /\ states (snd (initiateEndVerification user (sessionId state) station now
                      (world (snd (confirmStartReading user chargingStarts b)))))
       !! user
       = Some (newState user (sessionId state) station end_ now).
Proof.
  rewrite confirmStartReading_unfold. cbv zeta.
  destruct (states (world b) !! user) as [state|] eqn:Hu; [|discriminate].
  destruct (type state) eqn:Ht; [|destruct (heldReading state); discriminate].
  destruct (heldReading state) as [reading|] eqn:Hr; [|discriminate].
  destruct (chargingSessions (world b) !! sessionId state) as [row|] eqn:Hrow;
    [|discriminate].
  destruct chargingStarts; [|discriminate]. intros _.
  cbn [fst snd world].
  set (w1 := snd (deleteState user
                    (snd (updateSession (sessionId state)
                            (setStartVerified (Number_toString reading)) (world b))))).
  assert (Hrow1 : chargingSessions w1 !! sessionId state
                  = Some (setStartVerified (Number_toString reading) row)).
  { subst w1. cbn [snd deleteState updateSession chargingSessions].
    rewrite lookup_alter_eq, Hrow. reflexivity. }
  exists state, reading, (setStartVerified (Number_toString reading) row).
  destruct (initiateEndVerification_stored user (sessionId state) station now w1 _ _
              Hrow1 eq_refl (Number_toString_nonempty reading)) as [Ok St].
  repeat split; try assumption; try reflexivity.
  - apply Number_toString_nonempty.
  - rewrite St. apply lookup_insert_eq.
Qed.

Lemma confirmed_start_opens_end_verification_witness :
  exists state reading row,
    states (world (run [(1000, InitiateStart "u1" "s1" 7);
                        (3000, StartPhoto "u1" clearImage)]
                       (constructed (chargingSessions freshWorld))))
      !! "u1"%string = Some state
    /\ heldReading state = Some reading
    /\ chargingSessions
         (world (snd (confirmStartReading "u1" true
                        (run [(1000, InitiateStart "u1" "s1" 7);
                              (3000, StartPhoto "u1" clearImage)]
                             (constructed (chargingSessions freshWorld))))))
       !! sessionId state = Some row
    /\ startMeterReading row = Some (Number_toString reading).
Proof.
  destruct (confirmed_start_opens_end_verification
              (run [(1000, InitiateStart "u1" "s1" 7);
                    (3000, StartPhoto "u1" clearImage)]
                   (constructed (chargingSessions freshWorld)))
              "u1" true 7 9000 ltac:(vm_compute; reflexivity))
    as (state & reading & row & H1 & H2 & H3 & H4 & _).
  exists state, reading, row. repeat split; assumption.
Defined.

(** X13. An end reading that a photo got accepted is billed within the
    bounds it was checked against. When [handleEndPhoto] accepts a photo
    and [confirmEndReading] follows, a start reading is found, the function
    does not answer [false], and what it writes and passes on as the energy
    delivered is the plain difference [reading - start] (not the rounded
    consumption shown to the user), a difference between 0.1 and 200 of two
    readings that passed [validateReading]. The state is removed when the
    session service completes the session; when that call throws, the
    rejection is not caught, the row is already marked completed, and the
    state stays. *)
Theorem accepted_end_reading_is_billed_within_bounds
  (b : Backend) (user : string) (imageBuffer : Image) (now : Z) (completes : bool)
  (state : VerificationState) :
  states (world b) !! user = Some state -> type state = end_ ->
  PhotoResult.success (fst (handleEndPhoto user imageBuffer now (world b))) = true ->
  exists reading stored c,
    OCRResult.reading (extracted imageBuffer) = Some reading
    /\ storedStartReading (chargingSessions (world b) !! sessionId state) = Some stored
    /\ fst (confirmEndReading user completes
              (snd (lift (handleEndPhoto user imageBuffer now) b)))
       = (if completes then Resolved true else Rejected)
    /\ events (snd (confirmEndReading user completes
                      (snd (lift (handleEndPhoto user imageBuffer now) b))))
       = (events b
          ++ [EndVerified (sessionId state) (Number_toString reading)
                (Some (Number_toString (Q2float c))) (attemptCount state + 1)
                (Number_toString (reading - parseFloat stored)%float);
              CompleteSessionAfterVerification (sessionId state) reading
                (reading - parseFloat stored)%float])%list
    /\ Outcome.valid (validateReading reading) = true
    /\ Outcome.valid (validateReading (parseFloat stored)) = true
    /\ (0.1 <=? reading - parseFloat stored)%float = true
    /\ (reading - parseFloat stored <=? 200)%float = true
    /\ (states (world (snd (confirmEndReading user completes
                              (snd (lift (handleEndPhoto user imageBuffer now) b)))))
        !! user
        = if completes then None
          else Some (withReading (bumpAttempt state) reading c (ocrProvider state)))
    /\ (verificationStatus
          <$> chargingSessions
                (world (snd (confirmEndReading user completes
                               (snd (lift (handleEndPhoto user imageBuffer now) b)))))
              !! sessionId state)
       = Some (Some "completed"%string).
Proof.
  intros Hs Ht. unfold lift.
  rewrite (handleEndPhoto_unfold _ _ _ _ _ Hs Ht). cbv zeta.
  destruct (OCRResult.success (extracted imageBuffer)) eqn:S.
  2:{ rewrite (extracted_failure _ S).
      match goal with |- context [handleOCRFailure ?u ?s ?e ?w0] =>
        destruct (handleOCRFailure_outcome u s e w0) as (F & _) end.
      rewrite F. discriminate. }
  destruct (extracted_success _ S) as (reading & c & R & C & V & Hlo & Hhi & U & Z & L).
  rewrite U, Z, L.
  destruct (ConsumptionValidation.isValid
              (fst (validateConsumption (sessionId state) reading now (world b)))) eqn:I;
    cbn [negb fst snd PhotoResult.success PhotoResult.failure]; [|discriminate].
  intros _.
  destruct (validateConsumption_valid_inv _ _ _ _ I)
    as (row & stored & Hrow & Hst & Hstored & Hc & _).
  destruct (calculateConsumption_valid_inv _ _ Hc) as (V1 & V2 & O1 & O2 & O3 & _).
  exists reading, stored, c.
  rewrite confirmEndReading_unfold. cbv zeta. cbn [world events states].
  rewrite lookup_insert_eq.
  cbn [type withReading bumpAttempt sessionId attemptCount].
  rewrite Ht.
  unfold heldReading, confidenceText.
  cbn [lastReading lastConfidence withReading option_map].
  rewrite (validateReading_truthy _ V).
  unfold photoCounted. cbn [chargingSessions]. rewrite Hstored.
  split; [exact R|]. split; [reflexivity|].
  destruct completes; cbn [fst snd world events states chargingSessions updateSession
                            deleteState].
  - rewrite <- !app_assoc, lookup_delete_eq, lookup_alter_eq, Hrow.
    repeat split; try assumption; reflexivity.
  - rewrite <- !app_assoc, lookup_insert_eq, lookup_alter_eq, Hrow.
    repeat split; try assumption; reflexivity.
Qed.

Lemma accepted_end_reading_is_billed_within_bounds_witness :
  exists reading stored c,
    OCRResult.reading (extracted clearImage) = Some reading
    /\ storedStartReading
         (chargingSessions awaitingEndPhoto !! sessionId (newState "u1" "s2" 7 end_ 2000))
       = Some stored
    /\ fst (confirmEndReading "u1" true
              (snd (lift (handleEndPhoto "u1" clearImage 4000000)
                      {| world := awaitingEndPhoto; events := [] |})))
       = Resolved true
    /\ events (snd (confirmEndReading "u1" true
                      (snd (lift (handleEndPhoto "u1" clearImage 4000000)
                              {| world := awaitingEndPhoto; events := [] |}))))
       = [EndVerified "s2" (Number_toString reading)
            (Some (Number_toString (Q2float c))) 1
            (Number_toString (reading - parseFloat stored)%float);
          CompleteSessionAfterVerification "s2" reading
            (reading - parseFloat stored)%float].
Proof.
  destruct (accepted_end_reading_is_billed_within_bounds
              {| world := awaitingEndPhoto; events := [] |}
              "u1" clearImage 4000000 true (newState "u1" "s2" 7 end_ 2000)
              ltac:(vm_compute; reflexivity) eq_refl ltac:(vm_compute; reflexivity))
    as (reading & stored & c & H1 & H2 & H3 & H4 & _).
  exists reading, stored, c. repeat split; assumption.
Defined.

(** The same run on concrete values: the photo reads 1245.8 against a
    start of 1200; the consumption shown to the user is 45.8, the energy
    written is the unrounded difference. *)
Example confirmEndReading_sample :
  events (snd (confirmEndReading "u1" true
                 (snd (lift (handleEndPhoto "u1" clearImage 4000000)
                         {| world := awaitingEndPhoto; events := [] |}))))
  = [EndVerified "s2" "1245.8" (Some "86.66666666666667"%string) 1
       "45.799999999999955";
     CompleteSessionAfterVerification "s2" 1245.8%float
       (1245.8 - 1200)%float]
  /\ last (outbox (snd (handleEndPhoto "u1" clearImage 4000000 awaitingEndPhoto)))
     = Some ("u1"%string,
             EndReadingConfirmation 1245.8%float (Some 45.8%float) (260 # 3) None).
Proof. vm_compute. split; reflexivity. Qed.

End Confirming.

(* ================================================================== *)
(** * Message deduplication *)
(* ================================================================== *)

Section Deduplication.
Import MessageDeduplication.

Lemma cleanup_lookup (now : Z) (processed : gmap string Z) (messageId : string) :
  cleanup now processed !! messageId =
  match processed !! messageId with
  | Some timestamp => if TTL <? now - timestamp then None else Some timestamp
  | None => None
  end.
Proof.
  unfold cleanup.
  set (f := fun (messageId : string) (timestamp : Z) (remaining : gmap string Z) =>
              if TTL <? now - timestamp then delete messageId remaining else remaining).
  assert (G : forall m,
    (fun r m => forall u, r !! u =
       match m !! u with
       | Some timestamp => if TTL <? now - timestamp then None else processed !! u
       | None => processed !! u
       end) (map_fold f processed m) m).
  { apply (map_fold_weak_ind
             (fun r m => forall u, r !! u =
                match m !! u with
                | Some timestamp => if TTL <? now - timestamp then None else processed !! u
                | None => processed !! u
                end)).
    - intros u. rewrite lookup_empty. reflexivity.
    - intros i x m r Hi IH u. unfold f.
      destruct (decide (u = i)) as [->|Hne].
      + rewrite lookup_insert_eq. specialize (IH i). rewrite Hi in IH.
        destruct (TTL <? now - x).
        * apply lookup_delete_eq.
        * exact IH.
      + rewrite lookup_insert_ne by congruence. specialize (IH u).
        destruct (TTL <? now - x).
        * rewrite lookup_delete_ne by congruence. exact IH.
        * exact IH. }
  specialize (G processed messageId). cbv beta in G. rewrite G.
  destruct (processed !! messageId) as [timestamp|]; [|reflexivity].
  destruct (TTL <? now - timestamp); reflexivity.
Qed.

(** [isDuplicate], by what is recorded for the id. *)
Lemma isDuplicate_recorded (messageId : string) (now : Z) (processed : gmap string Z) :
  isDuplicate messageId now processed =
  match processed !! messageId with
  | Some timestamp =>
      if negb (timestamp =? 0) && (now - timestamp <? TTL)
      then (true, processed)
      else (false, <[messageId := now]> processed)
  | None => (false, <[messageId := now]> processed)
  end.
Proof.
  unfold isDuplicate.
  destruct (processed !! messageId) as [timestamp|]; [|reflexivity].
  destruct (timestamp =? 0); [reflexivity|]. cbn [negb andb].
  destruct (now - timestamp <? TTL); [reflexivity|].
  rewrite insert_delete_eq. reflexivity.
Qed.

(** X14. A message id is reported as a duplicate exactly when it was
    recorded, at a time other than 0, less than 5 minutes (300 000 ms)
    before; the record is then left as it is, so the 5 minutes run from the
    first delivery and are not extended by the repeats. In every other case
    the id is recorded with the present time. A lookup does not touch the
    other ids. After a lookup at [first] that was not a duplicate, a second
    lookup of the same id at [second] is a duplicate exactly when [first] is
    not 0 and [second - first < 300000]. *)
Theorem isDuplicate_window (processed : gmap string Z) (messageId : string)
  (first second : Z) :
  (fst (isDuplicate messageId first processed) = true <->
     exists timestamp, processed !! messageId = Some timestamp
                       /\ timestamp <> 0 /\ first - timestamp < 300000)
  /\ (fst (isDuplicate messageId first processed) = true ->
      snd (isDuplicate messageId first processed) = processed)
  /\ (fst (isDuplicate messageId first processed) = false ->
      snd (isDuplicate messageId first processed) = <[messageId := first]> processed)
  /\ (forall other, other <> messageId ->
        snd (isDuplicate messageId first processed) !! other = processed !! other)
  /\ (fst (isDuplicate messageId first processed) = false ->
      fst (isDuplicate messageId second (snd (isDuplicate messageId first processed)))
      = negb (first =? 0) && (second - first <? 300000)).
Proof.
  rewrite isDuplicate_recorded. change TTL with 300000.
  destruct (processed !! messageId) as [timestamp|] eqn:H.
  - destruct (Z.eqb_spec timestamp 0) as [E|E]; cbn [negb andb fst snd].
    + repeat apply conj; try discriminate; try reflexivity.
      * intros (t & [= <-] & H1 & _). contradiction.
      * intros other Hne. apply lookup_insert_ne. congruence.
      * intros _. rewrite isDuplicate_recorded, lookup_insert_eq. change TTL with 300000.
        destruct (_ && _); reflexivity.
    + destruct (Z.ltb_spec (first - timestamp) 300000) as [L|L]; cbn [fst snd].
      * repeat apply conj; try discriminate; try reflexivity.
        intros _. exists timestamp. auto.
      * repeat apply conj; try discriminate; try reflexivity.
        -- intros (t & [= <-] & _ & H2). lia.
        -- intros other Hne. apply lookup_insert_ne. congruence.
        -- intros _. rewrite isDuplicate_recorded, lookup_insert_eq.
           change TTL with 300000. destruct (_ && _); reflexivity.
  - cbn [fst snd]. repeat apply conj; try discriminate; try reflexivity.
    + intros (t & E & _). discriminate.
    + intros other Hne. apply lookup_insert_ne. congruence.
    + intros _. rewrite isDuplicate_recorded, lookup_insert_eq. change TTL with 300000.
      destruct (_ && _); reflexivity.
Qed.

(** What [cleanup] removed was of no use to later lookups. *)
Lemma answers_after_cleanup (swept : Z) (lookups : list (string * Z))
  (cleaned processed : gmap string Z) :
  List.Forall (fun q => swept <= snd q) lookups ->
  (forall messageId,
     cleaned !! messageId = processed !! messageId
     \/ (cleaned !! messageId = None
         /\ exists timestamp, processed !! messageId = Some timestamp
                              /\ TTL < swept - timestamp)) ->
  answers lookups cleaned = answers lookups processed.
Proof.
  revert cleaned processed.
  induction lookups as [|[messageId now] rest IH]; intros cleaned processed Hq R;
    [reflexivity|].
  inversion Hq as [|? ? Hnow Hrest]; subst. cbn [snd] in Hnow.
  cbn [answers]. rewrite !isDuplicate_recorded.
  destruct (R messageId) as [E|(E & timestamp & Ht & Hold)].
  - rewrite E. destruct (processed !! messageId) as [timestamp|].
    + destruct (_ && _); cbn [fst snd]; f_equal; apply IH; try assumption.
      intros j. destruct (decide (j = messageId)) as [->|Hne].
      * left. rewrite !lookup_insert_eq. reflexivity.
      * rewrite !lookup_insert_ne by congruence. apply R.
    + cbn [fst snd]. f_equal. apply IH; [assumption|].
      intros j. destruct (decide (j = messageId)) as [->|Hne].
      * left. rewrite !lookup_insert_eq. reflexivity.
      * rewrite !lookup_insert_ne by congruence. apply R.
  - rewrite E, Ht.
    assert (F : negb (timestamp =? 0) && (now - timestamp <? TTL) = false).
    { destruct (Z.ltb_spec (now - timestamp) TTL); [lia|apply andb_false_r]. }
    rewrite F. cbn [fst snd]. f_equal. apply IH; [assumption|].
    intros j. destruct (decide (j = messageId)) as [->|Hne].
    + left. rewrite !lookup_insert_eq. reflexivity.
    + rewrite !lookup_insert_ne by congruence. apply R.
Qed.

(** X15. [cleanup] removes exactly the records older than 5 minutes and
    changes no answer: whatever ids are looked up afterwards, in whatever
    order, at times not before the sweep, [isDuplicate] answers as it
    would have without the sweep. *)
Theorem cleanup_changes_no_answer (swept : Z) (processed : gmap string Z)
  (lookups : list (string * Z)) :
  (forall messageId,
     cleanup swept processed !! messageId
     = match processed !! messageId with
       | Some timestamp => if 300000 <? swept - timestamp then None else Some timestamp
       | None => None
       end)
  /\ (List.Forall (fun q => swept <= snd q) lookups ->
      answers lookups (cleanup swept processed) = answers lookups processed).
Proof.
  split; [intros messageId; apply cleanup_lookup|].
  intros Hq. apply (answers_after_cleanup swept); [exact Hq|].
  intros messageId. rewrite cleanup_lookup.
  destruct (processed !! messageId) as [timestamp|]; [|left; reflexivity].
  destruct (Z.ltb_spec TTL (swept - timestamp)); [|left; reflexivity].
  right. split; [reflexivity|]. exists timestamp. split; [reflexivity|assumption].
Qed.

(** A sweep does change an answer to a lookup made at an earlier time,
    and [clear] with an empty id forgets every record. *)
Example cleanup_and_clear_samples :
  answers [("m1"%string, 1)] (cleanup 400000 {[ "m1"%string := 50000 ]}) = [false]
  /\ answers [("m1"%string, 1)] {[ "m1"%string := 50000 ]} = [true]
  /\ clear (Some ""%string) {[ "m1"%string := 50000 ]} = ∅
  /\ clear (Some "m2"%string) {[ "m1"%string := 50000 ]} = {[ "m1"%string := 50000 ]}.
Proof. vm_compute. repeat split; reflexivity. Qed.

End Deduplication.

(* ================================================================== *)
(** * The webhook controller *)
(* ================================================================== *)

Section WebhookDispatch.
Import MessageDeduplication Webhook.

Lemma dispatchFrom_once (clock : nat -> Z) (n : nat) :
  clockSteady clock n ->
  forall (allMessages : list WaMessage) (i : nat) (processed : gmap string Z),
    (i + length allMessages <= n)%nat ->
    recordsFresh clock n processed ->
    NoDup (map id (fst (dispatchFrom clock i allMessages processed)))
    /\ sublist (fst (dispatchFrom clock i allMessages processed)) allMessages
    /\ (forall message, In message (fst (dispatchFrom clock i allMessages processed)) ->
                        processed !! id message = None)
    /\ (forall message, In message allMessages -> processed !! id message = None ->
          In (id message) (map id (fst (dispatchFrom clock i allMessages processed)))).
Proof.
  intros [Hz Hw].
  induction allMessages as [|message rest IH]; intros i processed Hi Hf.
  - cbn. repeat split; [constructor|constructor|contradiction|contradiction].
  - cbn [length] in Hi. assert (Hin : (i < n)%nat) by lia.
    assert (Hi' : (S i + length rest <= n)%nat) by lia.
    cbn [dispatchFrom]. rewrite isDuplicate_recorded.
    destruct (processed !! id message) as [timestamp|] eqn:Hm.
    + destruct (Hf _ _ i Hin Hm) as [Hne Hlt].
      assert (D : negb (timestamp =? 0) && (clock i - timestamp <? TTL) = true).
      { apply andb_true_intro. split.
        - apply negb_true_iff, Z.eqb_neq, Hne.
        - apply Z.ltb_lt, Hlt. }
      rewrite D.
      destruct (IH (S i) processed Hi' Hf) as (N & Sub & F & C).
      destruct (dispatchFrom clock (S i) rest processed) as [dispatched final].
      cbn [fst] in *. repeat split.
      * exact N.
      * apply sublist_cons, Sub.
      * exact F.
      * intros m [<-|Hm'] Hn; [congruence|apply C; assumption].
    + assert (Hf' : recordsFresh clock n (<[id message := clock i]> processed)).
      { intros j t k Hk. destruct (decide (j = id message)) as [->|Hne].
        - rewrite lookup_insert_eq. intros [= <-]. split; [apply Hz|apply Hw]; assumption.
        - rewrite lookup_insert_ne by congruence. apply Hf. exact Hk. }
      destruct (IH (S i) _ Hi' Hf') as (N & Sub & F & C).
      destruct (dispatchFrom clock (S i) rest (<[id message := clock i]> processed))
        as [dispatched final].
      cbn [fst map] in *. repeat split.
      * constructor; [|exact N].
        rewrite list_elem_of_In, in_map_iff. intros (m & E & Hm').
        specialize (F m Hm'). rewrite E, lookup_insert_eq in F. discriminate.
      * apply sublist_skip, Sub.
      * intros m [<-|Hm']; [exact Hm|].
        specialize (F m Hm').
        destruct (decide (id m = id message)) as [E|Hne].
        -- rewrite E, lookup_insert_eq in F. discriminate.
        -- rewrite lookup_insert_ne in F by congruence. exact F.
      * intros m [<-|Hm'] Hn; [left; reflexivity|].
        destruct (decide (id m = id message)) as [E|Hne]; [left; congruence|].
        right. apply C; [exact Hm'|]. rewrite lookup_insert_ne by congruence. exact Hn.
Qed.

(** X16. A webhook payload is dispatched without repeats. When the clock
    readings of the loop are not 0 and lie within 5 minutes of each other,
    and every id already recorded is recorded less than 5 minutes before
    them, then the messages handed on are messages of the payload, in the
    order of the payload, no id is handed on twice, none of them had its id
    recorded, and every id of the payload that was not recorded is handed
    on. A payload of another object is not dispatched at all. *)
Theorem webhook_dispatches_each_id_once
  (clock : nat -> Z) (webhookData : WebhookData) (processed : gmap string Z) :
  clockSteady clock (length (extractMessages webhookData)) ->
  recordsFresh clock (length (extractMessages webhookData)) processed ->
  NoDup (map id (fst (handleWebhook clock webhookData processed)))
  /\ sublist (fst (handleWebhook clock webhookData processed))
       (extractMessages webhookData)
  /\ (forall message,
        In message (fst (handleWebhook clock webhookData processed)) ->
        processed !! id message = None)
  /\ (object webhookData = "whatsapp_business_account"%string ->
      forall message,
        In message (extractMessages webhookData) -> processed !! id message = None ->
        In (id message) (map id (fst (handleWebhook clock webhookData processed))))
  /\ (object webhookData <> "whatsapp_business_account"%string ->
      handleWebhook clock webhookData processed = ([], processed)).
Proof.
  intros Hc Hf. unfold handleWebhook.
  destruct (String.eqb_spec (object webhookData) "whatsapp_business_account") as [E|E];
    cbn [negb].
  - destruct (dispatchFrom_once clock _ Hc (extractMessages webhookData) 0 processed
                (Nat.le_refl _) Hf) as (N & Sub & F & C).
    split; [exact N|]. split; [exact Sub|]. split; [exact F|].
    split; [intros _; exact C|]. intros H. contradiction.
  - cbn [fst]. split; [constructor|]. split; [apply sublist_nil_l|].
    split; [intros message []|]. split; [intros H; contradiction|]. reflexivity.
Qed.

Lemma webhook_dispatches_each_id_once_witness :
  NoDup (map id (fst (handleWebhook (fun i => 1000 + Z.of_nat i) repeatedDelivery ∅)))
  /\ map id (fst (handleWebhook (fun i => 1000 + Z.of_nat i) repeatedDelivery ∅))
     = ["m1"; "m2"]%string.
Proof.
  split; [|vm_compute; reflexivity].
  apply (webhook_dispatches_each_id_once (fun i => 1000 + Z.of_nat i) repeatedDelivery ∅).
  - change (length (extractMessages repeatedDelivery)) with 3%nat.
    split; [intros i Hi; lia|intros i j Hi Hj; unfold TTL; lia].
  - intros messageId timestamp i _ H. rewrite lookup_empty in H. discriminate.
Defined.

End WebhookDispatch.

Section WebhookRouting.
Import JsNumber JsString OcrProcessor PhotoVerification VerificationFlow
  Confirmation Webhook.

Lemma isInVerificationFlow_found (user : string) (now : Z) (w : World)
  (state : VerificationState) :
  states w !! user = Some state ->
  isInVerificationFlow user now w
  = if isExpiredAt now state then (false, snd (deleteState user w)) else (true, w).
Proof.
  intros Hs. unfold isInVerificationFlow, andThen, getState, pure. rewrite Hs.
  destruct (isExpiredAt now state); reflexivity.
Qed.

(** X17. The buttons that the service puts under its confirmation
    messages are buttons that the controller understands: every id passes
    [isVerificationButton], the first button of a confirmation for a start
    (end) reading runs [confirmStartReading] ([confirmEndReading]), and the
    second runs [retakeStartPhoto] ([retakeEndPhoto]). A rejection of
    [confirmEndReading] is caught and answered with the action-failed
    notice. *)
Theorem sent_buttons_are_understood
  (whatsappId : string) (collaborates : bool) (b : Backend) :
  (forall m : Message,
     List.Forall (fun buttonId => isVerificationButton buttonId = true) (buttonsOf m))
  /\ (forall reading confidence,
        buttonsOf (ReadingConfirmation reading start confidence)
        = ["confirm_start_reading"; "retake_start_photo"]%string
        /\ buttonsOf (ReadingConfirmation reading end_ confidence)
           = ["confirm_end_reading"; "retake_end_photo"]%string)
  /\ snd (handleVerificationButtons whatsappId "confirm_start_reading" collaborates b)
     = snd (confirmStartReading whatsappId collaborates b)
  /\ snd (handleVerificationButtons whatsappId "confirm_end_reading" collaborates b)
     = match fst (confirmEndReading whatsappId collaborates b) with
       | Resolved _ => snd (confirmEndReading whatsappId collaborates b)
       | Rejected =>
           snd (notify whatsappId ActionFailed
                  (snd (confirmEndReading whatsappId collaborates b)))
       end
  /\ snd (handleVerificationButtons whatsappId "retake_start_photo" collaborates b)
     = snd (lift (retakeStartPhoto whatsappId) b)
  /\ snd (handleVerificationButtons whatsappId "retake_end_photo" collaborates b)
     = snd (lift (retakeEndPhoto whatsappId) b).
Proof.
  repeat apply conj.
  - intros m. destruct m as [| |? [] ?| | | | | | | |]; repeat constructor.
  - intros reading confidence. split; reflexivity.
  - unfold handleVerificationButtons, next, done.
    change (String.eqb "confirm_start_reading" "confirm_start_reading") with true.
    cbv beta iota. destruct (confirmStartReading whatsappId collaborates b). reflexivity.
  - unfold handleVerificationButtons, next, done.
    change (String.eqb "confirm_end_reading" "confirm_start_reading") with false.
    change (String.eqb "confirm_end_reading" "confirm_end_reading") with true.
    cbv beta iota. destruct (confirmEndReading whatsappId collaborates b) as [[a|] b'];
      reflexivity.
  - unfold handleVerificationButtons.
    change (String.eqb "retake_start_photo" "confirm_start_reading") with false.
    change (String.eqb "retake_start_photo" "confirm_end_reading") with false.
    change (String.eqb "retake_start_photo" "retake_start_photo") with true.
    reflexivity.
  - unfold handleVerificationButtons.
    change (String.eqb "retake_end_photo" "confirm_start_reading") with false.
    change (String.eqb "retake_end_photo" "confirm_end_reading") with false.
    change (String.eqb "retake_end_photo" "retake_start_photo") with false.
    change (String.eqb "retake_end_photo" "retake_end_photo") with true.
    reflexivity.
Qed.

(** X18. Only the buttons look at the age of a verification state. For
    a user whose state has expired, a text is still taken as a manual
    entry and a photo is still run through the photo handler of the state's
    kind, and neither reaches the other controllers; the first button
    pressed, even a verification button, removes the state, confirms
    nothing and goes to the other controllers. With a state that has not
    expired a verification button is handled by the verification. *)
Theorem only_buttons_check_expiry
  (b : Backend) (user messageId : string) (state : VerificationState)
  (collaborates : bool) (now : Z) :
  states (world b) !! user = Some state ->
  (forall body,
     routeMessage {| id := messageId; from := user; content := text body |}
       collaborates now b
     = (Verification,
        snd (lift (handleManualEntry user (trim (orEmpty body)) now) b)))
  /\ (forall imageBuffer,
        routeMessage {| id := messageId; from := user;
                        content := image (Some imageBuffer) |}
          collaborates now b
        = (Verification,
           match type state with
           | start => snd (lift (handleStartPhoto user imageBuffer) b)
           | end_ => snd (lift (handleEndPhoto user imageBuffer now) b)
           end))
  /\ (forall buttonId,
        routeMessage {| id := messageId; from := user;
                        content := button_reply buttonId |}
          collaborates now b
        = if isExpiredAt now state then
            (Forwarded (handleButtonElsewhere buttonId),
             snd (lift (deleteState user) b))
          else if isVerificationButton buttonId then
            (Verification,
             snd (handleVerificationButtons user buttonId collaborates b))
          else (Forwarded (handleButtonElsewhere buttonId), b)).
Proof.
  destruct b as [w ev]. cbn [world]. intros Hs. repeat apply conj.
  - intros body.
    unfold routeMessage, handleManualVerificationEntry.
    unfold next, lift, getVerificationState, getState, done.
    cbn [fst snd world events from content]. rewrite Hs.
    cbn [fst snd world events].
    destruct (handleManualEntry user (trim (orEmpty body)) now w). reflexivity.
  - intros imageBuffer.
    unfold routeMessage, handleVerificationPhoto.
    unfold next, lift, getVerificationState, getState, done.
    cbn [fst snd world events from content]. rewrite Hs.
    cbn [fst snd world events].
    destruct (type state); cbn [fst snd world events].
    + destruct (handleStartPhoto user imageBuffer w). reflexivity.
    + destruct (handleEndPhoto user imageBuffer now w). reflexivity.
  - intros buttonId.
    unfold routeMessage, handleButtonMessage.
    unfold next, lift, getVerificationState, getState, done.
    cbn [fst snd world events from content]. rewrite Hs.
    cbn [world events fst snd]. rewrite (isInVerificationFlow_found _ _ _ _ Hs).
    destruct (isExpiredAt now state); cbn [fst snd andb world events]; [reflexivity|].
    destruct (isVerificationButton buttonId); [|reflexivity].
    destruct (handleVerificationButtons user buttonId collaborates _). reflexivity.
Qed.

Lemma only_buttons_check_expiry_witness :
  states (world {| world := awaitingStartPhoto; events := [] |}) !! "u1"%string
  = Some (newState "u1" "s1" 7 start 1000)
  /\ routeMessage {| id := "m7"; from := "u1";
                     content := button_reply "confirm_start_reading" |}
       true 9000000 {| world := awaitingStartPhoto; events := [] |}
     = (Forwarded (handleButtonElsewhere "confirm_start_reading"),
        snd (lift (deleteState "u1") {| world := awaitingStartPhoto; events := [] |})).
Proof.
  split; [vm_compute; reflexivity|].
  exact (proj2 (proj2 (only_buttons_check_expiry
                         {| world := awaitingStartPhoto; events := [] |}
                         "u1" "m7" (newState "u1" "s1" 7 start 1000) true 9000000
                         ltac:(vm_compute; reflexivity)))
               "confirm_start_reading"%string).
Defined.

(** Outside a verification flow a text goes to the text handler and a
    photo is not supported; inside one, the text [help] is answered as an
    invalid reading. *)
Example routeMessage_samples :
  fst (routeMessage (textFrom "m1" "u2" "help") true 2000
         {| world := awaitingStartPhoto; events := [] |})
  = Forwarded (handleTextMessage "help")
  /\ fst (routeMessage {| id := "m2"; from := "u2"; content := image (Some clearImage) |}
            true 2000 {| world := awaitingStartPhoto; events := [] |})
     = Unsupported
  /\ last (outbox (world (snd (routeMessage (textFrom "m3" "u1" "help") true 2000
                                 {| world := awaitingStartPhoto; events := [] |}))))
     = Some ("u1"%string, InvalidReading (Some "Invalid number format"%string)).
Proof. vm_compute. repeat split; reflexivity. Qed.

End WebhookRouting.

(* ================================================================== *)
(** * What the patterns can match *)
(* ================================================================== *)

Section RegexSoundness.
Import JsString Regex.
Variable ic : bool.
Context {R : Type}.

Lemma repeatMatcher_sound (m : matcher)
  (M : list ascii -> option (list ascii) -> list ascii -> option (list ascii) -> Prop) :
  (forall s cap (k : cont) (res : R),
     m s cap k = Some res -> exists s' cap', M s cap s' cap' /\ k s' cap' = Some res) ->
  forall fuel min max s cap (k : cont) (res : R),
    match max with Some mx => (min <= mx)%nat | None => True end ->
    repeatMatcher m fuel min max s cap k = Some res ->
    exists n s' cap',
      (min <= n)%nat
      /\ match max with Some mx => (n <= mx)%nat | None => True end
      /\ rounds M n s cap s' cap'
      /\ k s' cap' = Some res.
Proof.
  intros Hm. induction fuel as [|fuel IH]; intros min max s cap k res Hwf H.
  - cbn [repeatMatcher] in H.
    destruct (Nat.eqb_spec min 0) as [->|]; [|discriminate].
    exists 0%nat, s, cap. repeat split; try assumption; try lia.
  - cbn [repeatMatcher] in H.
    assert (Stop : (if (min =? 0)%nat then k s cap else None) = Some res ->
                   exists n s' cap',
                     (min <= n)%nat
                     /\ match max with Some mx => (n <= mx)%nat | None => True end
                     /\ rounds M n s cap s' cap' /\ k s' cap' = Some res).
    { intros Hs. destruct (Nat.eqb_spec min 0) as [->|]; [|discriminate].
      exists 0%nat, s, cap. repeat split; try assumption; try lia. }
    assert (Again : forall max',
              match max with
              | Some mx => (1 <= mx)%nat /\ max' = Some (Nat.pred mx)
              | None => max' = None
              end ->
              m s cap (fun s' cap' =>
                 if (min =? 0)%nat && (length s' =? length s)%nat then None
                 else repeatMatcher m fuel (Nat.pred min) max' s' cap' k) = Some res ->
              exists n s' cap',
                (min <= n)%nat
                /\ match max with Some mx => (n <= mx)%nat | None => True end
                /\ rounds M n s cap s' cap' /\ k s' cap' = Some res).
    { intros max' Hmax Ha. apply Hm in Ha as (s1 & cap1 & HM & Hk).
      destruct ((min =? 0)%nat && (length s1 =? length s)%nat); [discriminate|].
      apply IH in Hk as (n & s' & cap' & Hn & Hx & Hr & Hk).
      - exists (S n), s', cap'. repeat split.
        + lia.
        + destruct max as [mx|]; [|exact I].
          destruct Hmax as [H1 ->]. lia.
        + exists s1, cap1. split; assumption.
        + exact Hk.
      - destruct max as [mx|].
        + destruct Hmax as [H1 ->]. lia.
        + subst max'. exact I. }
    destruct max as [[|mx]|].
    + assert (min = 0)%nat by lia. subst min.
      exists 0%nat, s, cap. repeat split; try assumption; lia.
    + cbn [option_map] in H.
      match type of H with
      | match ?again with _ => _ end = _ => destruct again as [r0|] eqn:E
      end.
      * injection H as ->. apply (Again (Some mx)); [split; [lia|reflexivity]|exact E].
      * apply Stop, H.
    + cbn [option_map] in H.
      match type of H with
      | match ?again with _ => _ end = _ => destruct again as [r0|] eqn:E
      end.
      * injection H as ->. apply (Again None); [reflexivity|exact E].
      * apply Stop, H.
Qed.

(** Whenever the matcher of a pattern reaches its continuation with a
    result, it does so at a position that the pattern matches. *)
Lemma matcher_sound (r : regex) :
  wellFormed r = true ->
  forall s cap (k : cont) (res : R),
    run ic r s cap k = Some res ->
    exists s' cap', matches ic r s cap s' cap' /\ k s' cap' = Some res.
Proof.
  induction r as [|c|p|r1 IH1 r2 IH2|r1 IH1 r2 IH2|min max r' IH|r' IH];
    intros Hwf s cap k res H; cbn [run] in H; cbn [wellFormed] in Hwf.
  - exists s, cap. split; [split; reflexivity|exact H].
  - destruct s as [|x s']; [discriminate|].
    destruct (sameChar ic c x) eqn:E; [|discriminate].
    exists s', cap. split; [exists x; auto|exact H].
  - destruct s as [|x s']; [discriminate|].
    destruct (p x) eqn:E; [|discriminate].
    exists s', cap. split; [exists x; auto|exact H].
  - apply andb_true_iff in Hwf as [W1 W2].
    apply (IH1 W1) in H as (s1 & cap1 & M1 & H).
    apply (IH2 W2) in H as (s' & cap' & M2 & H).
    exists s', cap'. split; [exists s1, cap1; auto|exact H].
  - apply andb_true_iff in Hwf as [W1 W2].
    destruct (run ic r1 s cap k) as [x|] eqn:E.
    + injection H as ->. apply (IH1 W1) in E as (s' & cap' & M1 & E).
      exists s', cap'. split; [left; exact M1|exact E].
    + apply (IH2 W2) in H as (s' & cap' & M2 & H).
      exists s', cap'. split; [right; exact M2|exact H].
  - apply andb_true_iff in Hwf as [Wb W].
    apply (repeatMatcher_sound (run ic r') (matches ic r') (IH W)) in H
      as (n & s' & cap' & Hn & Hx & Hr & Hk).
    + exists s', cap'. split; [exists n; auto|exact Hk].
    + destruct max; [apply Nat.leb_le, Wb|exact I].
  - apply (IH Hwf) in H as (s' & cap0 & M & H).
    exists s', (Some (firstn (length s - length s') s)).
    split; [exists cap0; auto|exact H].
Qed.

End RegexSoundness.

Section NumeralsInText.
Import JsNumber JsString Regex OcrProcessor.

Lemma rounds_suffix (ic : bool) (r : regex) :
  (forall s cap s' cap', matches ic r s cap s' cap' -> exists pre, s = (pre ++ s')%list) ->
  forall n s cap s' cap',
    rounds (matches ic r) n s cap s' cap' -> exists pre, s = (pre ++ s')%list.
Proof.
  intros Hr. induction n as [|n IH]; intros s cap s' cap' H; cbn [rounds] in H.
  - destruct H as [-> _]. exists []. reflexivity.
  - destruct H as (s1 & cap1 & H1 & H2).
    apply Hr in H1 as [p1 ->]. apply IH in H2 as [p2 ->].
    exists (p1 ++ p2)%list. rewrite <- app_assoc. reflexivity.
Qed.

(** A match consumes a prefix of the input. *)
Lemma matches_suffix (ic : bool) (r : regex) :
  forall s cap s' cap', matches ic r s cap s' cap' -> exists pre, s = (pre ++ s')%list.
Proof.
  induction r as [|c|p|r1 IH1 r2 IH2|r1 IH1 r2 IH2|min max r' IH|r' IH];
    intros s cap s' cap' H; cbn [matches] in H.
  - destruct H as [-> _]. exists []. reflexivity.
  - destruct H as (x & -> & _). exists [x]. reflexivity.
  - destruct H as (x & -> & _). exists [x]. reflexivity.
  - destruct H as (s1 & cap1 & H1 & H2).
    apply IH1 in H1 as [p1 ->]. apply IH2 in H2 as [p2 ->].
    exists (p1 ++ p2)%list. rewrite <- app_assoc. reflexivity.
  - destruct H as [H|H]; [apply IH1 in H|apply IH2 in H]; exact H.
  - destruct H as (n & _ & _ & H). eapply rounds_suffix; eassumption.
  - destruct H as (cap0 & H & _). eapply IH; eassumption.
Qed.

Lemma rounds_cap (ic : bool) (r : regex) :
  (forall s cap s' cap', matches ic r s cap s' cap' -> cap' = cap) ->
  forall n s cap s' cap', rounds (matches ic r) n s cap s' cap' -> cap' = cap.
Proof.
  intros Hr. induction n as [|n IH]; intros s cap s' cap' H; cbn [rounds] in H.
  - apply H.
  - destruct H as (s1 & cap1 & H1 & H2).
    apply Hr in H1. apply IH in H2. congruence.
Qed.

(** A pattern without a group leaves the group as it was. *)
Lemma captureFree_cap (ic : bool) (r : regex) :
  captureFree r = true ->
  forall s cap s' cap', matches ic r s cap s' cap' -> cap' = cap.
Proof.
  induction r as [|c|p|r1 IH1 r2 IH2|r1 IH1 r2 IH2|min max r' IH|r' IH];
    intros F s cap s' cap' H; cbn [matches] in H; cbn [captureFree] in F.
  - apply H.
  - destruct H as (x & _ & _ & H). exact H.
  - destruct H as (x & _ & _ & H). exact H.
  - apply andb_true_iff in F as [F1 F2]. destruct H as (s1 & cap1 & H1 & H2).
    apply (IH1 F1) in H1. apply (IH2 F2) in H2. congruence.
  - apply andb_true_iff in F as [F1 F2].
    destruct H as [H|H]; [apply (IH1 F1) in H|apply (IH2 F2) in H]; exact H.
  - destruct H as (n & _ & _ & H). eapply rounds_cap; [apply IH, F|exact H].
  - discriminate.
Qed.

(** [n] rounds of a digit are [n] digits. *)
Lemma digit_rounds (ic : bool) (n : nat) :
  forall s cap s' cap',
    rounds (matches ic digit) n s cap s' cap' ->
    exists ds, s = (ds ++ s')%list /\ length ds = n
               /\ forallb isDigit ds = true /\ cap' = cap.
Proof.
  induction n as [|n IH]; intros s cap s' cap' H; cbn [rounds] in H.
  - destruct H as [-> ->]. exists []. repeat split.
  - destruct H as (s1 & cap1 & H1 & H2). cbn [matches digit] in H1.
    destruct H1 as (x & -> & Hx & ->).
    apply IH in H2 as (ds & -> & Hl & Hd & ->).
    exists (x :: ds). cbn [length forallb app]. rewrite Hx, Hd, Hl. repeat split.
Qed.

Lemma sameChar_point (ic : bool) (x : ascii) :
  sameChar ic "." x = true -> x = "."%char.
Proof.
  destruct ic; destruct x as [[] [] [] [] [] [] [] []]; vm_compute;
    intros H; try discriminate H; reflexivity.
Qed.

Lemma spanDigits_app (ds rest : list ascii) :
  forallb isDigit ds = true ->
  match rest with [] => True | c :: _ => isDigit c = false end ->
  spanDigits (ds ++ rest) = (ds, rest).
Proof.
  intros Hd Hr. induction ds as [|d ds IH]; cbn [app].
  - destruct rest as [|c rest]; [reflexivity|]. cbn [spanDigits]. rewrite Hr. reflexivity.
  - cbn [forallb] in Hd. apply andb_true_iff in Hd as [H1 H2].
    cbn [spanDigits]. rewrite H1, (IH H2). reflexivity.
Qed.

(** What the number group "(\d{2,6}(?:\.\d{1,3})?)" matches. *)
Lemma numberGroup_matches (ic : bool) (s : list ascii) (cap : option (list ascii))
  (s' : list ascii) (cap' : option (list ascii)) :
  matches ic numberGroup s cap s' cap' ->
  exists g, s = (g ++ s')%list /\ cap' = Some g /\ isNumeral g = true.
Proof.
  unfold numberGroup, Opt. cbn [matches].
  intros (cap0 & (s1 & cap1 & (n & Hn2 & Hn6 & Hint) & (k & _ & Hk & Hfrac)) & ->).
  apply digit_rounds in Hint as (ip & -> & Hlen & Hip & ->).
  assert (G : forall g, (ip ++ s1)%list = (g ++ s')%list ->
              firstn (length (ip ++ s1) - length s') (ip ++ s1) = g).
  { intros g E. rewrite E, length_app, Nat.add_sub. apply take_app_length. }
  destruct k as [|[|k]]; [| |lia].
  - cbn [rounds] in Hfrac. destruct Hfrac as [-> _].
    exists ip. split; [reflexivity|]. split; [f_equal; apply G; reflexivity|].
    unfold isNumeral. rewrite <- (app_nil_r ip), spanDigits_app by (assumption || exact I).
    rewrite Hlen.
    apply Nat.leb_le in Hn2, Hn6. rewrite Hn2, Hn6. reflexivity.
  - cbn [rounds matches] in Hfrac.
    destruct Hfrac as (s2 & cap2 & (s3 & cap3 & (x & -> & Hx & ->)
                                     & (j & Hj1 & Hj3 & Hfp)) & -> & ->).
    apply sameChar_point in Hx. subst x.
    apply digit_rounds in Hfp as (fp & -> & Hlf & Hfp & ->).
    exists (ip ++ "."%char :: fp)%list.
    split; [rewrite <- app_assoc; reflexivity|].
    split; [f_equal; apply G; rewrite <- app_assoc; reflexivity|].
    unfold isNumeral. rewrite spanDigits_app by (assumption || reflexivity).
    rewrite Hlen, Hlf.
    apply Nat.leb_le in Hn2, Hn6, Hj1, Hj3. rewrite Hn2, Hn6, Hj1, Hj3, Hfp. reflexivity.
Qed.

Lemma occursIn_suffix (g pre s : list ascii) :
  occursIn g s -> occursIn g (pre ++ s).
Proof.
  intros (before & after & ->). exists (pre ++ before)%list, after.
  rewrite <- app_assoc. reflexivity.
Qed.

Lemma capturesNumeral_numberGroup : capturesNumeral numberGroup.
Proof.
  intros ic s cap s' cap' H. apply numberGroup_matches in H as (g & -> & -> & Hg).
  exists g. split; [reflexivity|]. split; [exact Hg|]. exists [], s'. reflexivity.
Qed.

Lemma capturesNumeral_after (pre r : regex) :
  capturesNumeral r -> capturesNumeral (Cat pre r).
Proof.
  intros Hr ic s cap s' cap' H. cbn [matches] in H.
  destruct H as (s1 & cap1 & H1 & H2).
  apply matches_suffix in H1 as [p ->].
  apply Hr in H2 as (g & -> & Hg & Ho).
  exists g. split; [reflexivity|]. split; [exact Hg|]. apply occursIn_suffix, Ho.
Qed.

Lemma capturesNumeral_before (r post : regex) :
  capturesNumeral r -> captureFree post = true -> capturesNumeral (Cat r post).
Proof.
  intros Hr Hp ic s cap s' cap' H. cbn [matches] in H.
  destruct H as (s1 & cap1 & H1 & H2).
  apply (captureFree_cap ic post Hp) in H2. subst cap'.
  apply Hr in H1. exact H1.
Qed.

Lemma kwhPatterns_capture (pattern : regex) :
  In pattern (numberPattern :: kwhPatterns) ->
  wellFormed pattern = true /\ capturesNumeral pattern.
Proof.
  intros [<-|[<-|[<-|[<-|[<-|[<-|[]]]]]]]; (split; [reflexivity|]).
  - apply capturesNumeral_numberGroup.
  - apply capturesNumeral_after, capturesNumeral_numberGroup.
  - apply capturesNumeral_before; [apply capturesNumeral_numberGroup|reflexivity].
  - cbn [Seq]. do 2 apply capturesNumeral_after. apply capturesNumeral_numberGroup.
  - cbn [Seq]. do 2 apply capturesNumeral_after. apply capturesNumeral_numberGroup.
  - cbn [Seq]. do 2 apply capturesNumeral_after. apply capturesNumeral_numberGroup.
Qed.

(** ** From the engine to the text *)

Lemma search_sound (ic : bool) (r : regex) (s : list ascii) :
  forall i m, search ic r i s = Some m ->
  exists skipped s0 j, s = (skipped ++ s0)%list /\ matchAt ic r j s0 = Some m.
Proof.
  induction s as [|c s IH]; intros i m H; cbn [search] in H.
  - destruct (matchAt ic r i []) as [m0|] eqn:E; [|discriminate].
    injection H as ->. exists [], [], i. split; [reflexivity|exact E].
  - destruct (matchAt ic r i (c :: s)) as [m0|] eqn:E.
    + injection H as ->. exists [], (c :: s), i. split; [reflexivity|exact E].
    + apply IH in H as (skipped & s0 & j & -> & H).
      exists (c :: skipped), s0, j. split; [reflexivity|exact H].
Qed.

(** The group of a match of one of the patterns is a numeral of the
    input. *)
Lemma matchAt_group (ic : bool) (pattern : regex) (i : nat) (s : list ascii)
  (m : MatchResult) :
  In pattern (numberPattern :: kwhPatterns) ->
  matchAt ic pattern i s = Some m ->
  exists g, group1 m = Some (str g) /\ isNumeral g = true /\ occursIn g s.
Proof.
  intros Hin H. destruct (kwhPatterns_capture pattern Hin) as [W C].
  unfold matchAt in H.
  apply (matcher_sound ic pattern W) in H as (s' & cap' & M & H).
  apply C in M as (g & -> & Hg & Ho). injection H as <-.
  exists g. repeat split; assumption.
Qed.

Lemma search_group (ic : bool) (pattern : regex) (i : nat) (s : list ascii)
  (m : MatchResult) :
  In pattern (numberPattern :: kwhPatterns) ->
  search ic pattern i s = Some m ->
  exists g, group1 m = Some (str g) /\ isNumeral g = true /\ occursIn g s.
Proof.
  intros Hin H. apply search_sound in H as (skipped & s0 & j & -> & H).
  apply (matchAt_group ic pattern j s0 m Hin) in H as (g & H1 & H2 & H3).
  exists g. repeat split; try assumption. apply occursIn_suffix, H3.
Qed.

Lemma execAllFrom_group (ic : bool) (pattern : regex) (fuel : nat) :
  In pattern (numberPattern :: kwhPatterns) ->
  forall i s m, In m (execAllFrom fuel ic pattern i s) ->
  exists g, group1 m = Some (str g) /\ isNumeral g = true /\ occursIn g s.
Proof.
  intros Hin. induction fuel as [|fuel IH]; intros i s m H; cbn [execAllFrom] in H;
    [contradiction|].
  destruct (search ic pattern i s) as [m0|] eqn:E; [|contradiction].
  destruct H as [<-|H].
  - eapply search_group; eassumption.
  - apply IH in H as (g & H1 & H2 & H3).
    exists g. repeat split; try assumption.
    match type of H3 with occursIn _ (skipn ?k s) =>
      rewrite <- (firstn_skipn k s) end.
    apply occursIn_suffix, H3.
Qed.

Lemma chars_str (l : list ascii) : chars (str l) = l.
Proof. apply list_ascii_of_string_of_list_ascii. Qed.

(** A reading of the pattern stage is the value of a numeral of the
    text. *)
Lemma matchKwhPatterns_numeral (patterns : list regex) (clean : string) (num : float) :
  (forall p, In p patterns -> In p (numberPattern :: kwhPatterns)) ->
  matchKwhPatterns patterns clean = Some num ->
  exists g, num = parseFloat (str g) /\ isNumeral g = true
            /\ occursIn g (chars clean) /\ isValidReading num = true.
Proof.
  induction patterns as [|pattern rest IH]; intros Hin H; cbn [matchKwhPatterns] in H;
    [discriminate|].
  assert (Hrest : forall p, In p rest -> In p (numberPattern :: kwhPatterns))
    by (intros p Hp; apply Hin; right; exact Hp).
  destruct (exec true pattern clean) as [m|] eqn:E; [|apply IH; assumption].
  destruct (group1 m) as [g0|] eqn:G; [|apply IH; assumption].
  destruct (negb (String.eqb g0 "") && isValidReading (parseFloat g0)) eqn:V;
    [|apply IH; assumption].
  injection H as <-. apply andb_true_iff in V as [_ V].
  unfold exec in E.
  apply (search_group true pattern 0 (chars clean) m (Hin _ (or_introl eq_refl))) in E
    as (g & G' & Hg & Ho).
  rewrite G in G'. injection G' as ->.
  exists g. repeat split; assumption.
Qed.

(** ... and so is every candidate of the scanner. *)
Lemma candidate_numeral (text : string) (c : Candidate.t) :
  In c (extractNumberCandidates text) ->
  exists g, Candidate.value c = parseFloat (str g) /\ isNumeral g = true
            /\ occursIn g (chars text) /\ isValidReading (Candidate.value c) = true.
Proof.
  unfold extractNumberCandidates. rewrite <- list_elem_of_In, list_elem_of_omap.
  intros (m & Hm & Hc). rewrite list_elem_of_In in Hm. unfold execAll in Hm.
  apply (execAllFrom_group false numberPattern _ (or_introl eq_refl)) in Hm
    as (g & G & Hg & Ho).
  unfold candidateOf in Hc. rewrite G in Hc.
  destruct (isValidReading (parseFloat (str g))) eqn:V; [|discriminate].
  injection Hc as <-. cbn [Candidate.value].
  exists g. repeat split; assumption.
Qed.

Lemma extractReadingFromText_numeral (text : string) (reading : float) :
  extractReadingFromText text = Some reading ->
  exists g, reading = parseFloat (str g) /\ isNumeral g = true
            /\ occursIn g (chars (cleanText text)) /\ isValidReading reading = true.
Proof.
  unfold extractReadingFromText. cbv zeta.
  destruct (matchKwhPatterns kwhPatterns (cleanText text)) as [num|] eqn:P.
  - intros [= <-]. apply (matchKwhPatterns_numeral kwhPatterns); [|exact P].
    intros p Hp. right. exact Hp.
  - set (candidates := extractNumberCandidates (cleanText text)).
    assert (Hc : forall c, In c candidates ->
              exists g, Candidate.value c = parseFloat (str g) /\ isNumeral g = true
                        /\ occursIn g (chars (cleanText text))
                        /\ isValidReading (Candidate.value c) = true)
      by (intros c; apply candidate_numeral).
    destruct candidates as [|c1 [|c2 more]] eqn:E; [discriminate| |].
    + intros [= <-]. apply Hc. left. reflexivity.
    + destruct (rankCandidates (c1 :: c2 :: more)) as [|top ranked] eqn:Rk; [discriminate|].
      intros [= <-]. apply Hc.
      apply (Permutation_in top (Permutation_sym (Array_sort_perm compareCandidates _))).
      unfold rankCandidates in Rk. rewrite Rk. left. reflexivity.
Qed.

(** X19. The pipeline does not invent numbers. A reading that
    [extractReadingFromText] returns is the [parseFloat] of a numeral (2 to
    6 digits, possibly followed by a point and 1 to 3 digits) that stands in
    the normalised text, and it lies between 10 and 999999. *)
Theorem reading_is_a_numeral_of_the_text (text : string) (reading : float) :
  extractReadingFromText text = Some reading ->
  exists numeral : string,
    reading = parseFloat numeral
    /\ isNumeral (chars numeral) = true
    /\ occursIn (chars numeral) (chars (cleanText text))
    /\ isValidReading reading = true.
Proof.
  intros H. apply extractReadingFromText_numeral in H as (g & -> & Hg & Ho & V).
  exists (str g). rewrite chars_str. repeat split; assumption.
Qed.

Lemma reading_is_a_numeral_of_the_text_witness :
  exists numeral : string,
    1245.8%float = parseFloat numeral
    /\ isNumeral (chars numeral) = true
    /\ occursIn (chars numeral) (chars (cleanText "Meter: 1245.8 kWh")).
Proof.
  destruct (reading_is_a_numeral_of_the_text "Meter: 1245.8 kWh" 1245.8%float
              ltac:(vm_compute; reflexivity)) as (numeral & H1 & H2 & H3 & _).
  exists numeral. repeat split; assumption.
Defined.

Lemma isNumeral_has_digit (g : list ascii) :
  isNumeral g = true -> exists c, In c g /\ isDigit c = true.
Proof.
  unfold isNumeral. destruct g as [|c g]; [cbn; discriminate|].
  cbn [spanDigits]. destruct (isDigit c) eqn:D.
  - intros _. exists c. split; [left; reflexivity|exact D].
  - cbn. discriminate.
Qed.

(** X20. A text whose normalised form holds no digit yields no reading.
    The normalisation turns the letters O, I, L, S, Z and B into digits,
    so the condition bears on the normalised text: [Hello] is read as
    110. *)
Theorem no_digit_no_reading (text : string) :
  forallb (fun c => negb (isDigit c)) (chars (cleanText text)) = true ->
  extractReadingFromText text = None.
Proof.
  intros H. destruct (extractReadingFromText text) as [reading|] eqn:E; [|reflexivity].
  apply extractReadingFromText_numeral in E as (g & _ & Hg & (before & after & Ho) & _).
  apply isNumeral_has_digit in Hg as (c & Hc & Hd).
  rewrite forallb_forall in H. specialize (H c). rewrite Hd in H.
  assert (In c (chars (cleanText text))).
  { rewrite Ho. apply in_or_app. right. apply in_or_app. left. exact Hc. }
  specialize (H H0). cbn [negb] in H. discriminate H.
Qed.

Lemma no_digit_no_reading_witness :
  extractReadingFromText "kWh: --.- (tap)" = None
  /\ extractReadingFromText "Hello" = Some 110%float.
Proof.
  split; [|vm_compute; reflexivity].
  apply (no_digit_no_reading "kWh: --.- (tap)"). vm_compute. reflexivity.
Defined.

End NumeralsInText.

(* ================================================================== *)
(** * Confidence levels and error messages *)
(* ================================================================== *)

Section LevelsOfNumbers.
Import JsNumber ConfidenceLevels.
Local Open Scope float_scope.

Lemma is_nan_true (x : float) :
  PrimFloat.is_nan x = true -> Prim2SF x = S754_nan.
Proof.
  unfold PrimFloat.is_nan. rewrite FloatAxioms.eqb_spec. unfold SFeqb.
  destruct (Prim2SF x) as [s|s| |s m e]; cbn [SFcompare negb];
    try (destruct s; discriminate); [reflexivity|].
  rewrite Z.compare_refl.
  change (Pos.compare_cont Eq m m) with (Pos.compare m m).
  rewrite Pos.compare_refl. destruct s; discriminate.
Qed.

(** A comparison that holds has no NaN on either side. *)
Lemma leb_not_nan (x y : float) :
  (x <=? y) = true -> PrimFloat.is_nan x = false /\ PrimFloat.is_nan y = false.
Proof.
  rewrite leb_spec. unfold SFleb. intros H.
  split.
  - destruct (PrimFloat.is_nan x) eqn:N; [|reflexivity].
    apply is_nan_true in N. rewrite N in H. discriminate H.
  - destruct (PrimFloat.is_nan y) eqn:N; [|reflexivity].
    apply is_nan_true in N. rewrite N in H.
    destruct (Prim2SF x); discriminate H.
Qed.

Lemma ltb_not_nan (x y : float) :
  (x <? y) = true -> PrimFloat.is_nan x = false /\ PrimFloat.is_nan y = false.
Proof.
  rewrite ltb_spec. unfold SFltb. intros H.
  split.
  - destruct (PrimFloat.is_nan x) eqn:N; [|reflexivity].
    apply is_nan_true in N. rewrite N in H. discriminate H.
  - destruct (PrimFloat.is_nan y) eqn:N; [|reflexivity].
    apply is_nan_true in N. rewrite N in H.
    destruct (Prim2SF x); discriminate H.
Qed.

(** 70 and 85 have the same exponent, so what is at least 85 is at least
    70. *)
Lemma leb_85_70 (c : float) : (85 <=? c) = true -> (70 <=? c) = true.
Proof.
  rewrite !leb_spec. unfold SFleb.
  change (Prim2SF 85) with (S754_finite false 5981343255101440 (-46)).
  change (Prim2SF 70) with (S754_finite false 4925812092436480 (-46)).
  destruct (Prim2SF c) as [s|s| |s m e]; cbn [SFcompare];
    try (intros H; exact H).
  destruct s; [intros H; exact H|].
  destruct (-46 ?= e)%Z; try (intros H; exact H).
  change (Pos.compare_cont Eq ?a ?b) with (Pos.compare a b).
  destruct (Pos.compare_spec 5981343255101440 m) as [E|L|G]; try discriminate;
    intros _.
  - subst m. reflexivity.
  - assert (Hlt : (4925812092436480 < m)%positive) by lia.
    apply Pos.compare_lt_iff in Hlt. rewrite Hlt. reflexivity.
Qed.

Lemma leb_70_not_ltb (c : float) : (70 <=? c) = true -> (c <? 70) = false.
Proof.
  intros H. destruct (leb_not_nan _ _ H) as [_ N].
  rewrite (ltb_negb_leb c 70 N eq_refl), H. reflexivity.
Qed.

Lemma not_leb_70_ltb (c : float) :
  PrimFloat.is_nan c = false -> (70 <=? c) = false -> (c <? 70) = true.
Proof.
  intros N H. rewrite (ltb_negb_leb c 70 N eq_refl), H. reflexivity.
Qed.

Lemma nan_compares_false (c x : float) :
  PrimFloat.is_nan c = true ->
  (x <=? c) = false /\ (c <? x) = false /\ (x <? c) = false.
Proof.
  intros N. apply is_nan_true in N.
  rewrite !leb_spec, !ltb_spec. unfold SFleb, SFltb. rewrite N.
  repeat split; destruct (Prim2SF x); reflexivity.
Qed.

(** X21. The configuration and the processor split the confidences alike,
    except at NaN. For every number, [getConfidenceLevel] is [high] exactly
    when [isGoodConfidence] holds, and the two tests of the processor
    exclude each other; it is [low] exactly when
    [shouldWarnLowConfidence] holds or the number is NaN. At NaN the two
    sides part: the level is [low] while [shouldWarnLowConfidence] is
    false, so the end confirmation shows the plain line and the start
    confirmation the manual-entry note. For a confidence above 0 the two
    confirmation messages show the same line, the one of the level; from 70
    on nothing is shown or classified as low. *)
Theorem confidence_levels_agree_except_at_nan (confidence : float) :
  (getConfidenceLevel confidence = high <-> isGoodConfidence confidence = true)
  /\ (getConfidenceLevel confidence = low
      <-> shouldWarnLowConfidence confidence = true \/ isNaN confidence = true)
  /\ isGoodConfidence confidence && shouldWarnLowConfidence confidence = false
  /\ (isNaN confidence = true ->
      getConfidenceLevel confidence = low
      /\ shouldWarnLowConfidence confidence = false
      /\ isGoodConfidence confidence = false
      /\ readingIndicator confidence = ManualEntryNote
      /\ endReadingIndicator confidence = PlainConfidence)
  /\ ((0 <? confidence) = true ->
      readingIndicator confidence = endReadingIndicator confidence
      /\ readingIndicator confidence
         = match getConfidenceLevel confidence with
           | high => HighConfidence
           | medium => PlainConfidence
           | low => LowConfidence
           end)
  /\ ((70 <=? confidence) = true ->
      readingIndicator confidence <> LowConfidence
      /\ endReadingIndicator confidence <> LowConfidence
      /\ getConfidenceLevel confidence <> low).
Proof.
  unfold getConfidenceLevel, readingIndicator, endReadingIndicator, isGoodConfidence,
    shouldWarnLowConfidence, GOOD_CONFIDENCE, MIN_DISPLAY_CONFIDENCE, isNaN.
  destruct (PrimFloat.is_nan confidence) eqn:N.
  - destruct (nan_compares_false confidence 85 N) as (G & _ & _).
    destruct (nan_compares_false confidence 70 N) as (D & W & _).
    destruct (nan_compares_false confidence 0 N) as (_ & _ & Z).
    rewrite G, D, W, Z. cbn [andb].
    repeat apply conj; intros;
      first [ discriminate | reflexivity | (right; reflexivity)
            | (repeat split; first [discriminate | reflexivity]) ].
  - destruct (85 <=? confidence) eqn:G.
    + pose proof (leb_85_70 _ G) as D. pose proof (leb_70_not_ltb _ D) as W.
      rewrite D, W. cbn [andb].
      repeat apply conj; intros;
        first [ discriminate | reflexivity
              | (destruct (0 <? confidence); repeat split; first [discriminate | reflexivity])
              | (repeat split; first [discriminate | reflexivity])
              | (destruct H; discriminate) ].
    + destruct (70 <=? confidence) eqn:D.
      * pose proof (leb_70_not_ltb _ D) as W. rewrite W. cbn [andb].
        repeat apply conj; intros;
          first [ discriminate | reflexivity
                | (destruct (0 <? confidence); repeat split; first [discriminate | reflexivity])
                | (repeat split; first [discriminate | reflexivity])
                | (destruct H; discriminate) ].
      * pose proof (not_leb_70_ltb _ N D) as W. rewrite W. cbn [andb].
        repeat apply conj; intros;
          first [ discriminate | reflexivity | (left; reflexivity)
                | (destruct (0 <? confidence); repeat split; first [discriminate | reflexivity])
                | (repeat split; first [discriminate | reflexivity]) ].
Qed.

(** At NaN, and either side of the two thresholds. *)
Example confidence_levels_samples :
  getConfidenceLevel PrimFloat.nan = low
  /\ shouldWarnLowConfidence PrimFloat.nan = false
  /\ getConfidenceLevel 69.99 = low /\ shouldWarnLowConfidence 69.99 = true
  /\ getConfidenceLevel 70 = medium /\ getConfidenceLevel 84.99 = medium
  /\ getConfidenceLevel 85 = high /\ getConfidenceLevel PrimFloat.infinity = high
  /\ readingIndicator 0 = ManualEntryNote /\ endReadingIndicator 0 = LowConfidence.
Proof. vm_compute. repeat split; reflexivity. Qed.

End LevelsOfNumbers.

Section ErrorMessages.
Import JsNumber JsString OcrProcessor PhotoVerification.

Lemma chars_append (a b : string) : chars (a +:+ b) = (chars a ++ chars b)%list.
Proof.
  unfold chars. induction a as [|c a IH]; [reflexivity|].
  simpl. f_equal. exact IH.
Qed.

(** The text [performOCR] puts before the message of a rejection hides
    no keyword. *)
Lemma includes_vision_error (m keyword : string) :
  keyword = "PERMISSION_DENIED"%string \/ keyword = "QUOTA_EXCEEDED"%string ->
  includes ("Vision API error: " +:+ m) keyword = includes m keyword.
Proof.
  unfold includes. rewrite chars_append. intros [->| ->]; reflexivity.
Qed.

(** The error of a failed [performOCR] names neither keyword. *)
Lemma performOCR_error (response : VisionResponse) :
  OcrAttempt.success (performOCR response) = false ->
  exists e, OcrAttempt.error (performOCR response) = Some e
    /\ String.eqb e "" = false
    /\ includes e "PERMISSION_DENIED" = false
    /\ includes e "QUOTA_EXCEEDED" = false.
Proof.
  destruct response as [[m|]|[[|full words]|]]; cbn [performOCR].
  - destruct (includes m "PERMISSION_DENIED") eqn:P;
      [intros _; eexists; split; [reflexivity|]; repeat split; reflexivity|].
    destruct (includes m "QUOTA_EXCEEDED") eqn:Q;
      [intros _; eexists; split; [reflexivity|]; repeat split; reflexivity|].
    intros _. eexists. split; [reflexivity|].
    rewrite !includes_vision_error by auto. rewrite P, Q.
    repeat split; reflexivity.
  - intros _. eexists. split; [reflexivity|]. repeat split; reflexivity.
  - intros _. eexists. split; [reflexivity|]. repeat split; reflexivity.
  - cbv zeta. destruct (Qltb _ _); cbn [OcrAttempt.success OcrAttempt.error];
      [|discriminate].
    intros _. eexists. split; [reflexivity|]. repeat split; reflexivity.
  - intros _. eexists. split; [reflexivity|]. repeat split; reflexivity.
Qed.

(** ... and neither does the error of [validateReading]. *)
Lemma validateReading_error (r : float) :
  Outcome.valid (validateReading r) = false ->
  exists e, Outcome.error (validateReading r) = Some e
    /\ String.eqb e "" = false
    /\ includes e "PERMISSION_DENIED" = false
    /\ includes e "QUOTA_EXCEEDED" = false.
Proof.
  unfold validateReading.
  repeat match goal with
         | |- context [if ?c then _ else _] => destruct c
         end; cbn [Outcome.valid Outcome.error Outcome.fail Outcome.pass];
    intros H; try discriminate H;
    eexists; (split; [reflexivity|]); repeat split; vm_compute; reflexivity.
Qed.

Lemma evaluate_error (attempt : OcrAttempt.t) :
  (OcrAttempt.success attempt = false ->
   exists e, OcrAttempt.error attempt = Some e
     /\ String.eqb e "" = false
     /\ includes e "PERMISSION_DENIED" = false
     /\ includes e "QUOTA_EXCEEDED" = false) ->
  OCRResult.success (evaluate attempt) = false ->
  exists e, OCRResult.error (evaluate attempt) = Some e
    /\ String.eqb e "" = false
    /\ includes e "PERMISSION_DENIED" = false
    /\ includes e "QUOTA_EXCEEDED" = false.
Proof.
  intros A. unfold evaluate.
  destruct (OcrAttempt.success attempt);
    cbn [negb OCRResult.success OCRResult.error].
  - destruct (extractReadingFromText _) as [reading|];
      cbn [negb OCRResult.success OCRResult.error].
    + destruct (Outcome.valid (validateReading reading)) eqn:V;
        cbn [negb OCRResult.success OCRResult.error]; [discriminate|].
      intros _. apply validateReading_error. exact V.
    + intros _. eexists. split; [reflexivity|]. repeat split; reflexivity.
  - intros _. destruct (A eq_refl) as (e & -> & E & P & Q).
    rewrite E. exists e. auto.
Qed.

(** X22. When the preprocessing of a photo goes through and the pipeline
    fails on it, below the cap of attempts, the user is answered with the
    very error of the pipeline, which names neither [PERMISSION_DENIED] nor
    [QUOTA_EXCEEDED]: [performOCR] has already replaced a rejection of the
    text-detection service that names one of them by a text of its own. So
    the two replacements of [handleOCRFailure] (authentication error,
    service temporarily unavailable) are never used for what the
    text-detection service reports. *)
Theorem failed_photo_is_answered_with_the_pipeline_error
  (w : World) (user : string) (imageBuffer : Image) (now : Z)
  (state : VerificationState) (response : VisionResponse) :
  states w !! user = Some state ->
  imageBuffer Standard = inr response ->
  OCRResult.success (extracted imageBuffer) = false ->
  attemptCount state + 1 < OCR_CONFIG.maxAttempts ->
  exists e,
    OCRResult.error (extracted imageBuffer) = Some e
    /\ e <> ""%string
    /\ includes e "PERMISSION_DENIED" = false
    /\ includes e "QUOTA_EXCEEDED" = false
    /\ (let result := match type state with
                      | start => handleStartPhoto user imageBuffer w
                      | end_ => handleEndPhoto user imageBuffer now w
                      end in
        fst result = PhotoResult.failure e (Some true)
        /\ outbox (snd result)
           = (outbox w ++ [(user, CouldNotReadDisplay e (attemptCount state + 1))])%list).
Proof.
  intros Hs Hi S Hcap.
  assert (E : exists e, OCRResult.error (extracted imageBuffer) = Some e
                /\ String.eqb e "" = false
                /\ includes e "PERMISSION_DENIED" = false
                /\ includes e "QUOTA_EXCEEDED" = false).
  { revert S. unfold extracted. rewrite extractKwhReading_image, Hi. cbn [snd].
    apply evaluate_error. apply performOCR_error. }
  destruct E as (e & He & Hne & P & Q). exists e.
  split; [exact He|]. split; [intros ->; discriminate Hne|].
  split; [exact P|]. split; [exact Q|].
  assert (F : forall w1, outbox w1 = outbox w ->
            let result := handleOCRFailure user (bumpAttempt state)
                            (OCRResult.error (extracted imageBuffer)) w1 in
            fst result = PhotoResult.failure e (Some true)
            /\ outbox (snd result)
               = (outbox w ++ [(user, CouldNotReadDisplay e (attemptCount state + 1))])%list).
  { intros w1 Hw1. cbv zeta. unfold handleOCRFailure. cbn [attemptCount bumpAttempt].
    apply Z.leb_gt in Hcap. rewrite Hcap, He, Hne, P, Q.
    cbn. rewrite Hw1. split; reflexivity. }
  cbv zeta. destruct (type state) eqn:Ht.
  - rewrite (handleStartPhoto_expected _ _ _ _ Hs Ht). cbv zeta.
    fold (extracted imageBuffer). rewrite (extracted_failure _ S).
    apply F. reflexivity.
  - rewrite (handleEndPhoto_unfold _ _ _ _ _ Hs Ht). cbv zeta.
    rewrite (extracted_failure _ S). apply F. reflexivity.
Qed.

(** A photo on which the text-detection service answers
    [PERMISSION_DENIED]. *)
Lemma failed_photo_is_answered_with_the_pipeline_error_witness :
  exists e,
    OCRResult.error
      (extracted (fun _ => inr (VisionRejects (Some "7 PERMISSION_DENIED: no access"%string))))
    = Some e
    /\ e <> ""%string
    /\ includes e "PERMISSION_DENIED" = false
    /\ includes e "QUOTA_EXCEEDED" = false
    /\ fst (handleStartPhoto "u1"
              (fun _ => inr (VisionRejects (Some "7 PERMISSION_DENIED: no access"%string)))
              awaitingStartPhoto)
       = PhotoResult.failure e (Some true)
    /\ outbox (snd (handleStartPhoto "u1"
              (fun _ => inr (VisionRejects (Some "7 PERMISSION_DENIED: no access"%string)))
              awaitingStartPhoto))
       = (outbox awaitingStartPhoto
          ++ [("u1"%string, CouldNotReadDisplay e (0 + 1))])%list.
Proof.
  refine (failed_photo_is_answered_with_the_pipeline_error awaitingStartPhoto "u1"
            (fun _ => inr (VisionRejects (Some "7 PERMISSION_DENIED: no access"%string)))
            0 (newState "u1" "s1" 7 start 1000)
            (VisionRejects (Some "7 PERMISSION_DENIED: no access"%string)) _ _ _ _).
  - vm_compute. reflexivity.
  - reflexivity.
  - vm_compute. reflexivity.
  - vm_compute. reflexivity.
Defined.

(** What the user is told on such a photo. *)
Example rejected_by_the_service :
  PhotoResult.message
    (fst (handleStartPhoto "u1"
            (fun _ => inr (VisionRejects (Some "7 PERMISSION_DENIED: no access"%string)))
            awaitingStartPhoto))
  = "Vision API authentication failed. Check credentials."%string
  /\ PhotoResult.message
       (fst (handleStartPhoto "u1" (fun _ => inl "PERMISSION_DENIED"%string)
               awaitingStartPhoto))
     = "Authentication error. Please contact support."%string.
Proof. split; vm_compute; reflexivity. Qed.

End ErrorMessages.

(* ================================================================== *)
(** * Readings that stay held *)
(* ================================================================== *)

Section StaleReadings.
Import JsNumber JsString OcrProcessor PhotoVerification VerificationFlow Confirmation.

Lemma updateSession_row (id other : string) (f : SessionRow -> SessionRow) (w : World) :
  is_Some (chargingSessions w !! other) ->
  is_Some (chargingSessions (snd (updateSession id f w)) !! other).
Proof.
  unfold updateSession. cbn [snd chargingSessions].
  destruct (decide (id = other)) as [->|Hne].
  - rewrite lookup_alter_eq. intros [row ->]. eexists. reflexivity.
  - rewrite lookup_alter_ne by exact Hne. auto.
Qed.

Lemma fallbackToManualEntry_keeps (user other : string) (state : VerificationState)
  (w : World) :
  states (snd (fallbackToManualEntry user state w)) = states w
  /\ (is_Some (chargingSessions w !! other) ->
      is_Some (chargingSessions (snd (fallbackToManualEntry user state w)) !! other)).
Proof.
  unfold fallbackToManualEntry, andThen, send. cbn [fst snd states chargingSessions].
  split; [reflexivity|]. apply updateSession_row.
Qed.

Lemma retakeStartPhoto_keeps (user other : string) (w : World) :
  states (snd (retakeStartPhoto user w)) = states w
  /\ (is_Some (chargingSessions w !! other) ->
      is_Some (chargingSessions (snd (retakeStartPhoto user w)) !! other)).
Proof.
  unfold retakeStartPhoto, andThen, getState. cbn [fst snd].
  destruct (states w !! user) as [state|]; [|split; [reflexivity|auto]].
  destruct (OCR_CONFIG.maxAttempts <=? attemptCount state).
  - apply fallbackToManualEntry_keeps.
  - split; [reflexivity|auto].
Qed.

Lemma handleOCRFailure_keeps (user other : string) (state : VerificationState)
  (error : option string) (w : World) :
  states (snd (handleOCRFailure user state error w)) = states w
  /\ (is_Some (chargingSessions w !! other) ->
      is_Some (chargingSessions (snd (handleOCRFailure user state error w)) !! other)).
Proof.
  unfold handleOCRFailure.
  destruct (OCR_CONFIG.maxAttempts <=? attemptCount state).
  - unfold andThen, pure.
    destruct (fallbackToManualEntry user state w) as [u w'] eqn:E. cbn [snd].
    change w' with (snd (u, w')). rewrite <- E. apply fallbackToManualEntry_keeps.
  - split; [reflexivity|auto].
Qed.

Lemma lift_snd {A} (m : Service A) (b : Backend) :
  snd (lift m b) = {| world := snd (m (world b)); events := events b |}.
Proof. unfold lift. destruct (m (world b)). reflexivity. Qed.

(** X23. A held reading outlives a retake and a failed photo. When the
    user holds a start reading, presses the retake button and sends a
    photo on which the pipeline fails, the state still holds the earlier
    reading, with one more attempt counted: [retakeStartPhoto] changes no
    state and a failed photo clears nothing. A confirmation pressed
    afterwards therefore confirms the earlier reading: with the row of the
    session in the table, [confirmStartReading] hands that reading to the
    session service and returns [true] when the charging starts. *)
Theorem held_reading_outlives_retake_and_failure
  (b : Backend) (user : string) (state : VerificationState) (reading : float)
  (imageBuffer : Image) (chargingStarts : bool) :
  states (world b) !! user = Some state -> type state = start ->
  heldReading state = Some reading ->
  OCRResult.success (extracted imageBuffer) = false ->
  is_Some (chargingSessions (world b) !! sessionId state) ->
  let retaken := snd (lift (retakeStartPhoto user) b) in
  let failed := snd (lift (handleStartPhoto user imageBuffer) retaken) in
  states (world retaken) = states (world b)
  /\ states (world failed) !! user = Some (bumpAttempt state)
  /\ heldReading (bumpAttempt state) = Some reading
  /\ events failed = events b
  /\ fst (confirmStartReading user chargingStarts failed) = chargingStarts
  /\ In (StartChargingAfterVerification (sessionId state) reading)
        (events (snd (confirmStartReading user chargingStarts failed))).
Proof.
  intros Hs Ht Hr S Hrow. cbv zeta. rewrite !lift_snd. cbn [world events].
  pose proof (retakeStartPhoto_keeps user (sessionId state) (world b)) as [K1 R1].
  set (w1 := snd (retakeStartPhoto user (world b))) in *.
  assert (Hs1 : states w1 !! user = Some state) by (rewrite K1; exact Hs).
  assert (K2 : states (snd (handleStartPhoto user imageBuffer w1))
               = <[user := bumpAttempt state]> (states w1)
               /\ is_Some (chargingSessions (snd (handleStartPhoto user imageBuffer w1))
                             !! sessionId state)).
  { rewrite (handleStartPhoto_expected _ _ _ _ Hs1 Ht). cbv zeta.
    fold (extracted imageBuffer). rewrite (extracted_failure _ S).
    match goal with |- context [handleOCRFailure ?u0 ?s0 ?e0 ?w0] =>
      destruct (handleOCRFailure_keeps u0 (sessionId state) s0 e0 w0) as [K R] end.
    rewrite K. split; [reflexivity|]. apply R. cbn [photoCounted chargingSessions].
    apply R1. exact Hrow. }
  set (w2 := snd (handleStartPhoto user imageBuffer w1)) in *.
  destruct K2 as [K2 R2].
  assert (Hs2 : states w2 !! user = Some (bumpAttempt state))
    by (rewrite K2; apply lookup_insert_eq).
  assert (Hh : heldReading (bumpAttempt state) = Some reading) by exact Hr.
  split; [exact K1|]. split; [exact Hs2|]. split; [exact Hh|].
  split; [reflexivity|].
  rewrite confirmStartReading_unfold. cbv zeta. cbn [world events].
  rewrite Hs2. change (type (bumpAttempt state)) with (type state). rewrite Ht, Hh.
  change (sessionId (bumpAttempt state)) with (sessionId state).
  destruct R2 as [row ->].
  destruct chargingStarts; cbn [fst snd events]; (split; [reflexivity|]);
    rewrite !in_app_iff; cbn [In]; auto.
Qed.

(** The user has a reading of a clear photo held, presses retake, and
    sends a blank photo; the confirmation then starts the charging. *)
Lemma held_reading_outlives_retake_and_failure_witness :
  fst (confirmStartReading "u1" true
         (snd (lift (handleStartPhoto "u1" blankImage)
                 (snd (lift (retakeStartPhoto "u1")
                         (run [(1000, InitiateStart "u1" "s1" 7);
                               (3000, StartPhoto "u1" clearImage)]
                              (constructed (chargingSessions freshWorld))))))))
  = true.
Proof.
  assert (H : exists state reading,
             states (world (run [(1000, InitiateStart "u1" "s1" 7);
                                 (3000, StartPhoto "u1" clearImage)]
                                (constructed (chargingSessions freshWorld))))
               !! "u1"%string = Some state
             /\ type state = start
             /\ heldReading state = Some reading
             /\ is_Some (chargingSessions
                           (world (run [(1000, InitiateStart "u1" "s1" 7);
                                        (3000, StartPhoto "u1" clearImage)]
                                       (constructed (chargingSessions freshWorld))))
                         !! sessionId state)).
  { vm_compute. eexists. eexists. split; [reflexivity|]. split; [reflexivity|].
    split; [reflexivity|]. eexists. reflexivity. }
  destruct H as (state & reading & Hs & Ht & Hr & Hrow).
  exact (proj1 (proj2 (proj2 (proj2 (proj2
           (held_reading_outlives_retake_and_failure _ "u1" state reading blankImage
              true Hs Ht Hr ltac:(vm_compute; reflexivity) Hrow)))))).
Defined.

End StaleReadings.
